(** * Anvaya backend: a shallow embedding of the route handlers and of the
    data-access layer, with the properties of its specification.

    Layers, in the order of the file:
    - [py]: the Python values, objects and string operations the code uses;
    - [exceptions]: [app/exceptions.py];
    - [runtime]: the relational store, the media host and the logger as an
      explicit world, with an exception-and-state monad over it;
    - [CRUDService]: [app/services/crud.py];
    - [admin], [public]: [app/api/admin.py], [app/api/public.py];
    - the lemmas and theorems. *)

From Stdlib Require Import ZArith Lia Ascii String.
From stdpp Require Import base option list sorting strings pretty gmap fin_maps.

#[global] Set Warnings "-clear-no-such-hyp".

Open Scope Z_scope.
Open Scope string_scope.

(** ** Python values and objects *)

Module py.

(** [datetime.date]: only the three calendar fields are observed. *)
Record date := Date { year : Z; month : Z; day : Z }.

(** The values that travel through attributes, dictionaries and query
    parameters.  [VDateTime d t] is a [datetime]: its date and the
    microseconds elapsed in that day. *)
Inductive Value :=
| VNone
| VInt (n : Z)
| VStr (s : string)
| VDate (d : date)
| VDateTime (d : date) (t : Z).

#[global] Instance date_eq_dec : EqDecision date.
Proof. solve_decision. Defined.

#[global] Instance Value_eq_dec : EqDecision Value.
Proof. solve_decision. Defined.

(** Truth value of an object in a condition ([if x:], [not x]). *)
Definition truthy (v : Value) : bool :=
  match v with
  | VNone => false
  | VInt n => negb (Z.eqb n 0)
  | VStr s => negb (String.eqb s "")
  | VDate _ | VDateTime _ _ => true
  end.

(** Truth value of an [Optional[str]]. *)
Definition str_truthy (s : option string) : bool :=
  match s with
  | Some s => negb (String.eqb s "")
  | None => false
  end.

(** Two digits, zero padded, as [isoformat] prints a month or a day. *)
Definition pad2 (n : Z) : string :=
  if Z.ltb n 10 then "0" +:+ pretty n else pretty n.

Definition pad4 (n : Z) : string :=
  if Z.ltb n 10 then "000" +:+ pretty n
  else if Z.ltb n 100 then "00" +:+ pretty n
  else if Z.ltb n 1000 then "0" +:+ pretty n
  else pretty n.

Definition isoformat (d : date) : string :=
  pad4 (year d) +:+ "-" +:+ pad2 (month d) +:+ "-" +:+ pad2 (day d).

(** [str(v)], as an f-string interpolates it.  The time of day of a
    [datetime] is printed in microseconds. *)
Definition str (v : Value) : string :=
  match v with
  | VNone => "None"
  | VInt n => pretty n
  | VStr s => s
  | VDate d => isoformat d
  | VDateTime d t => isoformat d +:+ " " +:+ pretty t
  end.

(** [str(x)] of the result of [dict.get]. *)
Definition str_opt (v : option Value) : string :=
  match v with
  | Some v => str v
  | None => "None"
  end.

(** An object is its attribute dictionary. *)
Abbreviation Obj := (gmap string Value).

Definition hasattr (o : Obj) (key : string) : bool :=
  bool_decide (is_Some (o !! key)).

Definition setattr (o : Obj) (key : string) (value : Value) : Obj :=
  <[key := value]> o.

(** *** Strings *)

Definition is_upper (c : ascii) : bool :=
  let n := N_of_ascii c in ((65 <=? n) && (n <=? 90))%N.

Definition lower_ascii (c : ascii) : ascii :=
  if is_upper c then ascii_of_N (N_of_ascii c + 32) else c.

(** A [str] is held as its UTF-8 encoding, one [ascii] per byte. *)

(** [s.lower()] on the letters [A]-[Z].  A letter outside ASCII is left
    as it is; no such letter becomes, in Python, one of the ASCII letters of
    the extensions compared with below. *)
Fixpoint lower (s : string) : string :=
  match s with
  | EmptyString => EmptyString
  | String c r => String (lower_ascii c) (lower r)
  end.

(** [sep in s] for a one-character [sep]. *)
Fixpoint contains (sep : ascii) (s : string) : bool :=
  match s with
  | EmptyString => false
  | String c r => Ascii.eqb c sep || contains sep r
  end.

(** [s.rsplit(sep, 1)] for a one-character [sep]: split once at the last
    occurrence of [sep]; a string without [sep] is returned whole. *)
Fixpoint rsplit1 (sep : ascii) (s : string) : list string :=
  match s with
  | EmptyString => [EmptyString]
  | String c r =>
      match rsplit1 sep r with
      | [h; t] => [String c h; t]
      | _ => if Ascii.eqb c sep then [EmptyString; r] else [String c r]
      end
  end.

(** [l[-1]] on a list of strings (the lists above are never empty). *)
Definition item_last (l : list string) : string := List.last l EmptyString.

(** [sep.join(l)]. *)
Fixpoint join (sep : string) (l : list string) : string :=
  match l with
  | [] => ""
  | [x] => x
  | x :: r => x +:+ sep +:+ join sep r
  end.

(** The bytes of a string. *)
Fixpoint bytes (s : string) : list N :=
  match s with
  | EmptyString => []
  | String c r => N_of_ascii c :: bytes r
  end.

(** The characters [s.strip()] removes, each by its encoding: U+0009 to
    U+000D, U+001C to U+0020, U+0085, U+00A0, U+1680, U+2000 to U+200A,
    U+2028, U+2029, U+202F, U+205F and U+3000. *)
Definition is_space (char : list N) : bool :=
  match char with
  | [n] => ((n =? 32) || ((9 <=? n) && (n <=? 13)) || ((28 <=? n) && (n <=? 31)))%N
  | [n1; n2] => ((n1 =? 194) && ((n2 =? 133) || (n2 =? 160)))%N
  | [n1; n2; n3] =>
      (((n1 =? 225) && (n2 =? 154) && (n3 =? 128))
       || ((n1 =? 226) && (n2 =? 128)
           && (((128 <=? n3) && (n3 <=? 138)) || (n3 =? 168) || (n3 =? 169) || (n3 =? 175)))
       || ((n1 =? 226) && (n2 =? 129) && (n3 =? 159))
       || ((n1 =? 227) && (n2 =? 128) && (n3 =? 128)))%N
  | _ => false
  end.

(** [s.lstrip()]: the characters of white space at the head are passed
    over, one, two or three bytes at a time. *)
Fixpoint lstrip (s : string) : string :=
  match s with
  | EmptyString => EmptyString
  | String c1 r1 =>
      if is_space (bytes (String c1 "")) then lstrip r1 else
      match r1 with
      | EmptyString => s
      | String c2 r2 =>
          if is_space (bytes (String c1 (String c2 ""))) then lstrip r2 else
          match r2 with
          | EmptyString => s
          | String c3 r3 =>
              if is_space (bytes (String c1 (String c2 (String c3 "")))) then lstrip r3
              else s
          end
      end
  end.

(** [s.rstrip()]: what is left of [s] from a byte on, once its own tail is
    stripped, is dropped when it is one character of white space. *)
Fixpoint rstrip (s : string) : string :=
  match s with
  | EmptyString => EmptyString
  | String c r =>
      let r := rstrip r in
      if is_space (bytes (String c r)) then EmptyString else String c r
  end.

(** [s.strip()]. *)
Definition strip (s : string) : string := rstrip (lstrip s).

(** *** Lists *)

(** [l.sort(key=key, reverse=True)]: stable, greatest key first. *)
Fixpoint insert_desc {A} (key : A → Z) (x : A) (l : list A) : list A :=
  match l with
  | [] => [x]
  | y :: r => if Z.leb (key y) (key x) then x :: y :: r else y :: insert_desc key x r
  end.

Fixpoint sort_desc {A} (key : A → Z) (l : list A) : list A :=
  match l with
  | [] => []
  | x :: r => insert_desc key x (sort_desc key r)
  end.

(** [s.split(sep)] for a one-character [sep]: the pieces between the
    occurrences of [sep], empty ones included. *)
Fixpoint split (sep : ascii) (s : string) : list string :=
  match s with
  | EmptyString => [EmptyString]
  | String c r =>
      if Ascii.eqb c sep then EmptyString :: split sep r
      else
        match split sep r with
        | h :: t => String c h :: t
        | [] => [String c EmptyString]
        end
  end.

End py.
Import py.

(** ** [app/exceptions.py] *)

Module exceptions.

(** The subclasses of [AnvayaException], each with the arguments of its
    constructor.  [kwargs] of [NotFoundError] are the keyword conditions a
    caller passes ([slug=...]). *)
Inductive AnvayaException :=
| NotFoundError (resource : string) (identifier : option string)
    (kwargs : list (string * string))
| ValidationError (message : string) (field : option string)
| AuthenticationError (message : string)
| AuthorizationError (message : string)
| FileUploadError (message : string) (filename : option string)
| ExternalServiceError (service message : string)
| DatabaseError (message : string).

Definition message (e : AnvayaException) : string :=
  match e with
  | NotFoundError resource identifier kwargs =>
      if str_truthy identifier then
        resource +:+ " with identifier '" +:+ default "" identifier +:+ "' not found"
      else
        match kwargs with
        | _ :: _ =>
            let conditions :=
              join ", " (map (λ kv, kv.1 +:+ "='" +:+ kv.2 +:+ "'") kwargs) in
            resource +:+ " not found (" +:+ conditions +:+ ")"
        | [] => resource +:+ " not found"
        end
  | ValidationError message _ => message
  | AuthenticationError message => message
  | AuthorizationError message => message
  | FileUploadError message _ => message
  | ExternalServiceError service message => service +:+ " error: " +:+ message
  | DatabaseError message => message
  end.

Definition status_code (e : AnvayaException) : Z :=
  match e with
  | NotFoundError _ _ _ => 404
  | ValidationError _ _ => 422
  | AuthenticationError _ => 401
  | AuthorizationError _ => 403
  | FileUploadError _ _ => 400
  | ExternalServiceError _ _ => 502
  | DatabaseError _ => 500
  end.

Definition error_code (e : AnvayaException) : string :=
  match e with
  | NotFoundError _ _ _ => "NOT_FOUND"
  | ValidationError _ _ => "VALIDATION_ERROR"
  | AuthenticationError _ => "AUTHENTICATION_ERROR"
  | AuthorizationError _ => "AUTHORIZATION_ERROR"
  | FileUploadError _ _ => "FILE_UPLOAD_ERROR"
  | ExternalServiceError _ _ => "EXTERNAL_SERVICE_ERROR"
  | DatabaseError _ => "DATABASE_ERROR"
  end.

(** The [details] an exception is constructed with; [details or {}] of the
    base class makes a missing dictionary an empty one. *)
Definition details (e : AnvayaException) : gmap string string :=
  match e with
  | NotFoundError resource _ kwargs =>
      foldl (λ d kv, <[kv.1 := kv.2]> d) {[ "resource" := resource ]} kwargs
  | ValidationError _ field =>
      if str_truthy field then {[ "field" := default "" field ]} else ∅
  | FileUploadError _ filename =>
      if str_truthy filename then {[ "filename" := default "" filename ]} else ∅
  | ExternalServiceError service _ => {[ "service" := service ]}
  | AuthenticationError _ | AuthorizationError _ | DatabaseError _ => ∅
  end.

(** A value of the JSON body of an error response. *)
Inductive Json :=
| JStr (s : string)
| JObj (fields : gmap string string).

(** [AnvayaException.to_dict]. *)
Definition to_dict (e : AnvayaException) : gmap string Json :=
  let response : gmap string Json :=
    {[ "detail" := JStr (message e); "error_code" := JStr (error_code e) ]} in
  if bool_decide (details e ≠ ∅) then <["details" := JObj (details e)]> response
  else response.

(** Everything a handler can raise: the application's own exceptions and
    those of its libraries. *)
Inductive Exn :=
| Anvaya (e : AnvayaException)
| RequestValidationError (params : list string)
| MultipleResultsFound
| StoreError (text : string)
| HostError (text : string)
| AttributeError (name : string).

Definition is_ValidationError (e : Exn) : bool :=
  match e with Anvaya (ValidationError _ _) => true | _ => false end.
Definition is_FileUploadError (e : Exn) : bool :=
  match e with Anvaya (FileUploadError _ _) => true | _ => false end.

(** [str(e)], as the log messages interpolate it. *)
Definition str_exn (e : Exn) : string :=
  match e with
  | Anvaya e => message e
  | RequestValidationError params => "validation error: " +:+ join ", " params
  | MultipleResultsFound => "Multiple rows were found when one or none was required"
  | StoreError text => text
  | HostError text => text
  | AttributeError name => "object has no attribute '" +:+ name +:+ "'"
  end.

(** The status of the response, after the handlers of [app/main.py]: an
    [AnvayaException] answers with its own status, a rejected parameter
    with 422, anything else with 500. *)
Definition response_status (e : Exn) : Z :=
  match e with
  | Anvaya e => status_code e
  | RequestValidationError _ => 422
  | _ => 500
  end.

(** The outcome of a computation that may raise. *)
Inductive Result (A : Type) :=
| Ok (a : A)
| Raise (e : Exn).
Arguments Ok {A} a.
Arguments Raise {A} e.

#[global] Instance Result_ret : MRet Result := λ A a, Ok a.
#[global] Instance Result_bind : MBind Result := λ A B f r,
  match r with
  | Ok a => f a
  | Raise e => Raise e
  end.

(** [o.key] on an object. *)
Definition getattr (o : Obj) (key : string) : Result Value :=
  match o !! key with
  | Some v => Ok v
  | None => Raise (AttributeError key)
  end.

End exceptions.
Import exceptions.

(** ** The world of a request: store, media host, logger *)

Module runtime.

(** A multipart file: the handlers read its name only. *)
Record UploadFile := { filename : option string; content : string }.

(** Modelled from the spec: the media-hosting client ([app/services/cloudinary.py])
    "returns a stable identifier + URL" for an uploaded asset; the handlers read
    them as [upload_result["url"]] and [upload_result["public_id"]]. *)
Record UploadResult := { url : string; public_id : string }.

(** The committed content of the relational store.  A table is the list
    of its rows, a row is an object with one attribute per column.
    [photo_seq] is the next identity the store assigns to a photo and
    [now] the reading of the store's clock. *)
Record Store := {
  wings : list Obj;
  activities : list Obj;
  photos : list Obj;
  photo_seq : Z;
  now : Value;
}.

Inductive Level := DEBUG | INFO | WARNING | ERROR.

(** A call to the media host. *)
Inductive MediaCall :=
| UploadImagesBulk (files : list UploadFile) (folder : string)
| UploadPdf (file : UploadFile) (folder : string)
| DeleteMedia (public_id : Value) (resource_type : string).

Record World := {
  store : Store;
  media_calls : list MediaCall;
  log : list (Level * string);
}.

(** Modelled from the spec: the media-hosting client
    ([app/services/cloudinary.py]) is not part of the sources; it "uploads/deletes
    binary assets and returns a stable identifier + URL", and a call may fail.
    Its answers are parameters here, as is the verdict of the relational
    store on a transaction.  [inl text] and [Some text] stand for an exception
    with that text. *)
Record Env := {
  host_upload_images : list UploadFile → string → string + list UploadResult;
  host_upload_pdf : UploadFile → string → string + UploadResult;
  host_delete : Value → string → option string;
  store_rejects : Store → option string;
}.

(** Computations of a request: they read the environment, change the
    world and may raise; what was done before an exception stays done. *)
Definition M (A : Type) : Type := Env → World → Result A * World.

#[global] Instance M_ret : MRet M := λ A a _ w, (Ok a, w).
#[global] Instance M_bind : MBind M := λ A B f m env w,
  match m env w with
  | (Ok a, w') => f a env w'
  | (Raise e, w') => (Raise e, w')
  end.

Definition raise {A} (e : Exn) : M A := λ _ w, (Raise e, w).

Definition lift {A} (r : Result A) : M A := λ _ w, (r, w).

(** [try: body except Exception as e: handler e]. *)
Definition try_except {A} (body : M A) (handler : Exn → M A) : M A :=
  λ env w,
    match body env w with
    | (Ok a, w') => (Ok a, w')
    | (Raise e, w') => handler e env w'
    end.

(** [for x in l: body x]. *)
Fixpoint for_each {A} (l : list A) (body : A → M unit) : M unit :=
  match l with
  | [] => mret tt
  | x :: r => body x ;; for_each r body
  end.

Definition logger (lvl : Level) (msg : string) : M unit :=
  λ _ w, (Ok tt, {| store := store w; media_calls := media_calls w;
                    log := log w ++ [(lvl, msg)] |}).

Definition get_store : M Store := λ _ w, (Ok (store w), w).

(** [session.commit()] of the pending state [s]: the store takes it whole
    or raises and keeps what it had. *)
Definition commit (s : Store) : M unit :=
  λ env w,
    match store_rejects env s with
    | Some text => (Raise (StoreError text), w)
    | None => (Ok tt, {| store := s; media_calls := media_calls w; log := log w |})
    end.

(** [session.rollback()]: pending changes were never installed. *)
Definition rollback : M unit := mret tt.

Definition record_call (c : MediaCall) : M unit :=
  λ _ w, (Ok tt, {| store := store w; media_calls := media_calls w ++ [c];
                    log := log w |}).

Definition host_answer {A} (r : string + A) : M A :=
  match r with
  | inl text => raise (HostError text)
  | inr a => mret a
  end.

Definition ask : M Env := λ env w, (Ok env, w).

(** Modelled from the spec: the three entry points of
    [app/services/cloudinary.py] that the handlers import.  Each is a call to
    the media host, recorded in the world, whose answer the environment
    gives. *)
Definition upload_images_bulk (files : list UploadFile) (folder : string)
  : M (list UploadResult) :=
  record_call (UploadImagesBulk files folder) ;;
  env ← ask ;
  host_answer (host_upload_images env files folder).

Definition upload_pdf (file : UploadFile) (folder : string) : M UploadResult :=
  record_call (UploadPdf file folder) ;;
  env ← ask ;
  host_answer (host_upload_pdf env file folder).

Definition delete_media (public_id : Value) (resource_type : string) : M unit :=
  record_call (DeleteMedia public_id resource_type) ;;
  env ← ask ;
  match host_delete env public_id resource_type with
  | Some text => raise (HostError text)
  | None => mret tt
  end.

(** *** Queries *)

(** [column == v] in a [WHERE] or [JOIN] clause: never true on [NULL]. *)
Definition sql_eq (x : option Value) (v : Value) : bool :=
  match x with
  | Some u => bool_decide (u = v) && negb (bool_decide (v = VNone))
  | None => false
  end.

Definition where_eq (col : string) (v : Value) (rows : list Obj) : list Obj :=
  filter (λ r, sql_eq (r !! col) v = true) rows.

Definition where_ne (col : string) (v : Value) (rows : list Obj) : list Obj :=
  filter (λ r, sql_eq (r !! col) v ≠ true) rows.

(** [result.scalar_one_or_none()]. *)
Definition scalar_one_or_none {A} (rows : list A) : M (option A) :=
  match rows with
  | [] => mret None
  | [r] => mret (Some r)
  | _ => raise MultipleResultsFound
  end.

(** The rank of a column value under [ORDER BY]. *)
Definition date_key (d : date) : Z :=
  (year d * 12 + (month d - 1)) * 31 + (day d - 1).

Definition order_key (v : option Value) : Z :=
  match v with
  | Some (VInt n) => n
  | Some (VDate d) => date_key d
  | Some (VDateTime d t) => date_key d * 86400000000 + t
  | _ => 0
  end.

(** [ORDER BY col DESC].  The database is free in the order of rows whose
    keys are equal; they are kept in the order of the table here, and a
    property that depends on their order is stated for rows whose keys
    differ. *)
Definition order_by_desc (col : string) (rows : list Obj) : list Obj :=
  sort_desc (λ r, order_key (r !! col)) rows.

(** [.limit(n)] and [.offset(n)]. *)
Definition limit_rows {A} (n : Z) (rows : list A) : list A := take (Z.to_nat n) rows.
Definition offset_rows {A} (n : Z) (rows : list A) : list A := drop (Z.to_nat n) rows.

Definition set_activities (s : Store) (rows : list Obj) : Store :=
  {| wings := wings s; activities := rows; photos := photos s;
     photo_seq := photo_seq s; now := now s |}.

Definition set_photos (s : Store) (rows : list Obj) (seq : Z) : Store :=
  {| wings := wings s; activities := activities s; photos := rows;
     photo_seq := seq; now := now s |}.

(** Modelled from the spec: the models ([app/models]) are not part of the
    sources.  A Photo has "identity, [wing_id], [url], [cloudinary_id],
    [uploaded_at] (creation timestamp)"; a new object reads [None] in the
    columns its constructor was not given. *)
Definition Photo (wing_id : Z) (url cloudinary_id : string) : Obj :=
  {[ "id" := VNone; "wing_id" := VInt wing_id; "url" := VStr url;
     "cloudinary_id" := VStr cloudinary_id; "uploaded_at" := VNone ]}.

Definition is_null (x : option Value) : bool :=
  match x with
  | None | Some VNone => true
  | Some _ => false
  end.

(** Modelled from the spec: on insert the store assigns the identity and
    the creation timestamp that the row does not carry. *)
Definition inserted_photo (s : Store) (i : nat) (p : Obj) : Obj :=
  let p1 := if is_null (p !! "id") then <["id" := VInt (photo_seq s + Z.of_nat i)]> p else p in
  if is_null (p1 !! "uploaded_at") then <["uploaded_at" := now s]> p1 else p1.

End runtime.
Import runtime.

(** ** [app/services/crud.py] *)

Module CRUDService.

Definition get_wing_by_id (wing_id : Value) : M (option Obj) :=
  s ← get_store ;
  scalar_one_or_none (where_eq "id" wing_id (wings s)).

Definition get_wing_by_slug (slug : string) : M (option Obj) :=
  s ← get_store ;
  scalar_one_or_none (where_eq "slug" (VStr slug) (wings s)).

Definition get_activity_by_id (activity_id : Z) : M (option Obj) :=
  s ← get_store ;
  scalar_one_or_none (where_eq "id" (VInt activity_id) (activities s)).

(** The loop of [update_activity]: [for key, value in update_data.items()]. *)
Definition apply_update (activity : Obj) (update_data : gmap string Value) : Obj :=
  foldl (λ activity kv,
           if hasattr activity kv.1 then setattr activity kv.1 kv.2 else activity)
        activity (map_to_list update_data).

(** The row the session tracks for the object loaded under [activity_id]
    is rewritten by the flush that precedes the commit. *)
Definition flush_activity (activity_id : Z) (activity : Obj) (rows : list Obj) : list Obj :=
  map (λ r, if sql_eq (r !! "id") (VInt activity_id) then activity else r) rows.

Definition update_activity (activity_id : Z) (update_data : gmap string Value)
  : M (option Obj) :=
  activity ← get_activity_by_id activity_id ;
  match activity with
  | None => mret None
  | Some activity =>
      try_except
        (let activity := apply_update activity update_data in
         s ← get_store ;
         commit (set_activities s (flush_activity activity_id activity (activities s))) ;;
         logger DEBUG ("Updated activity: " +:+ pretty activity_id) ;;
         mret (Some activity))
        (λ e,
           rollback ;;
           logger ERROR ("Failed to update activity " +:+ pretty activity_id +:+ ": " +:+ str_exn e) ;;
           raise e)
  end.

Definition delete_activity (activity_id : Z) : M bool :=
  try_except
    (s ← get_store ;
     let rowcount := Z.of_nat (length (where_eq "id" (VInt activity_id) (activities s))) in
     commit (set_activities s (where_ne "id" (VInt activity_id) (activities s))) ;;
     let deleted := Z.ltb 0 rowcount in
     (if deleted then logger DEBUG ("Deleted activity: " +:+ pretty activity_id) else mret tt) ;;
     mret deleted)
    (λ e,
       rollback ;;
       logger ERROR ("Failed to delete activity " +:+ pretty activity_id +:+ ": " +:+ str_exn e) ;;
       raise e).

(** [select(Activity, Wing).join(Wing, Activity.wing_id == Wing.id)
    .order_by(Activity.activity_date.desc())]. *)
Definition get_all_activities_with_wings : M (list (Obj * Obj)) :=
  s ← get_store ;
  let joined :=
    a ← activities s ;
    w ← filter (λ w, sql_eq (w !! "id") (default VNone (a !! "wing_id")) = true) (wings s) ;
    [(a, w)] in
  mret (sort_desc (λ aw, order_key (aw.1 !! "activity_date")) joined).

Definition get_photos_by_wing (wing_id : Value) (limit offset : Z) : M (list Obj) :=
  s ← get_store ;
  mret (limit_rows limit (offset_rows offset
          (order_by_desc "uploaded_at" (where_eq "wing_id" wing_id (photos s))))).

Definition get_photo_by_id (photo_id : Z) : M (option Obj) :=
  s ← get_store ;
  scalar_one_or_none (where_eq "id" (VInt photo_id) (photos s)).

Definition create_photos_bulk (photos : list Obj) : M (list Obj) :=
  try_except
    (s ← get_store ;
     let photos := imap (inserted_photo s) photos in
     commit (set_photos s (runtime.photos s ++ photos)
                          (photo_seq s + Z.of_nat (length photos))) ;;
     logger DEBUG ("Created " +:+ pretty (Z.of_nat (length photos)) +:+ " photos in bulk") ;;
     mret photos)
    (λ e,
       rollback ;;
       logger ERROR ("Failed to create photos bulk: " +:+ str_exn e) ;;
       raise e).

Definition delete_photo (photo_id : Z) : M bool :=
  try_except
    (s ← get_store ;
     let rowcount := Z.of_nat (length (where_eq "id" (VInt photo_id) (photos s))) in
     commit (set_photos s (where_ne "id" (VInt photo_id) (photos s)) (photo_seq s)) ;;
     let deleted := Z.ltb 0 rowcount in
     (if deleted then logger DEBUG ("Deleted photo: " +:+ pretty photo_id) else mret tt) ;;
     mret deleted)
    (λ e,
       rollback ;;
       logger ERROR ("Failed to delete photo " +:+ pretty photo_id +:+ ": " +:+ str_exn e) ;;
       raise e).

Definition get_all_wings : M (list Obj) :=
  s ← get_store ;
  mret (wings s).

Definition get_activities_by_wing (wing_id : Value) (limit : Z) : M (list Obj) :=
  s ← get_store ;
  mret (limit_rows limit
          (order_by_desc "activity_date" (where_eq "wing_id" wing_id (activities s)))).

Definition get_all_activities (limit : Z) : M (list Obj) :=
  s ← get_store ;
  mret (limit_rows limit (order_by_desc "activity_date" (activities s))).

(** [limit] has the default 10, [offset] is left at its default 0. *)
Definition get_latest_photos_by_wing (wing_id : Value) (limit : Z) : M (list Obj) :=
  get_photos_by_wing wing_id limit 0.

Definition create_photo (photo : Obj) : M Obj :=
  try_except
    (s ← get_store ;
     let photo := inserted_photo s 0 photo in
     commit (set_photos s (runtime.photos s ++ [photo]) (photo_seq s + 1)) ;;
     id ← lift (getattr photo "id") ;
     logger DEBUG ("Created photo: " +:+ str id) ;;
     mret photo)
    (λ e,
       rollback ;;
       logger ERROR ("Failed to create photo: " +:+ str_exn e) ;;
       raise e).

Section Create.

(** Modelled from the spec: [create_activity] "persists, returns activity
    with assigned identity".  The store has no counter for activities here;
    the identity it assigns to a new activity is a parameter. *)
Variable next_activity_id : Store → Z.

Definition inserted_activity (s : Store) (a : Obj) : Obj :=
  if is_null (a !! "id") then <["id" := VInt (next_activity_id s)]> a else a.

Definition create_activity (activity : Obj) : M Obj :=
  try_except
    (s ← get_store ;
     let activity := inserted_activity s activity in
     commit (set_activities s (activities s ++ [activity])) ;;
     id ← lift (getattr activity "id") ;
     logger DEBUG ("Created activity: " +:+ str id) ;;
     mret activity)
    (λ e,
       rollback ;;
       logger ERROR ("Failed to create activity: " +:+ str_exn e) ;;
       raise e).

End Create.

End CRUDService.

(** ** [app/api/admin.py] *)

Module admin.

Definition ALLOWED_IMAGE_EXTENSIONS : gset string :=
  {[ ".jpg"; ".jpeg"; ".png"; ".gif"; ".webp" ]}.
Definition ALLOWED_PDF_EXTENSIONS : gset string := {[ ".pdf" ]}.

Definition validate_image_file (file : UploadFile) : Result unit :=
  if negb (str_truthy (filename file)) then
    Raise (Anvaya (ValidationError "File must have a filename" None))
  else
    let name := default "" (filename file) in
    let ext :=
      if contains "." name then "." +:+ lower (item_last (rsplit1 "." name)) else "" in
    if bool_decide (ext ∉ ALLOWED_IMAGE_EXTENSIONS) then
      Raise (Anvaya (FileUploadError
        ("Invalid image format. Allowed: " +:+ join ", " (elements ALLOWED_IMAGE_EXTENSIONS))
        (filename file)))
    else Ok tt.

Definition validate_pdf_file (file : UploadFile) : Result unit :=
  if negb (str_truthy (filename file)) then
    Raise (Anvaya (ValidationError "File must have a filename" None))
  else
    let name := default "" (filename file) in
    let ext :=
      if contains "." name then "." +:+ lower (item_last (rsplit1 "." name)) else "" in
    if bool_decide (ext ∉ ALLOWED_PDF_EXTENSIONS) then
      Raise (Anvaya (FileUploadError
        "Invalid file format. Only PDF files are allowed." (filename file)))
    else Ok tt.

(** [POST /photos].  [current_admin] is the payload of the verified token. *)
Definition upload_photos (wing_id : Z) (files : list UploadFile)
    (current_admin : gmap string Value) : M (list Obj) :=
  wing ← CRUDService.get_wing_by_id (VInt wing_id) ;
  match wing with
  | None => raise (Anvaya (NotFoundError "Wing" (Some (pretty wing_id)) []))
  | Some wing =>
      for_each files (λ file, lift (validate_image_file file)) ;;
      slug ← lift (getattr wing "slug") ;
      logger INFO ("Uploading " +:+ pretty (Z.of_nat (length files)) +:+ " photos to wing '"
                   +:+ str slug +:+ "' by " +:+ str_opt (current_admin !! "sub")) ;;
      uploaded_files ←
        try_except
          (slug ← lift (getattr wing "slug") ;
           let folder := "anvaya/" +:+ str slug in
           upload_images_bulk files folder)
          (λ e,
             logger ERROR ("Cloudinary upload failed: " +:+ str_exn e) ;;
             raise (Anvaya (ExternalServiceError "Cloudinary" "Failed to upload images"))) ;
      let photos := map (λ upload_result,
                           Photo wing_id (url upload_result) (public_id upload_result))
                        uploaded_files in
      created_photos ← CRUDService.create_photos_bulk photos ;
      slug ← lift (getattr wing "slug") ;
      logger INFO ("Created " +:+ pretty (Z.of_nat (length created_photos))
                   +:+ " photo records for wing '" +:+ str slug +:+ "'") ;;
      mret created_photos
  end.

(** [DELETE /photos/{photo_id}]. *)
Definition delete_photo (photo_id : Z) (current_admin : gmap string Value)
  : M (gmap string string) :=
  photo ← CRUDService.get_photo_by_id photo_id ;
  match photo with
  | None => raise (Anvaya (NotFoundError "Photo" (Some (pretty photo_id)) []))
  | Some photo =>
      logger INFO ("Deleting photo " +:+ pretty photo_id +:+ " by "
                   +:+ str_opt (current_admin !! "sub")) ;;
      try_except
        (cloudinary_id ← lift (getattr photo "cloudinary_id") ;
         delete_media cloudinary_id "image")
        (λ e, logger WARNING ("Failed to delete photo from Cloudinary: " +:+ str_exn e)) ;;
      CRUDService.delete_photo photo_id ;;
      mret {[ "message" := "Photo deleted successfully" ]}
  end.

(** [PUT /activities/{activity_id}]. *)
Definition update_activity (activity_id : Z) (title description : option string)
    (activity_date : option date) (faculty_coordinator : option string)
    (report_file : option UploadFile) (current_admin : gmap string Value)
  : M (option Obj) :=
  activity ← CRUDService.get_activity_by_id activity_id ;
  match activity with
  | None => raise (Anvaya (NotFoundError "Activity" (Some (pretty activity_id)) []))
  | Some activity =>
      let update_data : gmap string Value := ∅ in
      let update_data :=
        match title with
        | Some title => <["title" := VStr (strip title)]> update_data
        | None => update_data
        end in
      let update_data :=
        match description with
        | Some description => <["description" := VStr (strip description)]> update_data
        | None => update_data
        end in
      let update_data :=
        match activity_date with
        | Some activity_date => <["activity_date" := VDate activity_date]> update_data
        | None => update_data
        end in
      let update_data :=
        match faculty_coordinator with
        | Some coordinator =>
            <["faculty_coordinator" :=
                if str_truthy faculty_coordinator then VStr (strip coordinator) else VNone]>
              update_data
        | None => update_data
        end in
      update_data ←
        match report_file with
        | Some file =>
            if str_truthy (filename file) then
              lift (validate_pdf_file file) ;;
              old_id ← lift (getattr activity "report_cloudinary_id") ;
              (if truthy old_id then
                 try_except
                   (delete_media old_id "raw")
                   (λ e, logger WARNING ("Failed to delete old PDF: " +:+ str_exn e))
               else mret tt) ;;
              try_except
                (wing_id ← lift (getattr activity "wing_id") ;
                 wing ← CRUDService.get_wing_by_id wing_id ;
                 folder ←
                   match wing with
                   | Some wing =>
                       slug ← lift (getattr wing "slug") ;
                       mret ("anvaya/" +:+ str slug +:+ "/reports")
                   | None => mret "anvaya/reports"
                   end ;
                 upload_result ← upload_pdf file folder ;
                 let update_data := <["report_url" := VStr (url upload_result)]> update_data in
                 let update_data :=
                   <["report_cloudinary_id" := VStr (public_id upload_result)]> update_data in
                 mret update_data)
                (λ e,
                   logger ERROR ("Failed to upload PDF: " +:+ str_exn e) ;;
                   raise (Anvaya (ExternalServiceError "Cloudinary" "Failed to upload PDF report")))
            else mret update_data
        | None => mret update_data
        end ;
      updated_activity ← CRUDService.update_activity activity_id update_data ;
      logger INFO ("Updated activity " +:+ pretty activity_id +:+ " by "
                   +:+ str_opt (current_admin !! "sub")) ;;
      mret updated_activity
  end.

(** Modelled from the spec: the models ([app/models]) are not part of the
    sources.  An Activity has "identity, [wing_id], [title], [description],
    [activity_date], optional [faculty_coordinator], optional [report_url] +
    [report_cloudinary_id]"; a new object reads [None] in its identity. *)
Definition Activity (wing_id : Z) (title description : string) (activity_date : date)
    (faculty_coordinator report_url report_cloudinary_id : Value) : Obj :=
  {[ "id" := VNone; "wing_id" := VInt wing_id; "title" := VStr title;
     "description" := VStr description; "activity_date" := VDate activity_date;
     "faculty_coordinator" := faculty_coordinator; "report_url" := report_url;
     "report_cloudinary_id" := report_cloudinary_id ]}.

Section Create.

Variable next_activity_id : Store → Z.

(** [POST /activities]. *)
Definition create_activity (wing_id : Z) (title description : string)
    (activity_date : date) (faculty_coordinator : option string)
    (report_file : option UploadFile) (current_admin : gmap string Value) : M Obj :=
  wing ← CRUDService.get_wing_by_id (VInt wing_id) ;
  match wing with
  | None => raise (Anvaya (NotFoundError "Wing" (Some (pretty wing_id)) []))
  | Some wing =>
      report ←
        match report_file with
        | Some file =>
            if str_truthy (filename file) then
              lift (validate_pdf_file file) ;;
              try_except
                (slug ← lift (getattr wing "slug") ;
                 let folder := "anvaya/" +:+ str slug +:+ "/reports" in
                 upload_result ← upload_pdf file folder ;
                 logger INFO ("Uploaded report PDF for activity '" +:+ title +:+ "'") ;;
                 mret (VStr (url upload_result), VStr (public_id upload_result)))
                (λ e,
                   logger ERROR ("Failed to upload PDF: " +:+ str_exn e) ;;
                   raise (Anvaya (ExternalServiceError "Cloudinary" "Failed to upload PDF report")))
            else mret (VNone, VNone)
        | None => mret (VNone, VNone)
        end ;
      let activity :=
        Activity wing_id (strip title) (strip description) activity_date
          (match faculty_coordinator with
           | Some coordinator =>
               if str_truthy faculty_coordinator then VStr (strip coordinator) else VNone
           | None => VNone
           end)
          report.1 report.2 in
      created_activity ← CRUDService.create_activity next_activity_id activity ;
      slug ← lift (getattr wing "slug") ;
      logger INFO ("Created activity '" +:+ title +:+ "' for wing '" +:+ str slug
                   +:+ "' by " +:+ str_opt (current_admin !! "sub")) ;;
      mret created_activity
  end.

End Create.

(** [DELETE /activities/{activity_id}]. *)
Definition delete_activity (activity_id : Z) (current_admin : gmap string Value)
  : M (gmap string string) :=
  activity ← CRUDService.get_activity_by_id activity_id ;
  match activity with
  | None => raise (Anvaya (NotFoundError "Activity" (Some (pretty activity_id)) []))
  | Some activity =>
      logger INFO ("Deleting activity " +:+ pretty activity_id +:+ " by "
                   +:+ str_opt (current_admin !! "sub")) ;;
      report_id ← lift (getattr activity "report_cloudinary_id") ;
      (if truthy report_id then
         try_except
           (report_id ← lift (getattr activity "report_cloudinary_id") ;
            delete_media report_id "raw")
           (λ e, logger WARNING ("Failed to delete PDF from Cloudinary: " +:+ str_exn e))
       else mret tt) ;;
      CRUDService.delete_activity activity_id ;;
      mret {[ "message" := "Activity deleted successfully" ]}
  end.

End admin.

(** ** [app/api/public.py] *)

Module public.

(** An integer query parameter as FastAPI declares it:
    [Query(default=..., ge=..., le=...)].  The framework checks a supplied
    value against the bounds before the handler runs and uses the default
    for a parameter that is absent. *)
Record Query := { q_default : option Z; q_ge : option Z; q_le : option Z }.

Definition in_bounds (q : Query) (v : Z) : bool :=
  match q_ge q with Some lo => Z.leb lo v | None => true end
  && match q_le q with Some hi => Z.leb v hi | None => true end.

(** The parameters of a request that its declaration rejects. *)
Definition violations (name : string) (q : Query) (raw : option Z) : list string :=
  match raw with
  | Some v => if in_bounds q v then [] else [name]
  | None => []
  end.

Definition resolve (q : Query) (raw : option Z) : option Z :=
  match raw with
  | Some v => Some v
  | None => q_default q
  end.

(** The body of [get_wing_photos]. *)
Definition get_wing_photos (slug : string) (limit offset : Z) : M (list Obj) :=
  wing ← CRUDService.get_wing_by_slug slug ;
  match wing with
  | None => raise (Anvaya (NotFoundError "Wing" None [("slug", slug)]))
  | Some wing =>
      wing_id ← lift (getattr wing "id") ;
      CRUDService.get_photos_by_wing wing_id limit offset
  end.

Definition limit_query : Query :=
  {| q_default := Some 100; q_ge := Some 1; q_le := Some 500 |}.
Definition offset_query : Query :=
  {| q_default := Some 0; q_ge := Some 0; q_le := None |}.

(** [GET /wings/{slug}/photos]: the declared parameters, then the body. *)
Definition get_wing_photos_route (slug : string) (limit offset : option Z)
  : M (list Obj) :=
  match (violations "limit" limit_query limit ++ violations "offset" offset_query offset)%list with
  | [] =>
      get_wing_photos slug (default 100 (resolve limit_query limit))
                           (default 0 (resolve offset_query offset))
  | params => raise (RequestValidationError params)
  end.

(** The value kept for one wing while the activities are counted:
    [{"name": ..., "slug": ..., "count": ...}]. *)
Record WingStat := { ws_name : Value; ws_slug : Value; ws_count : Z }.

(** One entry of the answer. *)
Record StatEntry := {
  wing_id : Value;
  wing_name : Value;
  wing_slug : Value;
  activity_count : Z;
}.

Record Statistics := {
  statistics : list StatEntry;
  available_years : list Z;
  filtered_year : option Z;
}.

(** [defaultdict(lambda: {"name": "", "slug": "", "count": 0})], its keys
    in the order of their first use. *)
Definition fresh_stat : WingStat := {| ws_name := VStr ""; ws_slug := VStr ""; ws_count := 0 |}.

(** [wing_stats[k]] creates the entry of a key that is new. *)
Definition dd_touch (k : Value) (d : list (Value * WingStat)) : list (Value * WingStat) :=
  if bool_decide (k ∈ d.*1) then d else d ++ [(k, fresh_stat)].

(** [wing_stats[k][field] = ...], with [f] the change of the entry. *)
Definition dd_set (f : WingStat → WingStat) (k : Value) (d : list (Value * WingStat))
  : list (Value * WingStat) :=
  map (λ kv, if bool_decide (kv.1 = k) then (kv.1, f kv.2) else kv) (dd_touch k d).

Definition set_name (v : Value) (e : WingStat) : WingStat :=
  {| ws_name := v; ws_slug := ws_slug e; ws_count := ws_count e |}.
Definition set_slug (v : Value) (e : WingStat) : WingStat :=
  {| ws_name := ws_name e; ws_slug := v; ws_count := ws_count e |}.
Definition incr_count (e : WingStat) : WingStat :=
  {| ws_name := ws_name e; ws_slug := ws_slug e; ws_count := ws_count e + 1 |}.

(** [d.year] of a date or datetime. *)
Definition year_of (v : Value) : Result Z :=
  match v with
  | VDate d | VDateTime d _ => Ok (year d)
  | _ => Raise (AttributeError "year")
  end.

(** One turn of the loop over [activities_with_wings]. *)
Definition count_row (year : option Z) (st : list (Value * WingStat) * gset Z)
    (row : Obj * Obj) : Result (list (Value * WingStat) * gset Z) :=
  let '(wing_stats, years_set) := st in
  let '(activity, wing) := row in
  activity_date ← getattr activity "activity_date" ;
  activity_year ← year_of activity_date ;
  let years_set := {[ activity_year ]} ∪ years_set in
  if bool_decide (is_Some year ∧ year ≠ Some activity_year) then
    Ok (wing_stats, years_set)
  else
    name ← getattr wing "name" ;
    id ← getattr wing "id" ;
    let wing_stats := dd_set (set_name name) id wing_stats in
    slug ← getattr wing "slug" ;
    id ← getattr wing "id" ;
    let wing_stats := dd_set (set_slug slug) id wing_stats in
    id ← getattr wing "id" ;
    let wing_stats := dd_set incr_count id wing_stats in
    Ok (wing_stats, years_set).

Fixpoint count_rows (year : option Z) (rows : list (Obj * Obj))
    (st : list (Value * WingStat) * gset Z) : Result (list (Value * WingStat) * gset Z) :=
  match rows with
  | [] => Ok st
  | row :: rows => st ← count_row year st row ; count_rows year rows st
  end.

(** The aggregation of [get_activity_statistics], from the joined rows. *)
Definition aggregate (activities_with_wings : list (Obj * Obj)) (year : option Z)
  : Result Statistics :=
  '(wing_stats, years_set) ← count_rows year activities_with_wings ([], ∅) ;
  let statistics :=
    map (λ kv, {| wing_id := kv.1; wing_name := ws_name kv.2;
                  wing_slug := ws_slug kv.2; activity_count := ws_count kv.2 |})
        wing_stats in
  let statistics := sort_desc activity_count statistics in
  let available_years := sort_desc (λ y, y) (elements years_set) in
  Ok {| statistics := statistics; available_years := available_years;
        filtered_year := year |}.

Definition get_activity_statistics (year : option Z) : M Statistics :=
  activities_with_wings ← CRUDService.get_all_activities_with_wings ;
  lift (aggregate activities_with_wings year).



(** [GET /wings]. *)
Definition get_all_wings : M (list Obj) := CRUDService.get_all_wings.

(** [GET /wings/{slug}/activities]; the data-access call is left at its
    default [limit=100]. *)
Definition get_wing_activities (slug : string) : M (list Obj) :=
  wing ← CRUDService.get_wing_by_slug slug ;
  match wing with
  | None => raise (Anvaya (NotFoundError "Wing" None [("slug", slug)]))
  | Some wing =>
      wing_id ← lift (getattr wing "id") ;
      CRUDService.get_activities_by_wing wing_id 100
  end.

(** [GET /activities/{activity_id}]. *)
Definition get_activity (activity_id : Z) : M Obj :=
  activity ← CRUDService.get_activity_by_id activity_id ;
  match activity with
  | None => raise (Anvaya (NotFoundError "Activity" (Some (pretty activity_id)) []))
  | Some activity => mret activity
  end.

(** The body of [get_all_activities]. *)
Definition get_all_activities (limit : Z) : M (list Obj) :=
  CRUDService.get_all_activities limit.



End public.

(** ** [app/main.py] *)

Module main.

(** The allowed origins, from the comma-separated setting:
    [[origin.strip() for origin in raw.split(",") if origin.strip()]]. *)
Definition cors_origins (raw : string) : list string :=
  map strip (filter (λ origin, str_truthy (Some (strip origin)) = true) (split "," raw)).

End main.

Import public.

(** ** Vocabulary of the properties *)

(** [rows] holds a row whose identity is [id]. *)
Definition has_id (id : Z) (rows : list Obj) : Prop :=
  Exists (λ r, r !! "id" = Some (VInt id)) rows.

#[global] Instance has_id_dec id rows : Decision (has_id id rows).
Proof. unfold has_id. apply _. Defined.

(** The pending state of a deletion by identity. *)
Definition without_activity (id : Z) (s : Store) : Store :=
  set_activities s (where_ne "id" (VInt id) (activities s)).

Definition without_photo (id : Z) (s : Store) : Store :=
  set_photos s (where_ne "id" (VInt id) (photos s)) (photo_seq s).

(** [Q] holds of the outcome and of the world that running [m] leaves. *)
Definition wp {A} (m : M A) (env : Env) (w : World) (Q : Result A → World → Prop) : Prop :=
  Q (m env w).1 (m env w).2.

(** A report file counts as supplied when it carries a name. *)
Definition supplied (report_file : option UploadFile) : bool :=
  match report_file with
  | Some file => str_truthy (filename file)
  | None => false
  end.

(** The pending state of an update of the activity [id] to [a]. *)
Definition with_activity (id : Z) (a : Obj) (s : Store) : Store :=
  set_activities s (CRUDService.flush_activity id a (activities s)).

(** The error of the first file of a batch that [validate_image_file]
    refuses, if any. *)
Fixpoint first_rejection (files : list UploadFile) : option Exn :=
  match files with
  | [] => None
  | file :: files =>
      match admin.validate_image_file file with
      | Raise e => Some e
      | Ok _ => first_rejection files
      end
  end.

(** The rows that a bulk insert of the [assets] of the wing [wing_id]
    adds to the store [s], and the pending state of that insert. *)
Definition photo_rows (s : Store) (wing_id : Z) (assets : list UploadResult) : list Obj :=
  imap (inserted_photo s) (map (λ asset, Photo wing_id (url asset) (public_id asset)) assets).

Definition with_photos (s : Store) (rows : list Obj) : Store :=
  set_photos s (photos s ++ rows) (photo_seq s + Z.of_nat (length rows)).

(** The extension [validate_image_file] computes for a file: what follows
    the last dot of its name, lowercased, behind a dot; empty when there is
    no name or no dot. *)
Definition extension (file : UploadFile) : string :=
  match filename file with
  | Some name =>
      if contains "." name then "." +:+ lower (item_last (rsplit1 "." name)) else ""
  | None => ""
  end.

(** A batch whose first file has no name and whose second is not an image. *)
Definition mixed_batch : list UploadFile :=
  [ {| filename := None; content := "" |};
    {| filename := Some "notes.exe"; content := "MZ" |} ].

(** The calendar year of the activity of a joined row. *)
Definition row_year (row : Obj * Obj) : option Z :=
  match row.1 !! "activity_date" with
  | Some (VDate d) | Some (VDateTime d _) => Some (year d)
  | _ => None
  end.

(** The row passes the year filter. *)
Definition counted (year : option Z) (row : Obj * Obj) : Prop :=
  match year with
  | Some y => row_year row = Some y
  | None => True
  end.

#[global] Instance counted_dec year row : Decision (counted year row).
Proof. destruct year; simpl; apply _. Defined.

(** The row passes the filter and belongs to the wing of identity [k]. *)
Definition counts_for (year : option Z) (k : Value) (row : Obj * Obj) : Prop :=
  counted year row ∧ row.2 !! "id" = Some k.

#[global] Instance counts_for_dec year k row : Decision (counts_for year k row).
Proof. unfold counts_for. apply _. Defined.

(** The entry [wing_stats] holds under the key [k], if any. *)
Fixpoint assoc (k : Value) (ws : list (Value * WingStat)) : option WingStat :=
  match ws with
  | [] => None
  | (k', e) :: ws => if decide (k' = k) then Some e else assoc k ws
  end.

(** What the rows say of the wing [k]: nothing when none of its rows
    passes the filter, else the number of those that do, with the name and
    slug the last of them carries. *)
Definition tally (year : option Z) (rows : list (Obj * Obj)) (k : Value) : option WingStat :=
  row ← last (filter (counts_for year k) rows) ;
  Some {| ws_name := default VNone (row.2 !! "name");
          ws_slug := default VNone (row.2 !! "slug");
          ws_count := Z.of_nat (length (filter (counts_for year k) rows)) |}.

(** The entry of the answer made from an entry of [wing_stats]. *)
Definition to_entry (kv : Value * WingStat) : StatEntry :=
  {| wing_id := kv.1; wing_name := ws_name kv.2;
     wing_slug := ws_slug kv.2; activity_count := ws_count kv.2 |}.

(** A joined row as the store yields it: the activity has a date, the wing
    an identity, a name and a slug. *)
Definition well_formed_row (row : Obj * Obj) : Prop :=
  is_Some (row_year row) ∧ is_Some (row.2 !! "id")
  ∧ is_Some (row.2 !! "name") ∧ is_Some (row.2 !! "slug").

(** The example of the specification: wing A in 2024 and 2023, wing B in
    2024. *)
Definition wing_a : Obj := {[ "id" := VInt 1; "name" := VStr "A"; "slug" := VStr "a" ]}.
Definition wing_b : Obj := {[ "id" := VInt 2; "name" := VStr "B"; "slug" := VStr "b" ]}.
Definition activity_in (wing_id y : Z) : Obj :=
  {[ "wing_id" := VInt wing_id; "activity_date" := VDate (Date y 5 17) ]}.
Definition example_rows : list (Obj * Obj) :=
  [ (activity_in 1 2024, wing_a); (activity_in 1 2023, wing_a); (activity_in 2 2024, wing_b) ].

(** Two images, one with its extension in capitals. *)
Definition image_batch : list UploadFile :=
  [ {| filename := Some "stage.png"; content := "PNG" |};
    {| filename := Some "crowd.JPG"; content := "JFIF" |} ].

(** *** A small world to run the code on *)

Definition demo_wing : Obj :=
  {[ "id" := VInt 1; "name" := VStr "CodeZero"; "slug" := VStr "codezero" ]}.

Definition demo_activity : Obj :=
  {[ "id" := VInt 7; "wing_id" := VInt 1; "title" := VStr "Hack night";
     "description" := VStr "An evening of small projects";
     "activity_date" := VDate (Date 2024 3 9); "faculty_coordinator" := VNone;
     "report_url" := VStr "https://cdn.example/anvaya/codezero/reports/r7.pdf";
     "report_cloudinary_id" := VStr "anvaya/codezero/reports/r7" ]}.

Definition demo_photo : Obj :=
  {[ "id" := VInt 3; "wing_id" := VInt 1;
     "url" := VStr "https://cdn.example/anvaya/codezero/p3.png";
     "cloudinary_id" := VStr "anvaya/codezero/p3";
     "uploaded_at" := VDateTime (Date 2024 3 1) 0 ]}.

Definition demo_store : Store :=
  {| wings := [demo_wing]; activities := [demo_activity]; photos := [demo_photo];
     photo_seq := 4; now := VDateTime (Date 2024 3 10) 0 |}.

Definition demo_world : World :=
  {| store := demo_store; media_calls := []; log := [] |}.

Definition demo_asset (folder : string) (file : UploadFile) : UploadResult :=
  {| url := "https://cdn.example/" +:+ folder +:+ "/" +:+ default "" (filename file);
     public_id := folder +:+ "/" +:+ default "" (filename file) |}.

(** A media host that answers and a store that takes every transaction. *)
Definition demo_env : Env :=
  {| host_upload_images := λ files folder, inr (map (demo_asset folder) files);
     host_upload_pdf := λ file folder, inr (demo_asset folder file);
     host_delete := λ _ _, None;
     store_rejects := λ _, None |}.

(** A media host that is down. *)
Definition offline_env : Env :=
  {| host_upload_images := λ _ _, inl "connection timed out";
     host_upload_pdf := λ _ _, inl "connection timed out";
     host_delete := λ _ _, Some "connection timed out";
     store_rejects := λ _, None |}.

Definition demo_admin : gmap string Value := {[ "sub" := VStr "admin" ]}.

(** A store that refuses every transaction. *)
Definition locked_env : Env :=
  {| host_upload_images := λ files folder, inr (map (demo_asset folder) files);
     host_upload_pdf := λ file folder, inr (demo_asset folder file);
     host_delete := λ _ _, None;
     store_rejects := λ _, Some "database is locked" |}.

(** The world [w] with the line [entry] added to its log. *)
Definition logged (w : World) (entry : Level * string) : World :=
  {| store := store w; media_calls := media_calls w; log := log w ++ [entry] |}.

(** The value [create_activity] stores for the faculty coordinator. *)
Definition coordinator_value (faculty_coordinator : option string) : Value :=
  match faculty_coordinator with
  | Some coordinator =>
      if str_truthy faculty_coordinator then VStr (strip coordinator) else VNone
  | None => VNone
  end.

(** The pending state of the insertion of the activity [a]. *)
Definition with_new_activity (a : Obj) (s : Store) : Store :=
  set_activities s (activities s ++ [a]).

(** The mapping the update handler builds from the fields a request
    supplies, before any report is handled. *)
Definition supplied_fields (title description : option string)
    (activity_date : option date) (faculty_coordinator : option string)
  : gmap string Value :=
  let update_data : gmap string Value := ∅ in
  let update_data :=
    match title with
    | Some title => <["title" := VStr (strip title)]> update_data
    | None => update_data
    end in
  let update_data :=
    match description with
    | Some description => <["description" := VStr (strip description)]> update_data
    | None => update_data
    end in
  let update_data :=
    match activity_date with
    | Some activity_date => <["activity_date" := VDate activity_date]> update_data
    | None => update_data
    end in
  match faculty_coordinator with
  | Some coordinator =>
      <["faculty_coordinator" :=
          if str_truthy faculty_coordinator then VStr (strip coordinator) else VNone]>
        update_data
  | None => update_data
  end.

(** The deletion the handlers request for a report reference that is set. *)
Definition report_cleanup (report_id : Value) : list MediaCall :=
  if truthy report_id then [DeleteMedia report_id "raw"] else [].

(** [folder] is where the update handler uploads a report of an activity
    of the wing [wing_id]: under the wing's slug, or directly under
    [anvaya/reports] when the store holds no such wing. *)
Definition reports_folder (s : Store) (wing_id : Value) (folder : string) : Prop :=
  (∃ wing slug, where_eq "id" wing_id (wings s) = [wing]
                ∧ wing !! "slug" = Some slug
                ∧ folder = "anvaya/" +:+ str slug +:+ "/reports")
  ∨ (where_eq "id" wing_id (wings s) = [] ∧ folder = "anvaya/reports").

(** The calendar year of an activity. *)
Definition activity_year (a : Obj) : option Z :=
  match a !! "activity_date" with
  | Some (VDate d) | Some (VDateTime d _) => Some (year d)
  | _ => None
  end.

(** The activity falls in the year asked for, if one is. *)
Definition in_year (year : option Z) (a : Obj) : Prop :=
  match year with
  | Some y => activity_year a = Some y
  | None => True
  end.

#[global] Instance in_year_dec year a : Decision (in_year year a).
Proof. destruct year; simpl; apply _. Defined.

(** The activities of the store that belong to the wing of identity [k]
    and fall in the year asked for. *)
Definition activities_of (s : Store) (year : option Z) (k : Value) : list Obj :=
  filter (λ a, a !! "wing_id" = Some k ∧ in_year year a) (activities s).

(** The identities the store has handed out lie below its counter. *)
Definition photo_ids_below_seq (s : Store) : Prop :=
  ∀ r n, r ∈ photos s → r !! "id" = Some (VInt n) → n < photo_seq s.

(** The rest of [s] behind a character of white space at its head, if
    there is one: one step of [lstrip]. *)
Definition skip_space (s : string) : option string :=
  match s with
  | EmptyString => None
  | String c1 r1 =>
      if is_space (bytes (String c1 "")) then Some r1 else
      match r1 with
      | EmptyString => None
      | String c2 r2 =>
          if is_space (bytes (String c1 (String c2 ""))) then Some r2 else
          match r2 with
          | EmptyString => None
          | String c3 r3 =>
              if is_space (bytes (String c1 (String c2 (String c3 "")))) then Some r3
              else None
          end
      end
  end.

(** [listing] is an answer the database may give to a query over [rows]
    that ends in [ORDER BY col DESC]: the same rows, the greater key first,
    rows of equal key in any order. *)
Definition ordered_desc (col : string) (rows listing : list Obj) : Prop :=
  listing ≡ₚ rows
  ∧ StronglySorted (λ r1 r2, (order_key (r2 !! col) ≤ order_key (r1 !! col))%Z) listing.

(** * Properties *)

(** A decidable fact about closed terms, by running its decision
    procedure. *)
Ltac by_running := apply (bool_decide_unpack _); vm_compute; exact I.

(** ** Strings and file names *)

Lemma rsplit1_without (sep : ascii) (s : string) :
  contains sep s = false → rsplit1 sep s = [s].
Proof.
  induction s as [|c r IH]; simpl; [done|].
  intros [Hc Hr]%orb_false_elim.
  rewrite (IH Hr), Hc. done.
Qed.

Lemma rsplit1_at_last (sep : ascii) (pre suf : string) :
  contains sep suf = false →
  rsplit1 sep (pre +:+ String sep suf) = [pre; suf].
Proof.
  intros Hsuf. induction pre as [|c r IH]; simpl.
  - rewrite (rsplit1_without _ _ Hsuf), Ascii.eqb_refl. done.
  - rewrite IH. done.
Qed.

Lemma contains_app (sep : ascii) (pre suf : string) :
  contains sep (pre +:+ String sep suf) = true.
Proof.
  induction pre as [|c r IH]; simpl.
  - by rewrite Ascii.eqb_refl.
  - rewrite IH. apply orb_true_r.
Qed.

Lemma contains_last (sep : ascii) (s : string) :
  contains sep s = true →
  ∃ pre suf, s = pre +:+ String sep suf ∧ contains sep suf = false.
Proof.
  induction s as [|c r IH]; simpl; [done|].
  destruct (contains sep r) eqn:Hr.
  - intros _. destruct (IH eq_refl) as (pre & suf & -> & Hsuf).
    by exists (String c pre), suf.
  - rewrite orb_false_r. intros ->%Ascii.eqb_eq.
    by exists EmptyString, r.
Qed.

Lemma app_not_empty (pre suf : string) (c : ascii) :
  String.eqb (pre +:+ String c suf) "" = false.
Proof. by destruct pre. Qed.

Lemma empty_not_image_extension : "" ∉ admin.ALLOWED_IMAGE_EXTENSIONS.
Proof. by_running. Qed.

(** What [validate_image_file] computes, case by case. *)
Lemma validate_image_file_unfold (file : UploadFile) :
  admin.validate_image_file file =
    match filename file with
    | None => Raise (Anvaya (ValidationError "File must have a filename" None))
    | Some name =>
        if String.eqb name "" then
          Raise (Anvaya (ValidationError "File must have a filename" None))
        else if contains "." name then
          if bool_decide ("." +:+ lower (item_last (rsplit1 "." name))
                          ∉ admin.ALLOWED_IMAGE_EXTENSIONS) then
            Raise (Anvaya (FileUploadError
              ("Invalid image format. Allowed: "
               +:+ join ", " (elements admin.ALLOWED_IMAGE_EXTENSIONS)) (Some name)))
          else Ok tt
        else
          Raise (Anvaya (FileUploadError
            ("Invalid image format. Allowed: "
             +:+ join ", " (elements admin.ALLOWED_IMAGE_EXTENSIONS)) (Some name)))
    end.
Proof.
  unfold admin.validate_image_file. destruct (filename file) as [name|]; simpl; [|done].
  destruct (String.eqb name ""); simpl; [done|].
  destruct (contains "." name); [done|].
  rewrite bool_decide_eq_true_2; [done | apply empty_not_image_extension].
Qed.

(** C9.  [validate_image_file] accepts a file exactly when its name reads
    [pre.suf] with no dot in [suf] and [.suf], lowercased, one of the five
    image extensions; the match ignores case ([photo.JPG] is accepted); a
    non-empty name without a dot is refused with a [FileUploadError], status
    400; a missing or empty name is refused with a [ValidationError], status
    422. *)
Theorem validate_image_file_accepts (file : UploadFile) :
  (admin.validate_image_file file = Ok tt ↔
     ∃ pre suf, filename file = Some (pre +:+ "." +:+ suf)
                ∧ contains "." suf = false
                ∧ "." +:+ lower suf ∈ ({[ ".jpg"; ".jpeg"; ".png"; ".gif"; ".webp" ]} : gset string))
  ∧ admin.validate_image_file {| filename := Some "photo.JPG"; content := content file |} = Ok tt
  ∧ (∀ name, filename file = Some name → name ≠ "" → contains "." name = false →
       ∃ msg, admin.validate_image_file file = Raise (Anvaya (FileUploadError msg (Some name)))
              ∧ status_code (FileUploadError msg (Some name)) = 400)
  ∧ (filename file = None ∨ filename file = Some "" →
       ∃ msg, admin.validate_image_file file = Raise (Anvaya (ValidationError msg None))
              ∧ status_code (ValidationError msg None) = 422).
Proof.
  rewrite validate_image_file_unfold. repeat split.
  - destruct (filename file) as [name|]; [|done].
    destruct (String.eqb name "") eqn:Hne; [done|].
    destruct (contains "." name) eqn:Hdot; [|done].
    destruct (contains_last _ _ Hdot) as (pre & suf & -> & Hsuf).
    rewrite rsplit1_at_last by done. simpl item_last.
    case_bool_decide as Hin; [done|]. intros _.
    exists pre, suf. split_and!; [done..|]. exact Hin.
  - intros (pre & suf & -> & Hsuf & Hin).
    change (pre +:+ "." +:+ suf) with (pre +:+ String "." suf).
    rewrite app_not_empty, contains_app, rsplit1_at_last by done. simpl item_last.
    rewrite bool_decide_eq_false_2; [done|]. by intros [].
  - intros name -> Hne Hdot. eexists. split; [|done].
    destruct (String.eqb_spec name ""); [done|]. by rewrite Hdot.
  - intros [->| ->]; eexists; (split; [reflexivity|done]).
Qed.

(** The theorem at [holiday.Png], at [README] and at a file without a
    name. *)
Lemma validate_image_file_accepts_witness :
  admin.validate_image_file {| filename := Some "holiday.Png"; content := "" |} = Ok tt
  ∧ (∃ msg, admin.validate_image_file {| filename := Some "README"; content := "" |}
            = Raise (Anvaya (FileUploadError msg (Some "README"))))
  ∧ (∃ msg, admin.validate_image_file {| filename := None; content := "" |}
            = Raise (Anvaya (ValidationError msg None))).
Proof.
  split_and!.
  - destruct (validate_image_file_accepts {| filename := Some "holiday.Png"; content := "" |})
      as ([_ H] & _).
    apply H. exists "holiday", "Png". split_and!; [reflexivity | reflexivity |].
    by_running.
  - destruct (validate_image_file_accepts {| filename := Some "README"; content := "" |})
      as (_ & _ & H & _).
    destruct (H "README") as (msg & Hmsg & _); [reflexivity | discriminate | reflexivity |].
    by exists msg.
  - destruct (validate_image_file_accepts {| filename := None; content := "" |})
      as (_ & _ & _ & H).
    destruct H as (msg & Hmsg & _); [by left|]. by exists msg.
Defined.

(** ** The store *)

Lemma sql_eq_int (x : option Value) (n : Z) :
  sql_eq x (VInt n) = true ↔ x = Some (VInt n).
Proof.
  destruct x as [u|]; simpl; [|done].
  rewrite andb_true_r. rewrite bool_decide_eq_true. naive_solver.
Qed.

Lemma elem_of_where_eq_int col n rows r :
  r ∈ where_eq col (VInt n) rows ↔ r ∈ rows ∧ r !! col = Some (VInt n).
Proof. unfold where_eq. rewrite list_elem_of_filter, sql_eq_int. naive_solver. Qed.

Lemma elem_of_where_ne_int col n rows r :
  r ∈ where_ne col (VInt n) rows ↔ r ∈ rows ∧ r !! col ≠ Some (VInt n).
Proof. unfold where_ne. rewrite list_elem_of_filter, sql_eq_int. naive_solver. Qed.

Lemma has_id_where_eq id rows :
  has_id id rows ↔ where_eq "id" (VInt id) rows ≠ [].
Proof.
  unfold has_id. rewrite Exists_exists. split.
  - intros (r & Hr & Hid) Hnil.
    assert (r ∈ where_eq "id" (VInt id) rows) as Hin by by apply elem_of_where_eq_int.
    rewrite Hnil in Hin. by apply not_elem_of_nil in Hin.
  - destruct (where_eq "id" (VInt id) rows) as [|r l] eqn:Heq; [done|]. intros _.
    assert (r ∈ where_eq "id" (VInt id) rows) as Hin by (rewrite Heq; left).
    apply elem_of_where_eq_int in Hin. naive_solver.
Qed.

Lemma rowcount_positive id rows :
  Z.ltb 0 (Z.of_nat (length (where_eq "id" (VInt id) rows)))
  = bool_decide (has_id id rows).
Proof.
  case_bool_decide as H; rewrite has_id_where_eq in H.
  - destruct (where_eq "id" (VInt id) rows); [done|]. simpl. apply Z.ltb_lt. lia.
  - apply dec_stable in H. by rewrite H.
Qed.

Lemma where_ne_absent id rows :
  ¬ has_id id rows → where_ne "id" (VInt id) rows = rows.
Proof.
  unfold has_id, where_ne. rewrite <- Forall_Exists_neg. intros H.
  induction H as [|r l Hr Hl IH]; [done|].
  rewrite filter_cons_True; [by rewrite IH|]. by rewrite sql_eq_int.
Qed.

Lemma has_id_where_ne id rows : ¬ has_id id (where_ne "id" (VInt id) rows).
Proof.
  unfold has_id. rewrite Exists_exists. intros (r & Hr & Hid).
  apply elem_of_where_ne_int in Hr. naive_solver.
Qed.

Lemma without_activity_absent id s :
  ¬ has_id id (activities s) → without_activity id s = s.
Proof.
  intros H. unfold without_activity. rewrite where_ne_absent by done. by destruct s.
Qed.

Lemma without_photo_absent id s :
  ¬ has_id id (photos s) → without_photo id s = s.
Proof.
  intros H. unfold without_photo. rewrite where_ne_absent by done. by destruct s.
Qed.

(** [delete_activity] when the store takes the deletion. *)
Lemma delete_activity_accepted env w id :
  store_rejects env (without_activity id (store w)) = None →
  CRUDService.delete_activity id env w =
    (Ok (bool_decide (has_id id (activities (store w)))),
     {| store := without_activity id (store w);
        media_calls := media_calls w;
        log := log w ++ (if bool_decide (has_id id (activities (store w)))
                         then [(DEBUG, "Deleted activity: " +:+ pretty id)] else []) |}).
Proof.
  intros Hacc. unfold CRUDService.delete_activity, try_except, mbind, M_bind, get_store, commit.
  fold (without_activity id (store w)). rewrite Hacc, rowcount_positive.
  case_bool_decide; simpl; [done|]. by rewrite app_nil_r.
Qed.

Lemma delete_photo_accepted env w id :
  store_rejects env (without_photo id (store w)) = None →
  CRUDService.delete_photo id env w =
    (Ok (bool_decide (has_id id (photos (store w)))),
     {| store := without_photo id (store w);
        media_calls := media_calls w;
        log := log w ++ (if bool_decide (has_id id (photos (store w)))
                         then [(DEBUG, "Deleted photo: " +:+ pretty id)] else []) |}).
Proof.
  intros Hacc. unfold CRUDService.delete_photo, try_except, mbind, M_bind, get_store, commit.
  fold (without_photo id (store w)). rewrite Hacc, rowcount_positive.
  case_bool_decide; simpl; [done|]. by rewrite app_nil_r.
Qed.

(** C7.  When the store takes the deletion, [delete_activity] answers
    with a boolean that is true exactly when the table held a row of that
    identity; afterwards no row of that identity is left and the rows of
    another identity are all there.  For an identity that is absent the answer
    is [False], not an exception, and the store is as it was.  The same holds
    of [delete_photo]. *)
Theorem delete_returns_whether_removed (env : Env) (w : World) (id : Z) :
  (store_rejects env (without_activity id (store w)) = None →
   ∃ b w', CRUDService.delete_activity id env w = (Ok b, w')
     ∧ (b = true ↔ has_id id (activities (store w)))
     ∧ ¬ has_id id (activities (store w'))
     ∧ (∀ r, r ∈ activities (store w') ↔
             r ∈ activities (store w) ∧ r !! "id" ≠ Some (VInt id))
     ∧ (¬ has_id id (activities (store w)) → b = false ∧ store w' = store w))
  ∧ (store_rejects env (without_photo id (store w)) = None →
     ∃ b w', CRUDService.delete_photo id env w = (Ok b, w')
       ∧ (b = true ↔ has_id id (photos (store w)))
       ∧ ¬ has_id id (photos (store w'))
       ∧ (∀ r, r ∈ photos (store w') ↔
               r ∈ photos (store w) ∧ r !! "id" ≠ Some (VInt id))
       ∧ (¬ has_id id (photos (store w)) → b = false ∧ store w' = store w)).
Proof.
  split; intros Hacc.
  - rewrite (delete_activity_accepted _ _ _ Hacc). eexists _, _. split; [done|]. simpl.
    split_and!.
    + by rewrite bool_decide_eq_true.
    + apply has_id_where_ne.
    + intros r. apply elem_of_where_ne_int.
    + intros Hno. split; [by apply bool_decide_eq_false|].
      by apply without_activity_absent.
  - rewrite (delete_photo_accepted _ _ _ Hacc). eexists _, _. split; [done|]. simpl.
    split_and!.
    + by rewrite bool_decide_eq_true.
    + apply has_id_where_ne.
    + intros r. apply elem_of_where_ne_int.
    + intros Hno. split; [by apply bool_decide_eq_false|].
      by apply without_photo_absent.
Qed.

(** Deleting the activity 7 of the demo world answers [True]; deleting the
    photo 99, which it does not hold, answers [False]. *)
Lemma delete_returns_whether_removed_witness :
  (CRUDService.delete_activity 7 demo_env demo_world).1 = Ok true
  ∧ (CRUDService.delete_photo 99 demo_env demo_world).1 = Ok false.
Proof.
  split.
  - destruct (delete_returns_whether_removed demo_env demo_world 7) as [H _].
    destruct H as (b & w' & -> & Hb & _); [reflexivity|].
    simpl. f_equal. apply Hb. by_running.
  - destruct (delete_returns_whether_removed demo_env demo_world 99) as [_ H].
    destruct H as (b & w' & -> & _ & _ & _ & Hno); [reflexivity|].
    simpl. f_equal. apply Hno. by_running.
Defined.

(** ** Partial update *)

(** The loop of [update_activity] over any item list with distinct keys. *)
Lemma update_loop_lookup (items : list (string * Value)) (a : Obj) (k : string) :
  NoDup items.*1 →
  foldl (λ activity kv,
           if hasattr activity kv.1 then setattr activity kv.1 kv.2 else activity)
        a items !! k
  = match a !! k with
    | Some old => Some (default old ((list_to_map items : gmap string Value) !! k))
    | None => None
    end.
Proof.
  revert a. induction items as [|[k' v] items IH]; intros a Hnd; simpl.
  - rewrite lookup_empty. by destruct (a !! k).
  - apply NoDup_cons in Hnd as [Hk' Hnd]. rewrite IH by done.
    unfold hasattr, setattr. destruct (decide (k' = k)) as [->|Hne].
    + rewrite lookup_insert_eq.
      rewrite (not_elem_of_list_to_map_1 (M := gmap string) items k) by done.
      case_bool_decide as Ha.
      * rewrite lookup_insert_eq. by destruct Ha as [old ->].
      * apply eq_None_not_Some in Ha. by rewrite Ha.
    + rewrite (lookup_insert_ne _ k' k) by done.
      case_bool_decide; [by rewrite lookup_insert_ne|done].
Qed.

Lemma apply_update_lookup (a : Obj) (update_data : gmap string Value) (k : string) :
  CRUDService.apply_update a update_data !! k
  = match a !! k with
    | Some old => Some (default old (update_data !! k))
    | None => None
    end.
Proof.
  unfold CRUDService.apply_update.
  rewrite update_loop_lookup by apply NoDup_fst_map_to_list.
  by rewrite list_to_map_to_list.
Qed.

Lemma apply_update_empty (a : Obj) : CRUDService.apply_update a ∅ = a.
Proof. unfold CRUDService.apply_update. by rewrite map_to_list_empty. Qed.

Lemma apply_update_singleton (a : Obj) (k : string) (v : Value) :
  is_Some (a !! k) → CRUDService.apply_update a {[ k := v ]} = <[k := v]> a.
Proof.
  intros [old Hold]. apply map_eq. intros j. rewrite apply_update_lookup.
  destruct (decide (k = j)) as [->|Hne].
  - by rewrite Hold, lookup_singleton_eq, lookup_insert_eq.
  - rewrite lookup_singleton_ne, lookup_insert_ne by done. by destruct (a !! j).
Qed.

(** The row found under an identity is the only one the flush rewrites. *)
Lemma where_eq_single col v rows a r :
  where_eq col v rows = [a] → r ∈ rows → sql_eq (r !! col) v = true → r = a.
Proof.
  intros Heq Hr Hv.
  assert (r ∈ where_eq col v rows) as Hin by by apply list_elem_of_filter.
  rewrite Heq in Hin. by apply list_elem_of_singleton in Hin.
Qed.

Lemma flush_activity_same id a rows :
  where_eq "id" (VInt id) rows = [a] → CRUDService.flush_activity id a rows = rows.
Proof.
  intros Heq. unfold CRUDService.flush_activity.
  rewrite <- (map_id rows) at 2. apply map_ext_in. intros r Hr%list_elem_of_In.
  destruct (sql_eq (r !! "id") (VInt id)) eqn:Hv; [|done].
  symmetry. by eapply where_eq_single.
Qed.

Lemma with_activity_same id a s :
  where_eq "id" (VInt id) (activities s) = [a] → with_activity id a s = s.
Proof.
  intros Heq. unfold with_activity. rewrite flush_activity_same by done. by destruct s.
Qed.

Lemma get_activity_by_id_found env w id a :
  where_eq "id" (VInt id) (activities (store w)) = [a] →
  CRUDService.get_activity_by_id id env w = (Ok (Some a), w).
Proof.
  intros Heq. unfold CRUDService.get_activity_by_id, mbind, M_bind, get_store.
  by rewrite Heq.
Qed.

Lemma get_activity_by_id_missing env w id :
  where_eq "id" (VInt id) (activities (store w)) = [] →
  CRUDService.get_activity_by_id id env w = (Ok None, w).
Proof.
  intros Heq. unfold CRUDService.get_activity_by_id, mbind, M_bind, get_store.
  by rewrite Heq.
Qed.

(** [update_activity] of the data-access layer when the store takes the
    update. *)
Lemma update_activity_accepted env w id update_data a :
  where_eq "id" (VInt id) (activities (store w)) = [a] →
  store_rejects env (with_activity id (CRUDService.apply_update a update_data) (store w)) = None →
  CRUDService.update_activity id update_data env w =
    (Ok (Some (CRUDService.apply_update a update_data)),
     {| store := with_activity id (CRUDService.apply_update a update_data) (store w);
        media_calls := media_calls w;
        log := log w ++ [(DEBUG, "Updated activity: " +:+ pretty id)] |}).
Proof.
  intros Heq Hacc. unfold CRUDService.update_activity.
  unfold mbind at 1. unfold M_bind at 1. rewrite (get_activity_by_id_found _ _ _ _ Heq).
  unfold try_except, mbind, M_bind, get_store, commit.
  fold (with_activity id (CRUDService.apply_update a update_data) (store w)).
  by rewrite Hacc.
Qed.

Lemma update_activity_missing env w id update_data :
  where_eq "id" (VInt id) (activities (store w)) = [] →
  CRUDService.update_activity id update_data env w = (Ok None, w).
Proof.
  intros Heq. unfold CRUDService.update_activity.
  unfold mbind at 1. unfold M_bind at 1. by rewrite (get_activity_by_id_missing _ _ _ Heq).
Qed.

(** C2.  For an activity that exists and a transaction the store takes,
    [update_activity] returns the activity with every supplied field that
    names one of its attributes set to the supplied value, every field the
    mapping does not name at its prior value, and no attribute it did not
    have; with [title] alone supplied, [title] alone changes.  The row of the
    activity is rewritten and no other.  For an identity that does not exist
    it returns [None] and changes nothing. *)
Theorem update_activity_applies_supplied_fields
    (env : Env) (w : World) (id : Z) (update_data : gmap string Value) :
  (∀ a,
     where_eq "id" (VInt id) (activities (store w)) = [a] →
     store_rejects env (with_activity id (CRUDService.apply_update a update_data) (store w)) = None →
     ∃ a' w', CRUDService.update_activity id update_data env w = (Ok (Some a'), w')
       ∧ (∀ k v, update_data !! k = Some v → is_Some (a !! k) → a' !! k = Some v)
       ∧ (∀ k, update_data !! k = None → a' !! k = a !! k)
       ∧ (∀ k, a !! k = None → a' !! k = None)
       ∧ (∀ v, update_data = {[ "title" := v ]} → is_Some (a !! "title") →
               a' = <["title" := v]> a)
       ∧ (∀ i r, activities (store w) !! i = Some r →
                 activities (store w') !! i
                 = Some (if bool_decide (r !! "id" = Some (VInt id)) then a' else r))
       ∧ wings (store w') = wings (store w)
       ∧ photos (store w') = photos (store w))
  ∧ (where_eq "id" (VInt id) (activities (store w)) = [] →
     CRUDService.update_activity id update_data env w = (Ok None, w)).
Proof.
  split.
  - intros a Heq Hacc. rewrite (update_activity_accepted _ _ _ _ _ Heq Hacc).
    eexists _, _. split; [done|]. simpl. split_and!; try done.
    + intros k v Hk [old Hold]. by rewrite apply_update_lookup, Hold, Hk.
    + intros k Hk. rewrite apply_update_lookup, Hk. by destruct (a !! k).
    + intros k Hk. by rewrite apply_update_lookup, Hk.
    + intros v -> Ha. by apply apply_update_singleton.
    + intros i r Hi. unfold CRUDService.flush_activity.
      rewrite list_lookup_fmap, Hi. simpl. f_equal.
      destruct (sql_eq (r !! "id") (VInt id)) eqn:Hv.
      * apply sql_eq_int in Hv. by rewrite bool_decide_eq_true_2.
      * rewrite bool_decide_eq_false_2; [done|]. intros Hr%sql_eq_int. congruence.
  - apply update_activity_missing.
Qed.

(** Renaming the activity 7 of the demo world, with a field [colour] it
    does not have in the same mapping. *)
Lemma update_activity_applies_supplied_fields_witness :
  ∃ a' w',
    CRUDService.update_activity 7 {[ "title" := VStr "Demo day"; "colour" := VStr "red" ]}
      demo_env demo_world = (Ok (Some a'), w')
    ∧ a' !! "title" = Some (VStr "Demo day")
    ∧ a' !! "description" = demo_activity !! "description"
    ∧ a' !! "colour" = None.
Proof.
  destruct (update_activity_applies_supplied_fields demo_env demo_world 7
              {[ "title" := VStr "Demo day"; "colour" := VStr "red" ]}) as [H _].
  destruct (H demo_activity) as (a' & w' & Hrun & Hset & Hkeep & Hnew & _);
    [by_running | reflexivity |].
  exists a', w'. split_and!.
  - exact Hrun.
  - apply Hset; by_running.
  - apply Hkeep. by_running.
  - apply Hnew. by_running.
Defined.

(** ** Running a handler step by step *)

Section Rules.
Context {A B : Type} (env : Env) (w : World).

Lemma wp_run (m : M A) (r : Result A) (w' : World) (Q : Result A → World → Prop) :
  m env w = (r, w') → Q r w' → wp m env w Q.
Proof. unfold wp. by intros ->. Qed.

Lemma wp_elim (m : M A) (Q : Result A → World → Prop) :
  wp m env w Q → ∃ r w', m env w = (r, w') ∧ Q r w'.
Proof. unfold wp. destruct (m env w) as [r w']. eauto. Qed.

Lemma wp_bind (m : M A) (f : A → M B) (Q : Result B → World → Prop) :
  wp m env w (λ r w', match r with
                      | Ok a => wp (f a) env w' Q
                      | Raise e => Q (Raise e) w'
                      end) →
  wp (m ≫= f) env w Q.
Proof. unfold wp, mbind, M_bind. by destruct (m env w) as [[a|e] w']. Qed.

Lemma wp_try (body : M A) (handler : Exn → M A) (Q : Result A → World → Prop) :
  wp body env w (λ r w', match r with
                         | Ok a => Q (Ok a) w'
                         | Raise e => wp (handler e) env w' Q
                         end) →
  wp (try_except body handler) env w Q.
Proof. unfold wp, try_except. by destruct (body env w) as [[a|e] w']. Qed.

Lemma wp_ret (a : A) (Q : Result A → World → Prop) :
  Q (Ok a) w → wp (mret a) env w Q.
Proof. done. Qed.

Lemma wp_raise (e : Exn) (Q : Result A → World → Prop) :
  Q (Raise e) w → wp (raise e) env w Q.
Proof. done. Qed.

Lemma wp_lift (r : Result A) (Q : Result A → World → Prop) :
  Q r w → wp (lift r) env w Q.
Proof. done. Qed.

Lemma wp_mono (m : M A) (Q Q' : Result A → World → Prop) :
  (∀ r w', Q r w' → Q' r w') → wp m env w Q → wp m env w Q'.
Proof. unfold wp. auto. Qed.
End Rules.

Lemma wp_logger env w lvl msg (Q : Result unit → World → Prop) :
  Q (Ok tt) {| store := store w; media_calls := media_calls w;
               log := log w ++ [(lvl, msg)] |} →
  wp (logger lvl msg) env w Q.
Proof. done. Qed.

Lemma wp_get_store env w (Q : Result Store → World → Prop) :
  Q (Ok (store w)) w → wp get_store env w Q.
Proof. done. Qed.

Lemma wp_ask env w (Q : Result Env → World → Prop) :
  Q (Ok env) w → wp ask env w Q.
Proof. done. Qed.

Lemma wp_record_call env w c (Q : Result unit → World → Prop) :
  Q (Ok tt) {| store := store w; media_calls := media_calls w ++ [c]; log := log w |} →
  wp (record_call c) env w Q.
Proof. done. Qed.

Lemma wp_commit env w s (Q : Result unit → World → Prop) :
  match store_rejects env s with
  | Some text => Q (Raise (StoreError text)) w
  | None => Q (Ok tt) {| store := s; media_calls := media_calls w; log := log w |}
  end →
  wp (commit s) env w Q.
Proof. unfold wp, commit. by destruct (store_rejects env s). Qed.

Lemma wp_scalar_one_or_none {A} env w (rows : list A) (Q : Result (option A) → World → Prop) :
  match rows with
  | [] => Q (Ok None) w
  | [r] => Q (Ok (Some r)) w
  | _ => Q (Raise MultipleResultsFound) w
  end →
  wp (scalar_one_or_none rows) env w Q.
Proof. by destruct rows as [|? [|? ?]]. Qed.

(** One step of a handler: the rule of the construct at its head. *)
Ltac wp_step :=
  lazymatch goal with
  | |- wp (_ ≫= _) _ _ _ => apply wp_bind
  | |- wp (try_except _ _) _ _ _ => apply wp_try
  | |- wp (mret _) _ _ _ => apply wp_ret
  | |- wp (raise _) _ _ _ => apply wp_raise
  | |- wp (lift _) _ _ _ => apply wp_lift
  | |- wp (logger _ _) _ _ _ => apply wp_logger
  | |- wp get_store _ _ _ => apply wp_get_store
  | |- wp ask _ _ _ => apply wp_ask
  | |- wp (record_call _) _ _ _ => apply wp_record_call
  | |- wp (commit _) _ _ _ => apply wp_commit
  | |- wp (scalar_one_or_none _) _ _ _ => apply wp_scalar_one_or_none
  | |- wp rollback _ _ _ => apply wp_ret
  | |- wp (host_answer _) _ _ _ => unfold host_answer
  | |- wp (delete_media _ _) _ _ _ => unfold delete_media
  | |- wp (upload_pdf _ _) _ _ _ => unfold upload_pdf
  | |- wp (upload_images_bulk _ _) _ _ _ => unfold upload_images_bulk
  | |- wp (CRUDService.get_wing_by_id _) _ _ _ => unfold CRUDService.get_wing_by_id
  | |- wp (CRUDService.get_wing_by_slug _) _ _ _ => unfold CRUDService.get_wing_by_slug
  | |- wp (CRUDService.get_activity_by_id _) _ _ _ => unfold CRUDService.get_activity_by_id
  | |- wp (CRUDService.get_photo_by_id _) _ _ _ => unfold CRUDService.get_photo_by_id
  end; cbv beta iota; cbn [store media_calls log].

Ltac wp_steps := repeat wp_step.

(** ** Updating an activity through the admin route *)

(** The best-effort deletion of the old report never fails the request
    and never touches the store. *)
Lemma cleanup_old_report env w old_id :
  wp (if truthy old_id then
        try_except (delete_media old_id "raw")
          (λ e, logger WARNING ("Failed to delete old PDF: " +:+ str_exn e))
      else mret tt)
     env w (λ r w', r = Ok tt ∧ store w' = store w).
Proof.
  destruct (truthy old_id); wp_steps; [|done].
  destruct (host_delete env old_id "raw"); wp_steps; done.
Qed.

(** C4.  An activity exists, a PDF with a valid name is supplied and the
    media host refuses it under every folder: whatever other fields the
    request supplies, it ends in [ExternalServiceError] and the store is what
    it was, so the activity read back afterwards is the activity as it was,
    [report_url] and [report_cloudinary_id] included. *)
Theorem failed_report_upload_changes_no_field
    (env : Env) (w : World) (id : Z) (title description : option string)
    (activity_date : option date) (faculty_coordinator : option string)
    (file : UploadFile) (current_admin : gmap string Value) (a : Obj) (old_id : Value) :
  where_eq "id" (VInt id) (activities (store w)) = [a] →
  a !! "report_cloudinary_id" = Some old_id →
  str_truthy (filename file) = true →
  admin.validate_pdf_file file = Ok tt →
  (∀ folder, ∃ text, host_upload_pdf env file folder = inl text) →
  ∃ w',
    admin.update_activity id title description activity_date faculty_coordinator
      (Some file) current_admin env w
    = (Raise (Anvaya (ExternalServiceError "Cloudinary" "Failed to upload PDF report")), w')
    ∧ store w' = store w
    ∧ CRUDService.get_activity_by_id id env w' = (Ok (Some a), w').
Proof.
  intros Heq Hold Hname Hpdf Hhost.
  cut (wp (admin.update_activity id title description activity_date faculty_coordinator
             (Some file) current_admin) env w
          (λ r w', r = Raise (Anvaya (ExternalServiceError "Cloudinary"
                                        "Failed to upload PDF report"))
                   ∧ store w' = store w)).
  { intros (r & w' & Hrun & -> & Hst)%wp_elim. exists w'. split_and!; [done..|].
    apply get_activity_by_id_found. by rewrite Hst. }
  unfold admin.update_activity. wp_steps. rewrite Heq, Hname.
  set (update_data := match faculty_coordinator with Some _ => _ | None => _ end).
  clearbody update_data.
  wp_steps. rewrite Hpdf. wp_steps. unfold getattr at 1. rewrite Hold. wp_steps.
  eapply wp_mono; [|apply cleanup_old_report]. intros r w1 [-> Hw1]. cbv beta iota.
  wp_steps. unfold getattr at 1. destruct (a !! "wing_id") as [wid|]; wp_steps; [|done].
  destruct (where_eq "id" wid (wings (store w1))) as [|wing [|? ?]]; wp_steps; [| |done].
  - simpl. destruct (Hhost "anvaya/reports") as [text ->]. by wp_steps.
  - unfold getattr at 1. destruct (wing !! "slug") as [slug|]; wp_steps; [|done].
    simpl. destruct (Hhost ("anvaya/" +:+ str slug +:+ "/reports")) as [text ->].
    by wp_steps.
Qed.

(** With the media host down, a request that renames the activity 7 of the
    demo world and replaces its report fails and leaves the store alone. *)
Lemma failed_report_upload_changes_no_field_witness :
  ∃ w',
    admin.update_activity 7 (Some "Demo day") None None None
      (Some {| filename := Some "report.pdf"; content := "%PDF" |}) demo_admin
      offline_env demo_world
    = (Raise (Anvaya (ExternalServiceError "Cloudinary" "Failed to upload PDF report")), w')
    ∧ store w' = demo_store
    ∧ CRUDService.get_activity_by_id 7 offline_env w' = (Ok (Some demo_activity), w').
Proof.
  apply (failed_report_upload_changes_no_field offline_env demo_world 7 (Some "Demo day")
           None None None {| filename := Some "report.pdf"; content := "%PDF" |} demo_admin
           demo_activity (VStr "anvaya/codezero/reports/r7")).
  - by_running.
  - by_running.
  - reflexivity.
  - by vm_compute.
  - intros folder. by exists "connection timed out".
Defined.

(** [update_activity] of the data-access layer when the store refuses the
    update. *)
Lemma update_activity_refused env w id update_data a text :
  where_eq "id" (VInt id) (activities (store w)) = [a] →
  store_rejects env (with_activity id (CRUDService.apply_update a update_data) (store w))
  = Some text →
  CRUDService.update_activity id update_data env w
  = (Raise (StoreError text),
     logged w (ERROR, "Failed to update activity " +:+ pretty id +:+ ": " +:+ text)).
Proof.
  intros Heq Hrej. unfold CRUDService.update_activity.
  unfold mbind at 1. unfold M_bind at 1. rewrite (get_activity_by_id_found _ _ _ _ Heq).
  unfold try_except, mbind, M_bind, get_store, commit.
  fold (with_activity id (CRUDService.apply_update a update_data) (store w)).
  by rewrite Hrej.
Qed.

(** C10.  An activity exists and the request supplies no field and no
    report file (none, or one without a name): the handler is the
    data-access [update_activity] on the empty mapping, followed by the
    handler's log line.  That update commits: the store is asked to take a
    transaction whose content is the store as it stands, and its answer
    decides the request.  When the store takes it, the request answers with
    the activity as it was, store and media host are untouched and the log
    holds the two lines of an update.  When the store refuses it, the
    request ends in the store's error after the [ERROR] line of the update
    that was rolled back, and never reaches its own log line. *)
Theorem update_without_fields_is_a_noop
    (env : Env) (w : World) (id : Z) (report_file : option UploadFile)
    (current_admin : gmap string Value) (a : Obj) :
  where_eq "id" (VInt id) (activities (store w)) = [a] →
  supplied report_file = false →
  admin.update_activity id None None None None report_file current_admin env w
  = (CRUDService.update_activity id ∅ ≫= λ updated_activity,
       logger INFO ("Updated activity " +:+ pretty id +:+ " by "
                    +:+ str_opt (current_admin !! "sub")) ;;
       mret updated_activity) env w
  ∧ (store_rejects env (store w) = None →
     ∃ w',
       admin.update_activity id None None None None report_file current_admin env w
       = (Ok (Some a), w')
       ∧ store w' = store w
       ∧ media_calls w' = media_calls w
       ∧ log w' = (log w ++ [(DEBUG, "Updated activity: " +:+ pretty id);
                             (INFO, "Updated activity " +:+ pretty id +:+ " by "
                                    +:+ str_opt (current_admin !! "sub"))])%list)
  ∧ (∀ text, store_rejects env (store w) = Some text →
       admin.update_activity id None None None None report_file current_admin env w
       = (Raise (StoreError text),
          logged w (ERROR, "Failed to update activity " +:+ pretty id +:+ ": " +:+ text))).
Proof.
  intros Heq Hsup.
  assert (admin.update_activity id None None None None report_file current_admin env w
          = (CRUDService.update_activity id ∅ ≫= λ updated_activity,
               logger INFO ("Updated activity " +:+ pretty id +:+ " by "
                            +:+ str_opt (current_admin !! "sub")) ;;
               mret updated_activity) env w) as Hcall.
  { unfold admin.update_activity. unfold mbind at 1. unfold M_bind at 1.
    rewrite (get_activity_by_id_found _ _ _ _ Heq).
    destruct report_file as [file|]; simpl in Hsup; [rewrite Hsup|]; done. }
  split; [done|]. split.
  - intros Hacc. rewrite Hcall. unfold mbind at 1. unfold M_bind at 1.
    rewrite (update_activity_accepted _ _ _ _ a Heq);
      rewrite apply_update_empty, with_activity_same by done; [|done].
    eexists. split; [reflexivity|]. simpl. by rewrite <- app_assoc.
  - intros text Hrej. rewrite Hcall. unfold mbind at 1. unfold M_bind at 1.
    rewrite (update_activity_refused _ _ _ _ a text Heq); [done|].
    by rewrite apply_update_empty, with_activity_same.
Qed.

(** An empty update of the activity 7 of the demo world, against a store
    that takes it and against one that is locked. *)
Lemma update_without_fields_is_a_noop_witness :
  (∃ w',
     admin.update_activity 7 None None None None None demo_admin demo_env demo_world
     = (Ok (Some demo_activity), w')
     ∧ store w' = demo_store)
  ∧ ∃ w',
      admin.update_activity 7 None None None None None demo_admin locked_env demo_world
      = (Raise (StoreError "database is locked"), w')
      ∧ store w' = demo_store.
Proof.
  split.
  - destruct (update_without_fields_is_a_noop demo_env demo_world 7 None demo_admin
                demo_activity) as (_ & Htaken & _); [by_running | reflexivity |].
    destruct Htaken as (w' & Hrun & Hst & _); [reflexivity|].
    exists w'. split; [exact Hrun|exact Hst].
  - destruct (update_without_fields_is_a_noop locked_env demo_world 7 None demo_admin
                demo_activity) as (_ & _ & Hrefused); [by_running | reflexivity |].
    eexists. split; [apply Hrefused; reflexivity|reflexivity].
Defined.

(** ** Deleting a photo through the admin route *)

Lemma get_photo_by_id_found env w id photo :
  where_eq "id" (VInt id) (photos (store w)) = [photo] →
  CRUDService.get_photo_by_id id env w = (Ok (Some photo), w).
Proof.
  intros Heq. unfold CRUDService.get_photo_by_id, mbind, M_bind, get_store.
  by rewrite Heq.
Qed.

(** C6.  A photo exists and the store takes the deletion: whatever the
    media host answers, the request succeeds and leaves the store without
    the row; when the host refuses, the refusal is a [WARNING] in the log
    and nothing else.  For an identity that names no photo the request ends
    in [NotFoundError] and the world is untouched: no call to the media
    host, no deletion. *)
Theorem delete_photo_swallows_host_failure
    (env : Env) (w : World) (id : Z) (current_admin : gmap string Value) :
  (∀ photo,
     where_eq "id" (VInt id) (photos (store w)) = [photo] →
     store_rejects env (without_photo id (store w)) = None →
     ∃ w', admin.delete_photo id current_admin env w
           = (Ok {[ "message" := "Photo deleted successfully" ]}, w')
       ∧ store w' = without_photo id (store w)
       ∧ ¬ has_id id (photos (store w'))
       ∧ (∀ cloudinary_id text,
            photo !! "cloudinary_id" = Some cloudinary_id →
            host_delete env cloudinary_id "image" = Some text →
            media_calls w' = (media_calls w ++ [DeleteMedia cloudinary_id "image"])%list
            ∧ (WARNING, "Failed to delete photo from Cloudinary: " +:+ text) ∈ log w'))
  ∧ (where_eq "id" (VInt id) (photos (store w)) = [] →
     admin.delete_photo id current_admin env w
     = (Raise (Anvaya (NotFoundError "Photo" (Some (pretty id)) [])), w)).
Proof.
  split.
  - intros photo Heq Hacc.
    cut (wp (admin.delete_photo id current_admin) env w
           (λ r w', r = Ok {[ "message" := "Photo deleted successfully" ]}
                    ∧ store w' = without_photo id (store w)
                    ∧ (∀ cloudinary_id text,
                         photo !! "cloudinary_id" = Some cloudinary_id →
                         host_delete env cloudinary_id "image" = Some text →
                         media_calls w'
                         = (media_calls w ++ [DeleteMedia cloudinary_id "image"])%list
                         ∧ (WARNING, "Failed to delete photo from Cloudinary: " +:+ text)
                           ∈ log w'))).
    { intros (r & w' & Hrun & -> & Hst & Hhost)%wp_elim. exists w'.
      split_and!; [done..| |done]. rewrite Hst. apply has_id_where_ne. }
    unfold admin.delete_photo. wp_steps. rewrite Heq. wp_steps.
    assert (∀ w1 : World,
              store w1 = store w →
              wp (CRUDService.delete_photo id) env w1
                 (λ r w', ∃ b, r = Ok b ∧ store w' = without_photo id (store w)
                               ∧ media_calls w' = media_calls w1
                               ∧ ∀ entry, entry ∈ log w1 → entry ∈ log w')) as Hdel.
    { intros w1 Hw1. eapply wp_run.
      - apply delete_photo_accepted. by rewrite Hw1.
      - eexists. split_and!; [done|by rewrite Hw1|done|].
        intros entry Hin. simpl. apply elem_of_app. by left. }
    unfold getattr at 1. destruct (photo !! "cloudinary_id") as [cid|] eqn:Hcid; wp_steps.
    + destruct (host_delete env cid "image") as [text|] eqn:Hdown; wp_steps.
      * eapply wp_mono; [|by apply Hdel].
        intros r w' (b & -> & Hst & Hcalls & Hlog). wp_steps.
        split_and!; [done..|]. intros ? ? [= <-] Htext. rewrite Hdown in Htext.
        injection Htext as <-. split; [done|]. apply Hlog. simpl.
        apply elem_of_app. right. left.
      * eapply wp_mono; [|by apply Hdel].
        intros r w' (b & -> & Hst & Hcalls & Hlog). wp_steps.
        split_and!; [done..|]. intros ? ? [= <-] Htext. congruence.
    + eapply wp_mono; [|by apply Hdel].
      intros r w' (b & -> & Hst & Hcalls & Hlog). wp_steps. by split_and!.
  - intros Heq. unfold admin.delete_photo, CRUDService.get_photo_by_id, mbind, M_bind, get_store.
    by rewrite Heq.
Qed.

(** The photo 3 of the demo world is deleted although the media host is
    down; the photo 99 is not found. *)
Lemma delete_photo_swallows_host_failure_witness :
  (∃ w', admin.delete_photo 3 demo_admin offline_env demo_world
         = (Ok {[ "message" := "Photo deleted successfully" ]}, w')
     ∧ photos (store w') = []
     ∧ (WARNING, "Failed to delete photo from Cloudinary: connection timed out") ∈ log w')
  ∧ admin.delete_photo 99 demo_admin offline_env demo_world
    = (Raise (Anvaya (NotFoundError "Photo" (Some "99") [])), demo_world).
Proof.
  destruct (delete_photo_swallows_host_failure offline_env demo_world 3 demo_admin)
    as [Hfound _].
  destruct (delete_photo_swallows_host_failure offline_env demo_world 99 demo_admin)
    as [_ Hmissing].
  split.
  - destruct (Hfound demo_photo) as (w' & Hrun & Hst & _ & Hhost);
      [by_running | reflexivity |].
    exists w'. split_and!; [done| |].
    + rewrite Hst. by_running.
    + by apply (Hhost (VStr "anvaya/codezero/p3") "connection timed out").
  - apply Hmissing. by_running.
Defined.

(** ** Bulk upload of photos *)

Lemma validate_batch env w files :
  for_each files (λ file, lift (admin.validate_image_file file)) env w
  = (match first_rejection files with Some e => Raise e | None => Ok tt end, w).
Proof.
  induction files as [|file files IH]; [done|]. simpl.
  unfold mbind, M_bind, lift at 1.
  destruct (admin.validate_image_file file) as [[]|e]; [|done]. by rewrite IH.
Qed.

Lemma first_rejection_kind files e :
  first_rejection files = Some e →
  is_FileUploadError e = true ∨ is_ValidationError e = true.
Proof.
  induction files as [|file files IH]; [done|]. simpl.
  rewrite validate_image_file_unfold.
  repeat case_match; naive_solver.
Qed.

Lemma first_rejection_named files e :
  Forall (λ file, str_truthy (filename file) = true) files →
  first_rejection files = Some e →
  is_FileUploadError e = true.
Proof.
  induction 1 as [|file files Hfile Hfiles IH]; [done|]. simpl.
  rewrite validate_image_file_unfold. unfold str_truthy in Hfile.
  repeat case_match; naive_solver.
Qed.

Lemma first_rejection_none files :
  first_rejection files = None ↔ Forall (λ file, admin.validate_image_file file = Ok tt) files.
Proof.
  induction files as [|file files IH]; simpl; [by split|].
  rewrite Forall_cons. destruct (admin.validate_image_file file) as [[]|e]; naive_solver.
Qed.

Lemma first_rejection_some files file :
  file ∈ files → admin.validate_image_file file ≠ Ok tt → is_Some (first_rejection files).
Proof.
  intros Hin Hbad. destruct (first_rejection files) eqn:Hnone; [done|].
  apply first_rejection_none in Hnone. rewrite Forall_forall in Hnone. naive_solver.
Qed.

Lemma photo_rows_length s wing_id assets :
  length (photo_rows s wing_id assets) = length assets.
Proof. unfold photo_rows. by rewrite length_imap, length_map. Qed.

Lemma photo_rows_lookup s wing_id assets i asset :
  assets !! i = Some asset →
  ∃ row, photo_rows s wing_id assets !! i = Some row
    ∧ row !! "id" = Some (VInt (photo_seq s + Z.of_nat i))
    ∧ row !! "wing_id" = Some (VInt wing_id)
    ∧ row !! "url" = Some (VStr (url asset))
    ∧ row !! "cloudinary_id" = Some (VStr (public_id asset))
    ∧ row !! "uploaded_at" = Some (now s).
Proof.
  intros Hi. unfold photo_rows. rewrite list_lookup_imap, list_lookup_fmap, Hi. simpl.
  eexists. split; [done|]. split_and!; by vm_compute.
Qed.

Lemma create_photos_bulk_accepted env w photos :
  store_rejects env (with_photos (store w) (imap (inserted_photo (store w)) photos)) = None →
  CRUDService.create_photos_bulk photos env w =
    (Ok (imap (inserted_photo (store w)) photos),
     {| store := with_photos (store w) (imap (inserted_photo (store w)) photos);
        media_calls := media_calls w;
        log := log w ++ [(DEBUG, "Created "
                                 +:+ pretty (Z.of_nat (length (imap (inserted_photo (store w)) photos)))
                                 +:+ " photos in bulk")] |}).
Proof.
  intros Hacc. unfold CRUDService.create_photos_bulk, try_except, mbind, M_bind, get_store, commit.
  fold (with_photos (store w) (imap (inserted_photo (store w)) photos)). by rewrite Hacc.
Qed.

(** C3, as amended.  The wing exists.  If a file of the batch does not
    validate, the request ends in the error of the first such file, a
    [FileUploadError] or, for a file without a name, a [ValidationError],
    and the world is untouched: no call to the media host, no row; when
    every file has a name that error is a [FileUploadError].  If every file
    validates and the host refuses the batch, the request ends in
    [ExternalServiceError] after that one call and the store is what it was.
    If the host takes the batch and the store the insert, the answer holds
    one row per asset, in order, carrying the asset's URL and identifier and
    the wing, appended to the photos in one transaction; the one call to the
    host names the folder [anvaya/<slug>]. *)
Theorem upload_photos_is_all_or_nothing
    (env : Env) (w : World) (wing_id : Z) (files : list UploadFile)
    (current_admin : gmap string Value) (wing : Obj) (slug : Value) :
  where_eq "id" (VInt wing_id) (wings (store w)) = [wing] →
  wing !! "slug" = Some slug →
  (∀ file, file ∈ files → admin.validate_image_file file ≠ Ok tt →
     ∃ e, admin.upload_photos wing_id files current_admin env w = (Raise e, w)
       ∧ first_rejection files = Some e
       ∧ (is_FileUploadError e = true ∨ is_ValidationError e = true)
       ∧ (Forall (λ file, str_truthy (filename file) = true) files →
          is_FileUploadError e = true))
  ∧ (Forall (λ file, admin.validate_image_file file = Ok tt) files →
     ∀ text,
       host_upload_images env files ("anvaya/" +:+ str slug) = inl text →
       ∃ w', admin.upload_photos wing_id files current_admin env w
             = (Raise (Anvaya (ExternalServiceError "Cloudinary" "Failed to upload images")), w')
         ∧ store w' = store w
         ∧ media_calls w'
           = (media_calls w ++ [UploadImagesBulk files ("anvaya/" +:+ str slug)])%list)
  ∧ (Forall (λ file, admin.validate_image_file file = Ok tt) files →
     ∀ assets,
       host_upload_images env files ("anvaya/" +:+ str slug) = inr assets →
       store_rejects env (with_photos (store w) (photo_rows (store w) wing_id assets)) = None →
       ∃ rows w', admin.upload_photos wing_id files current_admin env w = (Ok rows, w')
         ∧ length rows = length assets
         ∧ (∀ i asset, assets !! i = Some asset →
              ∃ row, rows !! i = Some row
                ∧ row !! "id" = Some (VInt (photo_seq (store w) + Z.of_nat i))
                ∧ row !! "wing_id" = Some (VInt wing_id)
                ∧ row !! "url" = Some (VStr (url asset))
                ∧ row !! "cloudinary_id" = Some (VStr (public_id asset)))
         ∧ photos (store w') = (photos (store w) ++ rows)%list
         ∧ activities (store w') = activities (store w)
         ∧ wings (store w') = wings (store w)
         ∧ media_calls w'
           = (media_calls w ++ [UploadImagesBulk files ("anvaya/" +:+ str slug)])%list).
Proof.
  intros Heq Hslug. split_and!.
  - intros file Hin Hbad.
    destruct (first_rejection_some _ _ Hin Hbad) as [e He]. exists e.
    split_and!; [|done|by eapply first_rejection_kind|by intros; eapply first_rejection_named].
    unfold admin.upload_photos, CRUDService.get_wing_by_id.
    unfold mbind at 1. unfold M_bind at 1. unfold mbind at 1. unfold M_bind at 1.
    unfold get_store at 1. rewrite Heq. cbn [scalar_one_or_none mret M_ret].
    unfold mbind at 1. unfold M_bind at 1. by rewrite validate_batch, He.
  - intros Hvalid%first_rejection_none text Hhost.
    cut (wp (admin.upload_photos wing_id files current_admin) env w
           (λ r w', r = Raise (Anvaya (ExternalServiceError "Cloudinary"
                                         "Failed to upload images"))
                    ∧ store w' = store w
                    ∧ media_calls w'
                      = (media_calls w ++ [UploadImagesBulk files ("anvaya/" +:+ str slug)])%list)).
    { intros (r & w' & Hrun & -> & Hst)%wp_elim. by exists w'. }
    unfold admin.upload_photos. wp_steps. rewrite Heq. wp_steps.
    eapply wp_run; [apply validate_batch|]. rewrite Hvalid. wp_steps.
    unfold getattr. rewrite Hslug. wp_steps. rewrite Hhost. by wp_steps.
  - intros Hvalid%first_rejection_none assets Hhost Hacc.
    cut (wp (admin.upload_photos wing_id files current_admin) env w
           (λ r w', r = Ok (photo_rows (store w) wing_id assets)
                    ∧ store w' = with_photos (store w) (photo_rows (store w) wing_id assets)
                    ∧ media_calls w'
                      = (media_calls w ++ [UploadImagesBulk files ("anvaya/" +:+ str slug)])%list)).
    { intros (r & w' & Hrun & -> & Hst & Hcalls)%wp_elim.
      exists (photo_rows (store w) wing_id assets), w'.
      split_and!; [done|apply photo_rows_length| |by rewrite Hst..|done].
      intros i asset Hi.
      destruct (photo_rows_lookup (store w) wing_id _ _ _ Hi) as (row & ? & ? & ? & ? & ? & _).
      by exists row. }
    unfold admin.upload_photos. wp_steps. rewrite Heq. wp_steps.
    eapply wp_run; [apply validate_batch|]. rewrite Hvalid. wp_steps.
    unfold getattr. rewrite Hslug. wp_steps. rewrite Hhost. wp_steps.
    eapply wp_run; [by apply create_photos_bulk_accepted|]. by wp_steps.
Qed.

(** The bulk insert is one transaction: when the store refuses it, the
    request ends in the store's error and no row at all is created. *)
Lemma upload_photos_refused_insert
    (env : Env) (w : World) (wing_id : Z) (files : list UploadFile)
    (current_admin : gmap string Value) (wing : Obj) (slug : Value)
    (assets : list UploadResult) (text : string) :
  where_eq "id" (VInt wing_id) (wings (store w)) = [wing] →
  wing !! "slug" = Some slug →
  Forall (λ file, admin.validate_image_file file = Ok tt) files →
  host_upload_images env files ("anvaya/" +:+ str slug) = inr assets →
  store_rejects env (with_photos (store w) (photo_rows (store w) wing_id assets)) = Some text →
  ∃ w', admin.upload_photos wing_id files current_admin env w = (Raise (StoreError text), w')
    ∧ store w' = store w.
Proof.
  intros Heq Hslug Hvalid%first_rejection_none Hhost Hrej.
  cut (wp (admin.upload_photos wing_id files current_admin) env w
         (λ r w', r = Raise (StoreError text) ∧ store w' = store w)).
  { intros (r & w' & Hrun & -> & Hst)%wp_elim. by exists w'. }
  unfold admin.upload_photos. wp_steps. rewrite Heq. wp_steps.
  eapply wp_run; [apply validate_batch|]. rewrite Hvalid. wp_steps.
  unfold getattr. rewrite Hslug. wp_steps. rewrite Hhost. wp_steps.
  unfold CRUDService.create_photos_bulk. wp_steps.
  fold (photo_rows (store w) wing_id assets).
  fold (with_photos (store w) (photo_rows (store w) wing_id assets)).
  rewrite Hrej. by wp_steps.
Qed.

(** C3 as stated fails on [mixed_batch]: its second file has an extension
    that is not allowed, and the request ends in the [ValidationError] of its
    first file, not in a [FileUploadError]. *)
Lemma upload_photos_refusal_counterexample :
  ¬ ((∃ file, file ∈ mixed_batch ∧ extension file ∉ admin.ALLOWED_IMAGE_EXTENSIONS) →
     ∃ message name w',
       admin.upload_photos 1 mixed_batch demo_admin demo_env demo_world
       = (Raise (Anvaya (FileUploadError message name)), w')).
Proof.
  intros H. destruct H as (message & name & w' & Hrun).
  - exists {| filename := Some "notes.exe"; content := "MZ" |}. split.
    + right. left.
    + by_running.
  - apply (f_equal fst) in Hrun. vm_compute in Hrun. discriminate.
Qed.

(** The three cases on the demo world: [mixed_batch]; two images with the
    media host down; the same two images with the host up. *)
Lemma upload_photos_is_all_or_nothing_witness :
  (∃ e, admin.upload_photos 1 mixed_batch demo_admin demo_env demo_world = (Raise e, demo_world)
        ∧ first_rejection mixed_batch = Some e)
  ∧ (∃ w', admin.upload_photos 1 image_batch demo_admin offline_env demo_world
           = (Raise (Anvaya (ExternalServiceError "Cloudinary" "Failed to upload images")), w')
       ∧ store w' = demo_store)
  ∧ (∃ rows w', admin.upload_photos 1 image_batch demo_admin demo_env demo_world = (Ok rows, w')
       ∧ length rows = 2%nat
       ∧ photos (store w') = demo_photo :: rows).
Proof.
  split_and!.
  - destruct (upload_photos_is_all_or_nothing demo_env demo_world 1 mixed_batch demo_admin
                demo_wing (VStr "codezero")) as (H & _); [by_running | by_running |].
    destruct (H {| filename := None; content := "" |}) as (e & Hrun & He & _);
      [left | by vm_compute |].
    by exists e.
  - destruct (upload_photos_is_all_or_nothing offline_env demo_world 1 image_batch demo_admin
                demo_wing (VStr "codezero")) as (_ & H & _); [by_running | by_running |].
    destruct (H ltac:(repeat constructor) "connection timed out" eq_refl) as (w' & Hrun & Hst & _).
    by exists w'.
  - destruct (upload_photos_is_all_or_nothing demo_env demo_world 1 image_batch demo_admin
                demo_wing (VStr "codezero")) as (_ & _ & H); [by_running | by_running |].
    destruct (H ltac:(repeat constructor) _ eq_refl eq_refl)
      as (rows & w' & Hrun & Hlen & _ & Hphotos & _).
    by exists rows, w'.
Defined.

(** ** Pagination of the photo listing *)

#[local] Open Scope Z_scope.

(** The handler itself never answers with a rejected parameter. *)
Lemma get_wing_photos_never_rejects env w slug limit offset :
  wp (get_wing_photos slug limit offset) env w
     (λ r _, ∀ params, r ≠ Raise (RequestValidationError params)).
Proof.
  unfold get_wing_photos. wp_steps.
  destruct (where_eq "slug" (VStr slug) (wings (store w))) as [|wing [|? ?]];
    wp_steps; [done| |done].
  unfold getattr. destruct (wing !! "id") as [wing_id|]; wp_steps; [|done].
  unfold CRUDService.get_photos_by_wing. by wp_steps.
Qed.

(** C5.  A request to the photo listing whose [limit] lies outside
    [1, 500] or whose [offset] is negative is answered by a validation error
    (status 422) naming the parameter, with the world untouched; that answer
    is not the handler's on any pair of values, clamped or other: the
    handler is not run.  A request whose parameters are absent or within
    bounds runs the handler on the values as given, [limit] standing at 100
    and [offset] at 0 when absent. *)
Theorem photo_listing_rejects_out_of_range
    (env : Env) (w : World) (slug : string) (limit offset : option Z) :
  ((∃ l, limit = Some l ∧ (l < 1 ∨ 500 < l)) ∨ (∃ o, offset = Some o ∧ o < 0) →
   ∃ params,
     get_wing_photos_route slug limit offset env w = (Raise (RequestValidationError params), w)
     ∧ response_status (RequestValidationError params) = 422
     ∧ (∀ l, limit = Some l → (l < 1 ∨ 500 < l) → "limit" ∈ params)
     ∧ (∀ o, offset = Some o → o < 0 → "offset" ∈ params)
     ∧ (∀ l o, get_wing_photos_route slug limit offset env w
               ≠ get_wing_photos slug l o env w))
  ∧ ((∀ l, limit = Some l → 1 ≤ l ≤ 500) → (∀ o, offset = Some o → 0 ≤ o) →
     get_wing_photos_route slug limit offset
     = get_wing_photos slug (default 100 limit) (default 0 offset)).
Proof.
  split.
  - intros Hout.
    assert (∃ params,
              get_wing_photos_route slug limit offset env w
              = (Raise (RequestValidationError params), w)
              ∧ (∀ l, limit = Some l → (l < 1 ∨ 500 < l) → "limit" ∈ params)
              ∧ (∀ o, offset = Some o → o < 0 → "offset" ∈ params))
      as (params & Hrun & Hlimit & Hoffset).
    { unfold get_wing_photos_route, violations, in_bounds, resolve. simpl.
      destruct limit as [l|], offset as [o|]; simpl;
        repeat match goal with
        | |- context [Z.leb ?a ?b] => destruct (Z.leb_spec a b); simpl
        end;
        try (exfalso; destruct Hout as [(? & [= <-] & ?)|(? & [= <-] & ?)]; lia);
        eexists; (split_and!; [reflexivity | |]);
        intros ? [= <-] ?; try lia; set_solver. }
    exists params. split_and!; [done..|].
    intros l o Heq. rewrite Hrun in Heq.
    destruct (wp_elim _ _ _ _ (get_wing_photos_never_rejects env w slug l o))
      as (r & w' & Hbody & Hnever).
    rewrite Hbody in Heq. injection Heq as <- _. by eapply Hnever.
  - unfold get_wing_photos_route, violations, in_bounds, resolve. simpl.
    intros Hl Ho.
    destruct limit as [l|], offset as [o|]; simpl; try done.
    + specialize (Hl l eq_refl). specialize (Ho o eq_refl).
      destruct (Z.leb_spec 1 l), (Z.leb_spec l 500), (Z.leb_spec 0 o); simpl; (done || lia).
    + specialize (Hl l eq_refl).
      destruct (Z.leb_spec 1 l), (Z.leb_spec l 500); simpl; (done || lia).
    + specialize (Ho o eq_refl). destruct (Z.leb_spec 0 o); simpl; (done || lia).
Qed.

(** [limit=0] and [limit=501] are refused, an absent pair reads 100 and 0,
    and [limit=500] is taken as it is. *)
Lemma photo_listing_rejects_out_of_range_witness :
  (∃ params, get_wing_photos_route "codezero" (Some 0) None demo_env demo_world
             = (Raise (RequestValidationError params), demo_world))
  ∧ (∃ params, get_wing_photos_route "codezero" (Some 501) (Some 0) demo_env demo_world
               = (Raise (RequestValidationError params), demo_world))
  ∧ get_wing_photos_route "codezero" None None = get_wing_photos "codezero" 100 0
  ∧ get_wing_photos_route "codezero" (Some 500) (Some 20) = get_wing_photos "codezero" 500 20.
Proof.
  split_and!.
  - destruct (photo_listing_rejects_out_of_range demo_env demo_world "codezero" (Some 0) None)
      as [H _].
    destruct H as (params & Hrun & _); [left; exists 0; split; [done|lia]|]. by exists params.
  - destruct (photo_listing_rejects_out_of_range demo_env demo_world "codezero" (Some 501)
                (Some 0)) as [H _].
    destruct H as (params & Hrun & _); [left; exists 501; split; [done|lia]|]. by exists params.
  - apply (photo_listing_rejects_out_of_range demo_env demo_world "codezero" None None);
      intros ? [=].
  - apply (photo_listing_rejects_out_of_range demo_env demo_world "codezero" (Some 500)
             (Some 20)); intros ? [= <-]; lia.
Defined.

(** ** Sorting, greatest first *)

Section Sorting.
Context {A : Type} (key : A → Z).

Lemma insert_desc_perm (x : A) (l : list A) : insert_desc key x l ≡ₚ x :: l.
Proof.
  induction l as [|y l IH]; simpl; [done|].
  destruct (Z.leb (key y) (key x)); [done|]. rewrite IH. apply perm_swap.
Qed.

Lemma sort_desc_perm (l : list A) : sort_desc key l ≡ₚ l.
Proof.
  induction l as [|x l IH]; simpl; [done|]. by rewrite insert_desc_perm, IH.
Qed.

Lemma insert_desc_sorted (x : A) (l : list A) :
  StronglySorted (λ a b, key b ≤ key a) l →
  StronglySorted (λ a b, key b ≤ key a) (insert_desc key x l).
Proof.
  induction 1 as [|y l Hl IH Hy]; simpl.
  - repeat constructor.
  - destruct (Z.leb_spec (key y) (key x)) as [Hle|Hlt].
    + constructor; [by constructor|]. constructor; [done|].
      eapply Forall_impl; [exact Hy|]. simpl. lia.
    + constructor; [done|]. rewrite insert_desc_perm. constructor; [lia|done].
Qed.

Lemma sort_desc_sorted (l : list A) :
  StronglySorted (λ a b, key b ≤ key a) (sort_desc key l).
Proof.
  induction l as [|x l IH]; simpl; [constructor|]. by apply insert_desc_sorted.
Qed.

Lemma elem_of_sort_desc (x : A) (l : list A) : x ∈ sort_desc key l ↔ x ∈ l.
Proof. by rewrite sort_desc_perm. Qed.
End Sorting.

(** A list of distinct integers sorted greatest first is strictly
    decreasing. *)
Lemma sorted_distinct_decreasing (l : list Z) :
  NoDup l → StronglySorted (λ a b, b ≤ a) l → StronglySorted (λ a b, b < a) l.
Proof.
  induction 2 as [|x l Hl IH Hx]; [constructor|].
  apply NoDup_cons in H as [Hnotin Hnd]. constructor; [by apply IH|].
  rewrite Forall_forall in Hx |- *. intros y Hy. specialize (Hx y Hy).
  assert (y ≠ x) by (intros ->; done). lia.
Qed.

(** ** Counting activities by wing *)

Lemma assoc_app k (l1 l2 : list (Value * WingStat)) :
  assoc k (l1 ++ l2) = match assoc k l1 with Some e => Some e | None => assoc k l2 end.
Proof.
  induction l1 as [|[k' e] l1 IH]; simpl; [done|]. by destruct (decide (k' = k)).
Qed.

Lemma assoc_None k (ws : list (Value * WingStat)) : assoc k ws = None ↔ k ∉ ws.*1.
Proof.
  induction ws as [|[k' e] ws IH]; simpl.
  - split; [intros _; apply not_elem_of_nil|done].
  - rewrite not_elem_of_cons. destruct (decide (k' = k)); naive_solver.
Qed.

Lemma elem_of_assoc k e (ws : list (Value * WingStat)) :
  NoDup ws.*1 → (k, e) ∈ ws ↔ assoc k ws = Some e.
Proof.
  induction ws as [|[k' e'] ws IH]; simpl.
  - intros _. split; [by intros ?%elem_of_nil|done].
  - intros [Hk' Hnd]%NoDup_cons. rewrite elem_of_cons, IH by done.
    destruct (decide (k' = k)) as [->|Hne]; [|naive_solver].
    apply assoc_None in Hk'. rewrite Hk'. naive_solver.
Qed.

Lemma assoc_alter (f : WingStat → WingStat) k k' (ws : list (Value * WingStat)) :
  assoc k' (map (λ kv, if bool_decide (kv.1 = k) then (kv.1, f kv.2) else kv) ws)
  = if decide (k' = k) then f <$> assoc k ws else assoc k' ws.
Proof.
  induction ws as [|[k0 e] ws IH]; simpl; [by destruct (decide (k' = k))|].
  case_bool_decide as Hk0; simpl in *; subst; repeat case_decide; naive_solver.
Qed.

Lemma dd_set_assoc (f : WingStat → WingStat) k k' (ws : list (Value * WingStat)) :
  assoc k' (dd_set f k ws)
  = if decide (k' = k) then Some (f (default fresh_stat (assoc k ws))) else assoc k' ws.
Proof.
  unfold dd_set, dd_touch. rewrite assoc_alter. case_bool_decide as Hk.
  - destruct (decide (k' = k)) as [->|]; [|done].
    destruct (assoc k ws) eqn:He; [done|]. by apply assoc_None in He.
  - rewrite !assoc_app. apply assoc_None in Hk. rewrite Hk. simpl.
    destruct (decide (k' = k)) as [->|Hne].
    + by rewrite decide_True.
    + rewrite decide_False by done. by destruct (assoc k' ws).
Qed.

Lemma dd_set_keys (f : WingStat → WingStat) k (ws : list (Value * WingStat)) :
  (dd_set f k ws).*1 = (dd_touch k ws).*1.
Proof.
  unfold dd_set. generalize (dd_touch k ws). intros l.
  induction l as [|[k0 e] l IH]; [done|]. cbn [map fmap list_fmap].
  rewrite <- IH. by case_bool_decide.
Qed.

Lemma dd_set_NoDup (f : WingStat → WingStat) k (ws : list (Value * WingStat)) :
  NoDup ws.*1 → NoDup (dd_set f k ws).*1.
Proof.
  intros Hnd. rewrite dd_set_keys. unfold dd_touch. case_bool_decide as Hk; [done|].
  rewrite fmap_app. apply NoDup_app. split_and!; [done| |apply NoDup_singleton].
  intros k' Hk' ->%list_elem_of_singleton. done.
Qed.

(** What one turn of the loop does when it does not raise. *)
Lemma count_row_Ok year ws ys row ws' ys' :
  count_row year (ws, ys) row = Ok (ws', ys') →
  ∃ y, row_year row = Some y ∧ ys' = {[ y ]} ∪ ys
    ∧ ((¬ counted year row ∧ ws' = ws)
       ∨ (counted year row
          ∧ ∃ k name slug,
              row.2 !! "id" = Some k ∧ row.2 !! "name" = Some name
              ∧ row.2 !! "slug" = Some slug
              ∧ ws' = dd_set incr_count k (dd_set (set_slug slug) k
                        (dd_set (set_name name) k ws)))).
Proof.
  destruct row as [activity wing].
  unfold count_row, counted, row_year, getattr, year_of. simpl.
  destruct (activity !! "activity_date") as [[| | |d|d t]|]; simpl; try done.
  all: case_bool_decide as Hskip.
  all: try (intros [= <- <-]; exists (py.year d); split_and!; [done..|]; left;
            split; [|done]; destruct Hskip as [[y ->] Hne]; congruence).
  all: destruct (wing !! "name") as [name|]; simpl; try done.
  all: destruct (wing !! "id") as [k|]; simpl; try done.
  all: destruct (wing !! "slug") as [slug|]; simpl; try done.
  all: intros [= <- <-]; exists (py.year d); split_and!; [done..|]; right.
  all: split; [|by exists k, name, slug].
  all: destruct year as [y|]; [|done].
  all: destruct (decide (y = py.year d)) as [->|]; [done|].
  all: exfalso; apply Hskip; split; [done|congruence].
Qed.

Lemma count_row_well_formed year st row :
  well_formed_row row → ∃ st', count_row year st row = Ok st'.
Proof.
  destruct st as [ws ys], row as [activity wing].
  unfold well_formed_row, row_year, count_row, getattr, year_of. simpl.
  intros ([y Hy] & [k ->] & [name ->] & [slug ->]).
  destruct (activity !! "activity_date") as [[| | |d|d t]|]; simpl in *; try done.
  all: case_bool_decide; eauto.
Qed.

Lemma count_rows_snoc year rows row st :
  count_rows year (rows ++ [row]) st
  = count_rows year rows st ≫= λ st', count_row year st' row.
Proof.
  revert st. induction rows as [|r rows IH]; intros st; simpl.
  - by destruct (count_row year st row).
  - destruct (count_row year st r) as [st'|e]; simpl; [apply IH|done].
Qed.

Lemma count_rows_well_formed year rows st :
  Forall well_formed_row rows → ∃ st', count_rows year rows st = Ok st'.
Proof.
  intros Hwf. revert st. induction Hwf as [|row rows Hrow Hrows IH]; intros st; simpl.
  - by exists st.
  - destruct (count_row_well_formed year st row Hrow) as [st' ->]. simpl. apply IH.
Qed.


Lemma tally_snoc_other year rows row k :
  ¬ counts_for year k row → tally year (rows ++ [row]) k = tally year rows k.
Proof.
  intros Hno. unfold tally. rewrite filter_app, filter_cons_False, filter_nil by done.
  by rewrite app_nil_r.
Qed.

Lemma tally_snoc_same year rows row k name slug :
  counts_for year k row → row.2 !! "name" = Some name → row.2 !! "slug" = Some slug →
  tally year (rows ++ [row]) k
  = Some (incr_count (set_slug slug (set_name name (default fresh_stat (tally year rows k))))).
Proof.
  intros Hyes Hname Hslug. unfold tally.
  rewrite filter_app, filter_cons_True, filter_nil by done.
  rewrite last_snoc. simpl. rewrite Hname, Hslug. simpl.
  unfold incr_count, set_slug, set_name. simpl. do 2 f_equal.
  rewrite length_app. simpl.
  destruct (filter (counts_for year k) rows) as [|r l] using rev_ind; simpl; [done|].
  rewrite last_snoc. simpl. lia.
Qed.

(** The state of the loop after the rows, started from nothing. *)
Lemma count_rows_invariant year rows ws ys :
  count_rows year rows ([], ∅) = Ok (ws, ys) →
  NoDup ws.*1
  ∧ (∀ k, assoc k ws = tally year rows k)
  ∧ (∀ y, y ∈ ys ↔ ∃ row, row ∈ rows ∧ row_year row = Some y)
  ∧ Forall (λ row, counted year row →
                   is_Some (row.2 !! "name") ∧ is_Some (row.2 !! "slug")) rows.
Proof.
  revert ws ys. induction rows as [|row rows IH] using rev_ind; intros ws ys.
  - intros [= <- <-]. split_and!; [constructor|done| |constructor].
    intros y. split; [set_solver|]. by intros (row & ?%elem_of_nil & _).
  - rewrite count_rows_snoc.
    destruct (count_rows year rows ([], ∅)) as [[ws0 ys0]|] eqn:Hrows; simpl; [|done].
    intros Hrow. destruct (IH _ _ eq_refl) as (Hnd & Hassoc & Hys & Hnamed).
    apply count_row_Ok in Hrow
      as (y & Hy & -> & [[Hno ->]|(Hyes & k & name & slug & Hid & Hname & Hslug & ->)]).
    + split_and!; [done| | |].
      * intros k. rewrite tally_snoc_other; [done|]. by intros [? _].
      * intros y'. rewrite elem_of_union, elem_of_singleton, Hys.
        setoid_rewrite elem_of_app. setoid_rewrite list_elem_of_singleton. naive_solver.
      * apply Forall_app. split; [done|]. by constructor.
    + split_and!.
      * by do 3 apply dd_set_NoDup.
      * intros k'. rewrite !dd_set_assoc. destruct (decide (k' = k)) as [->|Hne].
        -- rewrite !decide_True by done. simpl.
           by rewrite (tally_snoc_same _ _ _ _ name slug), Hassoc.
        -- rewrite tally_snoc_other; [done|]. intros [_ ?]. congruence.
      * intros y'. rewrite elem_of_union, elem_of_singleton, Hys.
        setoid_rewrite elem_of_app. setoid_rewrite list_elem_of_singleton. naive_solver.
      * apply Forall_app. split; [done|]. constructor; [|done]. by rewrite Hname, Hslug.
Qed.

(** The answer of the aggregation when it does not raise. *)
Lemma aggregate_Ok year rows stats :
  aggregate rows year = Ok stats →
  ∃ ws ys,
    count_rows year rows ([], ∅) = Ok (ws, ys)
    ∧ statistics stats = sort_desc activity_count (to_entry <$> ws)
    ∧ available_years stats = sort_desc (λ y, y) (elements ys)
    ∧ filtered_year stats = year.
Proof.
  unfold aggregate.
  destruct (count_rows year rows ([], ∅)) as [[ws ys]|]; simpl; [|done].
  intros [= <-]. by exists ws, ys.
Qed.

Lemma elem_of_statistics year rows stats e :
  aggregate rows year = Ok stats →
  e ∈ statistics stats →
  tally year rows (wing_id e)
  = Some {| ws_name := wing_name e; ws_slug := wing_slug e; ws_count := activity_count e |}.
Proof.
  intros (ws & ys & Hrows & -> & _)%aggregate_Ok.
  destruct (count_rows_invariant _ _ _ _ Hrows) as (Hnd & Hassoc & _).
  rewrite elem_of_sort_desc. intros ([k st] & -> & Hin)%list_elem_of_fmap.
  apply elem_of_assoc in Hin; [|done]. simpl. rewrite <- Hassoc, Hin. by destruct st.
Qed.

Lemma tally_Some year rows k st :
  tally year rows k = Some st →
  ∃ row, last (filter (counts_for year k) rows) = Some row
    ∧ ws_name st = default VNone (row.2 !! "name")
    ∧ ws_slug st = default VNone (row.2 !! "slug")
    ∧ ws_count st = Z.of_nat (length (filter (counts_for year k) rows))
    ∧ 1 ≤ ws_count st
    ∧ row ∈ rows ∧ counts_for year k row.
Proof.
  unfold tally. destruct (last (filter (counts_for year k) rows)) as [row|] eqn:Hlast; [|done].
  simpl. intros [= <-]. exists row. simpl. split_and!; try done.
  - destruct (filter (counts_for year k) rows); [done|]. simpl. lia.
  - apply last_Some_elem_of, list_elem_of_filter in Hlast. tauto.
  - apply last_Some_elem_of, list_elem_of_filter in Hlast. tauto.
Qed.

Lemma tally_is_Some year rows k row :
  row ∈ rows → counts_for year k row → is_Some (tally year rows k).
Proof.
  intros Hin Hyes. unfold tally.
  assert (row ∈ filter (counts_for year k) rows) as Hf by by apply list_elem_of_filter.
  destruct (filter (counts_for year k) rows) as [|r l] using rev_ind.
  - by apply elem_of_nil in Hf.
  - rewrite last_snoc. by eexists.
Qed.

(** C1.  On joined rows as the store yields them the aggregation answers,
    and its answer holds: the year filter as given; one entry per wing
    identity, for exactly the wings with a row that passes the filter; for
    each entry the number of the wing's rows that pass the filter (all of its
    rows when no year is given), with the name and slug of the wing as the
    last of them carries them; the entries in descending order of their
    count; and the years of all the rows, filter or no filter, each once, in
    descending order. *)
Theorem aggregate_counts_by_wing (rows : list (Obj * Obj)) (year : option Z) :
  Forall well_formed_row rows →
  ∃ stats,
    aggregate rows year = Ok stats
    ∧ filtered_year stats = year
    ∧ NoDup (wing_id <$> statistics stats)
    ∧ (∀ k, k ∈ wing_id <$> statistics stats ↔
            ∃ row, row ∈ rows ∧ counted year row ∧ row.2 !! "id" = Some k)
    ∧ (∀ e, e ∈ statistics stats →
         activity_count e
         = Z.of_nat (length (filter (λ row, counted year row ∧ row.2 !! "id" = Some (wing_id e))
                                    rows))
         ∧ ∃ row, last (filter (λ row, counted year row ∧ row.2 !! "id" = Some (wing_id e))
                               rows) = Some row
             ∧ row.2 !! "name" = Some (wing_name e)
             ∧ row.2 !! "slug" = Some (wing_slug e))
    ∧ StronglySorted (λ e1 e2, activity_count e2 ≤ activity_count e1) (statistics stats)
    ∧ StronglySorted (λ y1 y2, y2 < y1) (available_years stats)
    ∧ (∀ y, y ∈ available_years stats ↔ ∃ row, row ∈ rows ∧ row_year row = Some y).
Proof.
  intros Hwf. unfold aggregate.
  destruct (count_rows_well_formed year rows ([], ∅) Hwf) as [[ws ys] Hrows].
  eexists. split; [by rewrite Hrows|]. simpl.
  destruct (count_rows_invariant _ _ _ _ Hrows) as (Hnd & Hassoc & Hys & Hnamed).
  fold to_entry. split_and!.
  - done.
  - rewrite sort_desc_perm. by rewrite <- list_fmap_compose.
  - intros k. rewrite sort_desc_perm, <- list_fmap_compose.
    change (wing_id ∘ to_entry) with (fst : Value * WingStat → Value).
    split.
    + intros Hk. destruct (assoc k ws) as [st|] eqn:Hst; [|by apply assoc_None in Hst].
      rewrite Hassoc in Hst. apply tally_Some in Hst as (row & _ & _ & _ & _ & _ & Hin & Hc).
      exists row. by destruct Hc.
    + intros (row & Hin & Hc & Hid).
      destruct (tally_is_Some year rows k row Hin) as [st Hst]; [done|].
      rewrite <- Hassoc in Hst. apply elem_of_assoc in Hst; [|done].
      apply list_elem_of_fmap. by exists (k, st).
  - intros e. rewrite elem_of_sort_desc. intros ([k st] & -> & Hin)%list_elem_of_fmap.
    apply elem_of_assoc in Hin; [|done]. rewrite Hassoc in Hin.
    apply tally_Some in Hin as (row & Hlast & Hname & Hslug & Hcount & _ & Hrow & Hc).
    simpl. split; [done|]. exists row. split; [done|].
    rewrite Forall_forall in Hnamed. destruct (Hnamed row Hrow) as [[n Hn] [s Hs]]; [by destruct Hc|].
    rewrite Hn, Hs in *. simpl in *. by subst.
  - apply sort_desc_sorted.
  - apply sorted_distinct_decreasing.
    + rewrite sort_desc_perm. apply NoDup_elements.
    + apply (sort_desc_sorted (λ y, y)).
  - intros y. by rewrite elem_of_sort_desc, elem_of_elements.
Qed.

(** The example of the specification, filtered to 2024: one activity for
    each of the two wings, and the years 2024 and 2023. *)
Lemma aggregate_counts_by_wing_witness :
  ∃ stats,
    aggregate example_rows (Some 2024) = Ok stats
    ∧ wing_id <$> statistics stats = [VInt 1; VInt 2]
    ∧ activity_count <$> statistics stats = [1; 1]
    ∧ available_years stats = [2024; 2023]
    ∧ filtered_year stats = Some 2024.
Proof.
  destruct (aggregate_counts_by_wing example_rows (Some 2024)) as (stats & Hrun & Hyear & _).
  { by_running. }
  exists stats. split; [done|]. vm_compute in Hrun. injection Hrun as <-.
  split_and!; by vm_compute.
Defined.

(** C8.  Every entry of an answer of the aggregation counts at least one
    activity, and a row of its wing that passes the filter exists; a wing
    none of whose rows passes the filter has no entry. *)
Theorem statistics_entries_count_at_least_one
    (rows : list (Obj * Obj)) (year : option Z) (stats : Statistics) :
  aggregate rows year = Ok stats →
  (∀ e, e ∈ statistics stats →
     1 ≤ activity_count e
     ∧ ∃ row, row ∈ rows ∧ counted year row ∧ row.2 !! "id" = Some (wing_id e))
  ∧ (∀ k, (∀ row, row ∈ rows → counted year row → row.2 !! "id" ≠ Some k) →
          k ∉ wing_id <$> statistics stats).
Proof.
  intros Hrun.
  assert (∀ e, e ∈ statistics stats →
            1 ≤ activity_count e
            ∧ ∃ row, row ∈ rows ∧ counted year row ∧ row.2 !! "id" = Some (wing_id e)) as Hone.
  { intros e He.
    destruct (tally_Some _ _ _ _ (elem_of_statistics _ _ _ _ Hrun He))
      as (row & _ & _ & _ & _ & Hge & Hin & Hc & Hid).
    split; [done|]. by exists row. }
  split; [done|].
  intros k Hnone (e & -> & He)%list_elem_of_fmap.
  destruct (Hone e He) as (_ & row & Hin & Hc & Hid). exact (Hnone row Hin Hc Hid).
Qed.

(** The example of the specification, filtered to 2023: wing B has no
    activity of that year and no entry. *)
Lemma statistics_entries_count_at_least_one_witness :
  ∃ stats,
    aggregate example_rows (Some 2023) = Ok stats
    ∧ (∀ e, e ∈ statistics stats → 1 ≤ activity_count e)
    ∧ VInt 2 ∉ wing_id <$> statistics stats.
Proof.
  destruct (aggregate example_rows (Some 2023)) as [stats|e] eqn:Hrun;
    [|vm_compute in Hrun; discriminate].
  exists stats. split; [done|].
  destruct (statistics_entries_count_at_least_one _ _ _ Hrun) as [Hone Hnone].
  split.
  - intros e He. by destruct (Hone e He).
  - apply Hnone.
    apply (Forall_forall (λ row, counted (Some 2023) row → row.2 !! "id" ≠ Some (VInt 2))).
    by_running.
Defined.

(** * Further properties of the code *)

(** ** PDF reports *)

Lemma empty_not_pdf_extension : "" ∉ admin.ALLOWED_PDF_EXTENSIONS.
Proof. by_running. Qed.

Lemma validate_pdf_file_unfold (file : UploadFile) :
  admin.validate_pdf_file file =
    match filename file with
    | None => Raise (Anvaya (ValidationError "File must have a filename" None))
    | Some name =>
        if String.eqb name "" then
          Raise (Anvaya (ValidationError "File must have a filename" None))
        else if contains "." name
                && bool_decide ("." +:+ lower (item_last (rsplit1 "." name)) = ".pdf") then
          Ok tt
        else
          Raise (Anvaya (FileUploadError
            "Invalid file format. Only PDF files are allowed." (Some name)))
    end.
Proof.
  unfold admin.validate_pdf_file, admin.ALLOWED_PDF_EXTENSIONS.
  destruct (filename file) as [name|]; simpl; [|done].
  destruct (String.eqb name ""); simpl; [done|].
  destruct (contains "." name); simpl.
  - repeat case_bool_decide; set_solver.
  - rewrite bool_decide_eq_true_2; [done|]. set_solver.
Qed.

(** X1.  [validate_pdf_file] accepts exactly the files whose name ends, after
    its last dot, in [pdf] in any letter case; a file it accepts is never
    accepted as an image; and its only refusals are the [ValidationError] of
    a missing name and the [FileUploadError] that carries the name. *)
Theorem validate_pdf_file_accepts (file : UploadFile) :
  (admin.validate_pdf_file file = Ok tt ↔
     ∃ pre suf, filename file = Some (pre +:+ "." +:+ suf)
                ∧ contains "." suf = false ∧ lower suf = "pdf")
  ∧ (admin.validate_pdf_file file = Ok tt → admin.validate_image_file file ≠ Ok tt)
  ∧ (∀ e, admin.validate_pdf_file file = Raise e →
          e = Anvaya (ValidationError "File must have a filename" None)
          ∨ e = Anvaya (FileUploadError "Invalid file format. Only PDF files are allowed."
                          (filename file))).
Proof.
  rewrite validate_pdf_file_unfold, validate_image_file_unfold. split_and!.
  - split.
    + destruct (filename file) as [name|]; [|done].
      destruct (String.eqb name "") eqn:Hne; [done|].
      destruct (contains "." name) eqn:Hdot; [|done]. simpl.
      destruct (contains_last _ _ Hdot) as (pre & suf & -> & Hsuf).
      rewrite rsplit1_at_last by done. simpl item_last.
      case_bool_decide as Hext; [|done]. intros _.
      exists pre, suf. split_and!; [done..|]. by injection Hext.
    + intros (pre & suf & -> & Hsuf & Hpdf).
      change (pre +:+ "." +:+ suf) with (pre +:+ String "." suf).
      rewrite app_not_empty, contains_app, rsplit1_at_last by done.
      change (item_last [pre; suf]) with suf. by rewrite Hpdf.
  - destruct (filename file) as [name|]; [|done].
    destruct (String.eqb name ""); [done|].
    destruct (contains "." name); [|done]. simpl.
    case_bool_decide as Hext; [|done]. rewrite Hext.
    rewrite bool_decide_eq_true_2; [done|]. by_running.
  - intros e. destruct (filename file) as [name|]; [|intros [= <-]; by left].
    destruct (String.eqb name ""); [intros [= <-]; by left|].
    destruct (_ && _); [done|]. intros [= <-]. by right.
Qed.

(** ** Stripping and splitting *)

Lemma string_app_assoc (s1 s2 s3 : string) : (s1 +:+ s2) +:+ s3 = s1 +:+ s2 +:+ s3.
Proof.
  induction s1 as [|c s1 IH]; [done|].
  change (String c ((s1 +:+ s2) +:+ s3) = String c (s1 +:+ s2 +:+ s3)). by rewrite IH.
Qed.

Lemma lstrip_unfold (s : string) :
  lstrip s = match skip_space s with Some r => lstrip r | None => s end.
Proof.
  destruct s as [|c1 [|c2 [|c3 r3]]]; [done|..];
    unfold skip_space; cbn [lstrip]; repeat (destruct (is_space _); [done|]); done.
Qed.

Lemma skip_space_Some (s r : string) :
  skip_space s = Some r →
  (String.length r < String.length s)%nat ∧ ∃ p, s = p +:+ r.
Proof.
  destruct s as [|c1 [|c2 [|c3 r3]]]; unfold skip_space; [done|..];
    repeat (destruct (is_space _);
            [intros [= <-]; split; [simpl; lia|];
             first [by exists (String c1 "")
                   |by exists (String c1 (String c2 ""))
                   |by exists (String c1 (String c2 (String c3 "")))]|]);
    done.
Qed.

(** A string with no white space at its head has none at the head of a
    prefix of it. *)
Lemma skip_space_prefix (p t : string) :
  skip_space (p +:+ t) = None → skip_space p = None.
Proof.
  destruct p as [|c1 [|c2 [|c3 p3]]]; [done|..];
    change (String ?c ?p +:+ t) with (String c (p +:+ t)).
  - unfold skip_space. destruct (is_space _); [done|]. done.
  - change (String c1 (String c2 "" +:+ t)) with (String c1 (String c2 t)).
    unfold skip_space. repeat (destruct (is_space _); [done|]). done.
  - change (String c1 (String c2 (String c3 p3) +:+ t))
      with (String c1 (String c2 (String c3 (p3 +:+ t)))).
    unfold skip_space. repeat (destruct (is_space _); [done|]). done.
Qed.

(** [lstrip s] is what is left of [s] behind some head, and has no white
    space at its own head. *)
Lemma lstrip_spec (s : string) :
  skip_space (lstrip s) = None ∧ ∃ p, s = p +:+ lstrip s.
Proof.
  remember (String.length s) as n eqn:Hn. revert s Hn.
  induction (lt_wf n) as [n _ IH]; intros s ->.
  rewrite lstrip_unfold. destruct (skip_space s) as [r|] eqn:Hskip.
  - apply skip_space_Some in Hskip as [Hlt [p ->]].
    destruct (IH _ Hlt r eq_refl) as [Hclean [q Hq]]. split; [done|].
    exists (p +:+ q). rewrite string_app_assoc. by rewrite <- Hq.
  - split; [done|]. by exists "".
Qed.

Lemma lstrip_fixed (s : string) : skip_space s = None → lstrip s = s.
Proof. intros Hs. by rewrite lstrip_unfold, Hs. Qed.

Lemma rstrip_idem (s : string) : rstrip (rstrip s) = rstrip s.
Proof.
  induction s as [|c r IH]; [done|]. cbn [rstrip].
  destruct (is_space (bytes (String c (rstrip r)))) eqn:Hc; [done|].
  cbn [rstrip]. by rewrite IH, Hc.
Qed.

Lemma rstrip_prefix (s : string) : ∃ t, s = rstrip s +:+ t.
Proof.
  induction s as [|c r [t Ht]]; [by exists ""|]. cbn [rstrip].
  destruct (is_space _); [by eexists|].
  exists t. change (String c r = String c (rstrip r +:+ t)). by rewrite <- Ht.
Qed.

Lemma strip_idem (s : string) : strip (strip s) = strip s.
Proof.
  unfold strip. destruct (lstrip_spec s) as [Hclean _].
  destruct (rstrip_prefix (lstrip s)) as [t Ht]. rewrite Ht in Hclean.
  apply skip_space_prefix in Hclean. by rewrite (lstrip_fixed _ Hclean), rstrip_idem.
Qed.

Lemma contains_append sep (p t : string) :
  contains sep (p +:+ t) = contains sep p || contains sep t.
Proof.
  induction p as [|c p IH]; [done|].
  change (contains sep (String c (p +:+ t)) = contains sep (String c p) || contains sep t).
  simpl. by rewrite IH, orb_assoc.
Qed.

Lemma contains_lstrip sep (s : string) :
  contains sep s = false → contains sep (lstrip s) = false.
Proof.
  destruct (lstrip_spec s) as [_ [p Hp]]. rewrite Hp at 1.
  rewrite contains_append. by intros [_ ?]%orb_false_elim.
Qed.

Lemma contains_rstrip sep (s : string) :
  contains sep s = false → contains sep (rstrip s) = false.
Proof.
  destruct (rstrip_prefix s) as [t Ht]. rewrite Ht at 1.
  rewrite contains_append. by intros [? _]%orb_false_elim.
Qed.

Lemma contains_strip sep (s : string) :
  contains sep s = false → contains sep (strip s) = false.
Proof. intros H. by apply contains_rstrip, contains_lstrip. Qed.

Lemma split_pieces sep (s : string) :
  split sep s ≠ [] ∧ Forall (λ piece, contains sep piece = false) (split sep s).
Proof.
  induction s as [|c r [Hne IH]]; simpl; [by repeat constructor|].
  destruct (Ascii.eqb c sep) eqn:Hc; [by split; [|constructor]|].
  destruct (split sep r) as [|h t]; [done|]. split; [done|].
  apply Forall_cons in IH as [Hh Ht]. constructor; [|done]. simpl. by rewrite Hc, Hh.
Qed.

Lemma split_without sep (s : string) : contains sep s = false → split sep s = [s].
Proof.
  induction s as [|c r IH]; simpl; [done|].
  intros [Hc Hr]%orb_false_elim. by rewrite Hc, IH.
Qed.

Lemma split_app sep (piece rest : string) :
  contains sep piece = false →
  split sep (piece +:+ String sep rest) = piece :: split sep rest.
Proof.
  induction piece as [|c r IH]; simpl.
  - intros _. by rewrite Ascii.eqb_refl.
  - intros [Hc Hr]%orb_false_elim. by rewrite Hc, IH.
Qed.

Lemma split_join sep (pieces : list string) :
  pieces ≠ [] → Forall (λ piece, contains sep piece = false) pieces →
  split sep (join (String sep "") pieces) = pieces.
Proof.
  intros Hne Hall. induction Hall as [|piece pieces Hpiece Hpieces IH]; [done|].
  destruct pieces as [|next pieces].
  - by apply split_without.
  - change (join (String sep "") (piece :: next :: pieces))
      with (piece +:+ String sep (join (String sep "") (next :: pieces))).
    rewrite split_app by done. f_equal. by apply IH.
Qed.

(** ** The allowed origins of [app/main.py] *)

(** X2.  The allowed origins read from the setting are never empty, carry no
    surrounding white space and no comma; and a list of such origins, joined
    with commas, is read back as it was. *)
Theorem cors_origins_are_clean (raw : string) :
  Forall (λ origin, origin ≠ "" ∧ strip origin = origin ∧ contains "," origin = false)
         (main.cors_origins raw)
  ∧ (∀ origins,
       Forall (λ origin, origin ≠ "" ∧ strip origin = origin ∧ contains "," origin = false)
              origins →
       main.cors_origins (join "," origins) = origins).
Proof.
  split.
  - unfold main.cors_origins. apply Forall_fmap, Forall_forall.
    intros piece [Hkeep Hin]%list_elem_of_filter. simpl in *.
    split_and!.
    + intros Hempty. by rewrite Hempty in Hkeep.
    + apply strip_idem.
    + apply contains_strip. destruct (split_pieces "," raw) as [_ Hall].
      rewrite Forall_forall in Hall. by apply Hall.
  - intros origins Hall. unfold main.cors_origins.
    destruct origins as [|origin origins]; [done|].
    rewrite (split_join "," (origin :: origins)); [|done|].
    + induction Hall as [|o os (Hne & Hstrip & _) _ IH]; [done|].
      rewrite filter_cons_True.
      * cbn [map]. by rewrite Hstrip, IH.
      * simpl. rewrite Hstrip. by destruct o.
    + eapply Forall_impl; [exact Hall|]. by intros o (_ & _ & ?).
Qed.

(** ** The data-access layer: reads after writes *)

Lemma where_eq_int_self id rows a :
  where_eq "id" (VInt id) rows = [a] → a !! "id" = Some (VInt id).
Proof.
  intros Heq. assert (a ∈ where_eq "id" (VInt id) rows) as Hin by (rewrite Heq; left).
  by apply elem_of_where_eq_int in Hin as [_ ?].
Qed.

Lemma where_eq_flush id a' rows :
  a' !! "id" = Some (VInt id) →
  where_eq "id" (VInt id) (CRUDService.flush_activity id a' rows)
  = (λ _, a') <$> where_eq "id" (VInt id) rows.
Proof.
  intros Hid. unfold where_eq, CRUDService.flush_activity.
  induction rows as [|r rows IH]; [done|]. cbn [map].
  destruct (sql_eq (r !! "id") (VInt id)) eqn:Hr.
  - rewrite !filter_cons_True; [|done|by apply sql_eq_int]. by rewrite IH.
  - rewrite !filter_cons_False; [done|by rewrite Hr..].
Qed.

Lemma flush_flush id a1 a2 rows :
  a1 !! "id" = Some (VInt id) →
  CRUDService.flush_activity id a2 (CRUDService.flush_activity id a1 rows)
  = CRUDService.flush_activity id a2 rows.
Proof.
  intros Hid. unfold CRUDService.flush_activity. rewrite map_map.
  apply map_ext. intros r. destruct (sql_eq (r !! "id") (VInt id)) eqn:Hr.
  - apply sql_eq_int in Hid. by rewrite Hid.
  - by rewrite Hr.
Qed.

Lemma where_eq_where_ne id rows :
  where_eq "id" (VInt id) (where_ne "id" (VInt id) rows) = [].
Proof.
  destruct (where_eq "id" (VInt id) (where_ne "id" (VInt id) rows)) as [|r l] eqn:Heq;
    [done|].
  exfalso. apply (has_id_where_ne id rows). apply has_id_where_eq. by rewrite Heq.
Qed.

Lemma apply_update_keeps (a : Obj) (update_data : gmap string Value) (k : string) :
  update_data !! k = None → CRUDService.apply_update a update_data !! k = a !! k.
Proof. intros Hk. rewrite apply_update_lookup, Hk. by destruct (a !! k). Qed.

Lemma apply_update_compose (a : Obj) (u1 u2 : gmap string Value) :
  CRUDService.apply_update (CRUDService.apply_update a u1) u2
  = CRUDService.apply_update a (u2 ∪ u1).
Proof.
  apply map_eq. intros k. rewrite !apply_update_lookup, lookup_union.
  destruct (a !! k) as [old|]; [|done]. simpl.
  by destruct (u1 !! k), (u2 !! k).
Qed.

(** X3.  After an update that the store takes and that does not rename the
    identity, the activity read back under the identity is the activity the
    update returned; a second update on top of it leaves the store as one
    update with the two mappings merged, the later one winning. *)
Theorem update_activity_then_read
    (env : Env) (w : World) (id : Z) (u1 u2 : gmap string Value) (a : Obj) :
  where_eq "id" (VInt id) (activities (store w)) = [a] →
  u1 !! "id" = None →
  store_rejects env (with_activity id (CRUDService.apply_update a u1) (store w)) = None →
  ∃ a1 w1,
    CRUDService.update_activity id u1 env w = (Ok (Some a1), w1)
    ∧ CRUDService.get_activity_by_id id env w1 = (Ok (Some a1), w1)
    ∧ (store_rejects env (with_activity id (CRUDService.apply_update a (u2 ∪ u1)) (store w))
       = None →
       ∃ a2 w2 w12,
         CRUDService.update_activity id u2 env w1 = (Ok (Some a2), w2)
         ∧ CRUDService.update_activity id (u2 ∪ u1) env w = (Ok (Some a2), w12)
         ∧ store w2 = store w12).
Proof.
  intros Heq Hu1 Hacc1.
  pose proof (where_eq_int_self _ _ _ Heq) as Hid.
  assert (CRUDService.apply_update a u1 !! "id" = Some (VInt id)) as Hid1
    by by rewrite apply_update_keeps.
  rewrite (update_activity_accepted _ _ _ _ _ Heq Hacc1).
  set (a1 := CRUDService.apply_update a u1) in *.
  set (w1 := {| store := with_activity id a1 (store w); media_calls := media_calls w;
                log := (log w ++ [(DEBUG, "Updated activity: " +:+ pretty id)])%list |}).
  assert (where_eq "id" (VInt id) (activities (store w1)) = [a1]) as Heq1.
  { simpl. by rewrite where_eq_flush, Heq. }
  exists a1, w1. split_and!; [done|by apply get_activity_by_id_found|].
  intros Hacc2.
  assert (with_activity id (CRUDService.apply_update a1 u2) (store w1)
          = with_activity id (CRUDService.apply_update a (u2 ∪ u1)) (store w)) as Hsame.
  { unfold a1. rewrite apply_update_compose. unfold with_activity. simpl.
    fold a1. by rewrite flush_flush. }
  assert (store_rejects env (with_activity id (CRUDService.apply_update a1 u2) (store w1))
          = None) as Hacc2'
    by (etrans; [exact (f_equal (store_rejects env) Hsame)|exact Hacc2]).
  rewrite (update_activity_accepted env w1 id u2 a1 Heq1 Hacc2').
  rewrite (update_activity_accepted _ _ _ _ _ Heq Hacc2).
  eexists _, _, _. split_and!.
  - reflexivity.
  - by rewrite <- apply_update_compose.
  - etrans; [exact Hsame|]. simpl. by rewrite apply_update_compose.
Qed.

(** On the demo world: a new title, then a new description. *)
Lemma update_activity_then_read_witness :
  ∃ a1 w1,
    CRUDService.update_activity 7 {[ "title" := VStr "Demo day" ]} demo_env demo_world
    = (Ok (Some a1), w1)
    ∧ CRUDService.get_activity_by_id 7 demo_env w1 = (Ok (Some a1), w1).
Proof.
  destruct (update_activity_then_read demo_env demo_world 7 {[ "title" := VStr "Demo day" ]}
              {[ "description" := VStr "Short talks" ]} demo_activity)
    as (a1 & w1 & Hrun & Hread & _); [by_running | by_running | reflexivity |].
  exists a1, w1. split; assumption.
Defined.

(** X4.  After a deletion that the store takes, the identity reads as absent,
    and deleting it again answers [False] and leaves the store as it is;
    this for activities and for photos. *)
Theorem delete_is_idempotent (env : Env) (w : World) (id : Z) :
  (store_rejects env (without_activity id (store w)) = None →
   ∃ b w1 w2,
     CRUDService.delete_activity id env w = (Ok b, w1)
     ∧ CRUDService.get_activity_by_id id env w1 = (Ok None, w1)
     ∧ CRUDService.delete_activity id env w1 = (Ok false, w2)
     ∧ store w2 = store w1)
  ∧ (store_rejects env (without_photo id (store w)) = None →
     ∃ b w1 w2,
       CRUDService.delete_photo id env w = (Ok b, w1)
       ∧ CRUDService.get_photo_by_id id env w1 = (Ok None, w1)
       ∧ CRUDService.delete_photo id env w1 = (Ok false, w2)
       ∧ store w2 = store w1).
Proof.
  split; intros Hacc.
  - pose proof (delete_activity_accepted _ _ _ Hacc) as Hrun.
    set (w1 := {| store := without_activity id (store w); media_calls := media_calls w;
                  log := (log w ++ (if bool_decide (has_id id (activities (store w)))
                                    then [(DEBUG, "Deleted activity: " +:+ pretty id)]
                                    else []))%list |}) in *.
    assert (¬ has_id id (activities (store w1))) as Hgone by apply has_id_where_ne.
    assert (store_rejects env (without_activity id (store w1)) = None) as Hacc1.
    { rewrite without_activity_absent by done. exact Hacc. }
    pose proof (delete_activity_accepted _ _ _ Hacc1) as Hagain.
    rewrite bool_decide_eq_false_2 in Hagain by done.
    eexists _, w1, _. split_and!; [exact Hrun| |exact Hagain|].
    + apply get_activity_by_id_missing. apply where_eq_where_ne.
    + by apply without_activity_absent.
  - pose proof (delete_photo_accepted _ _ _ Hacc) as Hrun.
    set (w1 := {| store := without_photo id (store w); media_calls := media_calls w;
                  log := (log w ++ (if bool_decide (has_id id (photos (store w)))
                                    then [(DEBUG, "Deleted photo: " +:+ pretty id)]
                                    else []))%list |}) in *.
    assert (¬ has_id id (photos (store w1))) as Hgone by apply has_id_where_ne.
    assert (store_rejects env (without_photo id (store w1)) = None) as Hacc1.
    { rewrite without_photo_absent by done. exact Hacc. }
    pose proof (delete_photo_accepted _ _ _ Hacc1) as Hagain.
    rewrite bool_decide_eq_false_2 in Hagain by done.
    eexists _, w1, _. split_and!; [exact Hrun| |exact Hagain|].
    + unfold CRUDService.get_photo_by_id, mbind, M_bind, get_store.
      change (photos (store w1)) with (where_ne "id" (VInt id) (photos (store w))).
      by rewrite where_eq_where_ne.
    + by apply without_photo_absent.
Qed.

(** Deleting the activity 7 of the demo world, twice. *)
Lemma delete_is_idempotent_witness :
  ∃ b w1 w2,
    CRUDService.delete_activity 7 demo_env demo_world = (Ok b, w1)
    ∧ CRUDService.get_activity_by_id 7 demo_env w1 = (Ok None, w1)
    ∧ CRUDService.delete_activity 7 demo_env w1 = (Ok false, w2)
    ∧ store w2 = store w1.
Proof.
  destruct (delete_is_idempotent demo_env demo_world 7) as [H _].
  apply H. reflexivity.
Defined.

(** ** The data-access layer: a refused commit *)

(** X5.  Every writing operation of the data-access layer answers a commit the
    store refuses with the store's own error, after one [ERROR] line in the
    log, and leaves the store as it was. *)
Theorem refused_commit_is_rolled_back
    (env : Env) (w : World) (next_activity_id : Store → Z) (text : string) :
  (∀ activity,
     store_rejects env
       (set_activities (store w)
          (activities (store w)
           ++ [CRUDService.inserted_activity next_activity_id (store w) activity]))
     = Some text →
     CRUDService.create_activity next_activity_id activity env w
     = (Raise (StoreError text), logged w (ERROR, "Failed to create activity: " +:+ text)))
  ∧ (∀ id update_data a,
       where_eq "id" (VInt id) (activities (store w)) = [a] →
       store_rejects env (with_activity id (CRUDService.apply_update a update_data) (store w))
       = Some text →
       CRUDService.update_activity id update_data env w
       = (Raise (StoreError text),
          logged w (ERROR, "Failed to update activity " +:+ pretty id +:+ ": " +:+ text)))
  ∧ (∀ id,
       store_rejects env (without_activity id (store w)) = Some text →
       CRUDService.delete_activity id env w
       = (Raise (StoreError text),
          logged w (ERROR, "Failed to delete activity " +:+ pretty id +:+ ": " +:+ text)))
  ∧ (∀ photo,
       store_rejects env
         (set_photos (store w) (photos (store w) ++ [inserted_photo (store w) 0 photo])
                     (photo_seq (store w) + 1))
       = Some text →
       CRUDService.create_photo photo env w
       = (Raise (StoreError text), logged w (ERROR, "Failed to create photo: " +:+ text)))
  ∧ (∀ photos,
       store_rejects env (with_photos (store w) (imap (inserted_photo (store w)) photos))
       = Some text →
       CRUDService.create_photos_bulk photos env w
       = (Raise (StoreError text),
          logged w (ERROR, "Failed to create photos bulk: " +:+ text)))
  ∧ (∀ id,
       store_rejects env (without_photo id (store w)) = Some text →
       CRUDService.delete_photo id env w
       = (Raise (StoreError text),
          logged w (ERROR, "Failed to delete photo " +:+ pretty id +:+ ": " +:+ text))).
Proof.
  split_and!.
  - intros activity Hrej.
    unfold CRUDService.create_activity, try_except, mbind, M_bind, get_store, commit.
    by rewrite Hrej.
  - intros id update_data a Heq Hrej. unfold CRUDService.update_activity.
    unfold mbind at 1. unfold M_bind at 1. rewrite (get_activity_by_id_found _ _ _ _ Heq).
    unfold try_except, mbind, M_bind, get_store, commit.
    fold (with_activity id (CRUDService.apply_update a update_data) (store w)).
    by rewrite Hrej.
  - intros id Hrej.
    unfold CRUDService.delete_activity, try_except, mbind, M_bind, get_store, commit.
    fold (without_activity id (store w)). by rewrite Hrej.
  - intros photo Hrej.
    unfold CRUDService.create_photo, try_except, mbind, M_bind, get_store, commit.
    by rewrite Hrej.
  - intros photos Hrej.
    unfold CRUDService.create_photos_bulk, try_except, mbind, M_bind, get_store, commit.
    fold (with_photos (store w) (imap (inserted_photo (store w)) photos)). by rewrite Hrej.
  - intros id Hrej.
    unfold CRUDService.delete_photo, try_except, mbind, M_bind, get_store, commit.
    fold (without_photo id (store w)). by rewrite Hrej.
Qed.

(** Against a locked store the activity 7 of the demo world cannot be
    deleted, and stays. *)
Lemma refused_commit_is_rolled_back_witness :
  ∃ w',
    CRUDService.delete_activity 7 locked_env demo_world
    = (Raise (StoreError "database is locked"), w')
    ∧ store w' = demo_store.
Proof.
  destruct (refused_commit_is_rolled_back locked_env demo_world (λ _, 8) "database is locked")
    as (_ & _ & H & _).
  eexists. split; [apply H; reflexivity|reflexivity].
Defined.

(** ** Creating an activity through the admin route *)

Lemma create_activity_accepted env w next_activity_id a :
  is_null (a !! "id") = true →
  store_rejects env (with_new_activity (<["id" := VInt (next_activity_id (store w))]> a)
                                       (store w)) = None →
  CRUDService.create_activity next_activity_id a env w
  = (Ok (<["id" := VInt (next_activity_id (store w))]> a),
     {| store := with_new_activity (<["id" := VInt (next_activity_id (store w))]> a) (store w);
        media_calls := media_calls w;
        log := log w ++ [(DEBUG, "Created activity: " +:+ pretty (next_activity_id (store w)))] |}).
Proof.
  intros Hnull Hacc.
  unfold CRUDService.create_activity, try_except, mbind, M_bind, get_store, commit,
    CRUDService.inserted_activity.
  rewrite Hnull. fold (with_new_activity (<["id" := VInt (next_activity_id (store w))]> a) (store w)).
  rewrite Hacc. unfold lift, getattr. by rewrite lookup_insert_eq.
Qed.

Lemma get_wing_by_id_found env w wing_id wing :
  where_eq "id" wing_id (wings (store w)) = [wing] →
  CRUDService.get_wing_by_id wing_id env w = (Ok (Some wing), w).
Proof.
  intros Heq. unfold CRUDService.get_wing_by_id, mbind, M_bind, get_store. by rewrite Heq.
Qed.

(** X6.  [create_activity] writes nothing when it fails before the insert: for
    a wing that does not exist it ends in [NotFoundError], for a report whose
    name is refused in the error of [validate_pdf_file], both with the world
    untouched (no call to the media host); for a report the media host
    refuses, in [ExternalServiceError] with the store as it was. *)
Theorem create_activity_fails_without_writing
    (env : Env) (w : World) (next_activity_id : Store → Z) (wing_id : Z)
    (title description : string) (activity_date : date)
    (faculty_coordinator : option string) (report_file : option UploadFile)
    (current_admin : gmap string Value) :
  (where_eq "id" (VInt wing_id) (wings (store w)) = [] →
   admin.create_activity next_activity_id wing_id title description activity_date
     faculty_coordinator report_file current_admin env w
   = (Raise (Anvaya (NotFoundError "Wing" (Some (pretty wing_id)) [])), w))
  ∧ (∀ wing file,
       where_eq "id" (VInt wing_id) (wings (store w)) = [wing] →
       report_file = Some file → str_truthy (filename file) = true →
       (∀ e, admin.validate_pdf_file file = Raise e →
             admin.create_activity next_activity_id wing_id title description activity_date
               faculty_coordinator report_file current_admin env w = (Raise e, w))
       ∧ (admin.validate_pdf_file file = Ok tt →
          (∀ folder, ∃ text, host_upload_pdf env file folder = inl text) →
          ∃ w',
            admin.create_activity next_activity_id wing_id title description activity_date
              faculty_coordinator report_file current_admin env w
            = (Raise (Anvaya (ExternalServiceError "Cloudinary" "Failed to upload PDF report")),
               w')
            ∧ store w' = store w)).
Proof.
  split.
  - intros Heq. unfold admin.create_activity, CRUDService.get_wing_by_id, mbind, M_bind,
      get_store. by rewrite Heq.
  - intros wing file Heq -> Hname. split.
    + intros e He. unfold admin.create_activity.
      unfold mbind at 1. unfold M_bind at 1. rewrite (get_wing_by_id_found _ _ _ _ Heq).
      rewrite Hname. unfold mbind at 1. unfold M_bind at 1.
      unfold mbind at 1. unfold M_bind at 1. unfold lift at 1. by rewrite He.
    + intros Hpdf Hhost.
      cut (wp (admin.create_activity next_activity_id wing_id title description activity_date
                 faculty_coordinator (Some file) current_admin) env w
              (λ r w', r = Raise (Anvaya (ExternalServiceError "Cloudinary"
                                            "Failed to upload PDF report"))
                       ∧ store w' = store w)).
      { intros (r & w' & Hrun & -> & Hst)%wp_elim. by exists w'. }
      unfold admin.create_activity. wp_steps. rewrite Heq, Hname. wp_steps.
      rewrite Hpdf. wp_steps.
      unfold getattr at 1. destruct (wing !! "slug") as [slug|]; wp_steps; [|done].
      destruct (Hhost ("anvaya/" +:+ str slug +:+ "/reports")) as [text ->]. by wp_steps.
Qed.

Lemma create_activity_fails_without_writing_witness :
  admin.create_activity (λ _, 8) 42 "Talk" "A talk" (Date 2024 4 1) None None demo_admin
    demo_env demo_world
  = (Raise (Anvaya (NotFoundError "Wing" (Some "42") [])), demo_world).
Proof.
  destruct (create_activity_fails_without_writing demo_env demo_world (λ _, 8) 42 "Talk"
              "A talk" (Date 2024 4 1) None None demo_admin) as [H _].
  apply H. by_running.
Defined.

(** X7.  [create_activity] on an existing wing, the store taking the insert:
    one row is appended, with the identity the store assigns, the title and
    the description without surrounding white space, and the two report
    references either both empty (no report supplied, no call to the media
    host) or both those of the asset the media host returned for the one
    upload to the wing's reports folder. *)
Theorem create_activity_appends_one_row
    (env : Env) (w : World) (next_activity_id : Store → Z) (wing_id : Z)
    (title description : string) (activity_date : date)
    (faculty_coordinator : option string) (report_file : option UploadFile)
    (current_admin : gmap string Value) (wing : Obj) (slug : Value)
    (report : Value * Value) (calls : list MediaCall) :
  where_eq "id" (VInt wing_id) (wings (store w)) = [wing] →
  wing !! "slug" = Some slug →
  (supplied report_file = false ∧ report = (VNone, VNone) ∧ calls = []
   ∨ ∃ file asset,
       report_file = Some file ∧ str_truthy (filename file) = true
       ∧ admin.validate_pdf_file file = Ok tt
       ∧ host_upload_pdf env file ("anvaya/" +:+ str slug +:+ "/reports") = inr asset
       ∧ report = (VStr (url asset), VStr (public_id asset))
       ∧ calls = [UploadPdf file ("anvaya/" +:+ str slug +:+ "/reports")]) →
  let row :=
    <["id" := VInt (next_activity_id (store w))]>
      (admin.Activity wing_id (strip title) (strip description) activity_date
         (coordinator_value faculty_coordinator) report.1 report.2) in
  store_rejects env (with_new_activity row (store w)) = None →
  ∃ w',
    admin.create_activity next_activity_id wing_id title description activity_date
      faculty_coordinator report_file current_admin env w = (Ok row, w')
    ∧ activities (store w') = (activities (store w) ++ [row])%list
    ∧ photos (store w') = photos (store w) ∧ wings (store w') = wings (store w)
    ∧ media_calls w' = (media_calls w ++ calls)%list
    ∧ row !! "title" = Some (VStr (strip title)) ∧ strip (strip title) = strip title
    ∧ row !! "description" = Some (VStr (strip description))
    ∧ row !! "wing_id" = Some (VInt wing_id)
    ∧ row !! "report_url" = Some report.1
    ∧ row !! "report_cloudinary_id" = Some report.2
    ∧ is_null (Some report.1) = is_null (Some report.2).
Proof.
  intros Heq Hslug Hreport row Hacc.
  cut (wp (admin.create_activity next_activity_id wing_id title description activity_date
             faculty_coordinator report_file current_admin) env w
          (λ r w', r = Ok row
                   ∧ store w' = with_new_activity row (store w)
                   ∧ media_calls w' = (media_calls w ++ calls)%list)).
  { intros (r & w' & Hrun & -> & Hst & Hcalls)%wp_elim. exists w'.
    split_and!; [done|by rewrite Hst..|done| | | | | | |].
    - unfold row. generalize (strip title) (strip description). by vm_compute.
    - apply strip_idem.
    - unfold row. generalize (strip title) (strip description). by vm_compute.
    - unfold row. generalize (strip title) (strip description). by vm_compute.
    - unfold row. generalize (strip title) (strip description). by vm_compute.
    - unfold row. generalize (strip title) (strip description). by vm_compute.
    - destruct Hreport as [(_ & -> & _)|(? & ? & _ & _ & _ & _ & -> & _)]; done. }
  assert (∀ w1 : World,
            store w1 = store w →
            wp (CRUDService.create_activity next_activity_id
                  (admin.Activity wing_id (strip title) (strip description) activity_date
                     (coordinator_value faculty_coordinator) report.1 report.2)) env w1
               (λ r w', r = Ok row ∧ store w' = with_new_activity row (store w)
                        ∧ media_calls w' = media_calls w1)) as Hcreate.
  { intros w1 Hw1. eapply wp_run.
    - apply create_activity_accepted; [|rewrite Hw1; exact Hacc].
      generalize (strip title) (strip description). by vm_compute.
    - rewrite Hw1. by split_and!. }
  unfold admin.create_activity. wp_steps. rewrite Heq.
  destruct Hreport as [(Hsup & -> & ->)|(file & asset & -> & Hname & Hpdf & Hhost & -> & ->)].
  - destruct report_file as [file|]; simpl in Hsup; [rewrite Hsup|]; wp_steps.
    all: eapply wp_mono; [|by apply Hcreate].
    all: intros r w' (-> & Hst & Hcalls); cbv beta iota; wp_steps.
    all: unfold getattr; rewrite Hslug; wp_steps.
    all: split_and!; [done..|]; simpl; by rewrite Hcalls, app_nil_r.
  - rewrite Hname. wp_steps. rewrite Hpdf. wp_steps.
    unfold getattr at 1. rewrite Hslug. wp_steps. rewrite Hhost. wp_steps.
    eapply wp_mono; [|by apply Hcreate].
    intros r w' (-> & Hst & Hcalls); cbv beta iota; wp_steps.
    unfold getattr; rewrite Hslug; wp_steps.
    split_and!; [done..|]. simpl. by rewrite Hcalls.
Qed.

(** A talk for the wing of the demo world, its title given with blanks
    around it and no report. *)
Lemma create_activity_appends_one_row_witness :
  ∃ row w',
    admin.create_activity (λ _, 8) 1 "  Talk  " " A talk" (Date 2024 4 1) (Some " Dr. Rao ")
      None demo_admin demo_env demo_world = (Ok row, w')
    ∧ activities (store w') = [demo_activity; row]
    ∧ media_calls w' = []
    ∧ row !! "title" = Some (VStr "Talk")
    ∧ row !! "report_url" = Some VNone.
Proof.
  destruct (create_activity_appends_one_row demo_env demo_world (λ _, 8) 1 "  Talk  "
              " A talk" (Date 2024 4 1) (Some " Dr. Rao ") None demo_admin demo_wing
              (VStr "codezero") (VNone, VNone) [])
    as (w' & Hrun & Hrows & _ & _ & Hcalls & Htitle & _ & _ & _ & Hurl & _).
  - by_running.
  - by_running.
  - left. split_and!; reflexivity.
  - reflexivity.
  - eexists _, w'. split_and!; [exact Hrun|exact Hrows|exact Hcalls|exact Htitle|exact Hurl].
Defined.

(** ** Deleting an activity through the admin route *)

(** The best-effort deletion of a report: one call to the media host for
    a reference that is set, none otherwise; never an error, never a change
    of the store. *)
Lemma cleanup_report env w (activity : Obj) report_id :
  activity !! "report_cloudinary_id" = Some report_id →
  wp (if truthy report_id then
        try_except
          (report_id ← lift (getattr activity "report_cloudinary_id") ;
           delete_media report_id "raw")
          (λ e, logger WARNING ("Failed to delete PDF from Cloudinary: " +:+ str_exn e))
      else mret tt)
     env w (λ r w', r = Ok tt ∧ store w' = store w
                    ∧ media_calls w' = (media_calls w ++ report_cleanup report_id)%list).
Proof.
  intros Hid. unfold report_cleanup. destruct (truthy report_id); wp_steps.
  - unfold getattr. rewrite Hid. wp_steps.
    destruct (host_delete env report_id "raw"); wp_steps; done.
  - by rewrite app_nil_r.
Qed.

(** X8.  [delete_activity] of the admin route, for an activity that exists
    and a deletion the store takes: whatever the media host answers, the
    request succeeds and the row is gone; the media host was asked once to
    delete the report when the activity referred to one, and not at all
    otherwise.  For an identity that names no activity the request ends in
    [NotFoundError] with the world untouched. *)
Theorem delete_activity_removes_row_and_report
    (env : Env) (w : World) (id : Z) (current_admin : gmap string Value) :
  (∀ a report_id,
     where_eq "id" (VInt id) (activities (store w)) = [a] →
     a !! "report_cloudinary_id" = Some report_id →
     store_rejects env (without_activity id (store w)) = None →
     ∃ w', admin.delete_activity id current_admin env w
           = (Ok {[ "message" := "Activity deleted successfully" ]}, w')
       ∧ store w' = without_activity id (store w)
       ∧ ¬ has_id id (activities (store w'))
       ∧ media_calls w' = (media_calls w ++ report_cleanup report_id)%list)
  ∧ (where_eq "id" (VInt id) (activities (store w)) = [] →
     admin.delete_activity id current_admin env w
     = (Raise (Anvaya (NotFoundError "Activity" (Some (pretty id)) [])), w)).
Proof.
  split.
  - intros a report_id Heq Hid Hacc.
    cut (wp (admin.delete_activity id current_admin) env w
           (λ r w', r = Ok {[ "message" := "Activity deleted successfully" ]}
                    ∧ store w' = without_activity id (store w)
                    ∧ media_calls w' = (media_calls w ++ report_cleanup report_id)%list)).
    { intros (r & w' & Hrun & -> & Hst & Hcalls)%wp_elim. exists w'.
      split_and!; [done..| |done]. rewrite Hst. apply has_id_where_ne. }
    unfold admin.delete_activity. wp_steps. rewrite Heq. wp_steps.
    unfold getattr at 1. rewrite Hid. wp_steps.
    eapply wp_mono; [|by apply cleanup_report]. intros r w1 (-> & Hw1 & Hcalls1).
    cbv beta iota. wp_steps.
    eapply wp_run; [apply delete_activity_accepted; by rewrite Hw1|].
    wp_steps. by rewrite Hw1.
  - intros Heq. unfold admin.delete_activity, CRUDService.get_activity_by_id, mbind, M_bind,
      get_store. by rewrite Heq.
Qed.

(** The activity 7 of the demo world has a report: with the media host
    down it is deleted all the same, after one call for the report. *)
Lemma delete_activity_removes_row_and_report_witness :
  ∃ w', admin.delete_activity 7 demo_admin offline_env demo_world
        = (Ok {[ "message" := "Activity deleted successfully" ]}, w')
    ∧ media_calls w' = [DeleteMedia (VStr "anvaya/codezero/reports/r7") "raw"].
Proof.
  destruct (delete_activity_removes_row_and_report offline_env demo_world 7 demo_admin)
    as [H _].
  destruct (H demo_activity (VStr "anvaya/codezero/reports/r7"))
    as (w' & Hrun & _ & _ & Hcalls); [by_running | by_running | reflexivity |].
  exists w'. split; [exact Hrun|exact Hcalls].
Defined.

(** ** Replacing the report of an activity *)

Lemma wp_bind_inv {A B} env w (m : M A) (f : A → M B) (Q : Result B → World → Prop) :
  wp (m ≫= f) env w Q →
  wp m env w (λ r w', match r with
                      | Ok a => wp (f a) env w' Q
                      | Raise e => Q (Raise e) w'
                      end).
Proof. unfold wp, mbind, M_bind. by destruct (m env w) as [[a|e] w']. Qed.

Lemma cleanup_old_report_calls env w old_id :
  wp (if truthy old_id then
        try_except (delete_media old_id "raw")
          (λ e, logger WARNING ("Failed to delete old PDF: " +:+ str_exn e))
      else mret tt)
     env w (λ r w', r = Ok tt ∧ store w' = store w
                    ∧ media_calls w' = (media_calls w ++ report_cleanup old_id)%list).
Proof.
  unfold report_cleanup. destruct (truthy old_id); wp_steps.
  - destruct (host_delete env old_id "raw"); wp_steps; done.
  - by rewrite app_nil_r.
Qed.

(** The update handler up to the answer of the media host on the new
    report. *)
Lemma update_activity_with_report env w id title description activity_date
    faculty_coordinator file current_admin a old_id wing_id folder
    (Q : Result (option Obj) → World → Prop) :
  where_eq "id" (VInt id) (activities (store w)) = [a] →
  a !! "report_cloudinary_id" = Some old_id →
  a !! "wing_id" = Some wing_id →
  reports_folder (store w) wing_id folder →
  str_truthy (filename file) = true →
  admin.validate_pdf_file file = Ok tt →
  (∀ w1, store w1 = store w →
         media_calls w1 = (media_calls w ++ report_cleanup old_id ++ [UploadPdf file folder])%list →
         match host_upload_pdf env file folder with
         | inl text =>
             Q (Raise (Anvaya (ExternalServiceError "Cloudinary" "Failed to upload PDF report")))
               (logged w1 (ERROR, "Failed to upload PDF: " +:+ text))
         | inr asset =>
             wp (CRUDService.update_activity id
                   (<["report_cloudinary_id" := VStr (public_id asset)]>
                      (<["report_url" := VStr (url asset)]>
                         (supplied_fields title description activity_date
                            faculty_coordinator)))
                 ≫= λ updated_activity,
                   logger INFO ("Updated activity " +:+ pretty id +:+ " by "
                                +:+ str_opt (current_admin !! "sub")) ;;
                   mret updated_activity) env w1 Q
         end) →
  wp (admin.update_activity id title description activity_date faculty_coordinator
        (Some file) current_admin) env w Q.
Proof.
  intros Heq Hold Hwing Hfolder Hname Hpdf HQ.
  unfold admin.update_activity. wp_steps. rewrite Heq, Hname.
  set (update_data := match faculty_coordinator with Some _ => _ | None => _ end).
  assert (update_data
          = supplied_fields title description activity_date faculty_coordinator) as ->
    by reflexivity.
  wp_steps. rewrite Hpdf. wp_steps. unfold getattr at 1. rewrite Hold. wp_steps.
  eapply wp_mono; [|apply cleanup_old_report_calls]. intros r w1 (-> & Hw1 & Hcalls1).
  cbv beta iota. wp_steps. unfold getattr at 1. rewrite Hwing. wp_steps. rewrite Hw1.
  destruct Hfolder as [(wing & slug & -> & Hslug & ->)|[-> ->]]; wp_steps.
  - unfold getattr at 1. rewrite Hslug. wp_steps.
    match goal with
    | |- context [host_upload_pdf env file ?f] =>
        specialize (HQ {| store := store w1;
                          media_calls := media_calls w1 ++ [UploadPdf file f];
                          log := log w1 |} Hw1)
    end.
    specialize (HQ ltac:(simpl; by rewrite Hcalls1, <- app_assoc)).
    destruct (host_upload_pdf env file _) as [text|asset]; wp_steps;
      [exact HQ|apply wp_bind_inv; exact HQ].
  - match goal with
    | |- context [host_upload_pdf env file ?f] =>
        specialize (HQ {| store := store w1;
                          media_calls := media_calls w1 ++ [UploadPdf file f];
                          log := log w1 |} Hw1)
    end.
    specialize (HQ ltac:(simpl; by rewrite Hcalls1, <- app_assoc)).
    destruct (host_upload_pdf env file _) as [text|asset]; wp_steps;
      [exact HQ|apply wp_bind_inv; exact HQ].
Qed.

(** X9.  When the upload of a replacement report fails, the store is as it
    was, so the activity still refers to its old report, while the media
    host has already been asked to delete that report: the calls of the
    request are that deletion, if the activity referred to a report, and
    the upload that failed. *)
Theorem failed_replacement_has_requested_deletion
    (env : Env) (w : World) (id : Z) (title description : option string)
    (activity_date : option date) (faculty_coordinator : option string)
    (file : UploadFile) (current_admin : gmap string Value)
    (a : Obj) (old_id wing_id : Value) (folder text : string) :
  where_eq "id" (VInt id) (activities (store w)) = [a] →
  a !! "report_cloudinary_id" = Some old_id →
  a !! "wing_id" = Some wing_id →
  reports_folder (store w) wing_id folder →
  str_truthy (filename file) = true →
  admin.validate_pdf_file file = Ok tt →
  host_upload_pdf env file folder = inl text →
  ∃ w',
    admin.update_activity id title description activity_date faculty_coordinator
      (Some file) current_admin env w
    = (Raise (Anvaya (ExternalServiceError "Cloudinary" "Failed to upload PDF report")), w')
    ∧ media_calls w'
      = (media_calls w ++ report_cleanup old_id ++ [UploadPdf file folder])%list
    ∧ CRUDService.get_activity_by_id id env w' = (Ok (Some a), w').
Proof.
  intros Heq Hold Hwing Hfolder Hname Hpdf Hhost.
  cut (wp (admin.update_activity id title description activity_date faculty_coordinator
             (Some file) current_admin) env w
          (λ r w', r = Raise (Anvaya (ExternalServiceError "Cloudinary"
                                        "Failed to upload PDF report"))
                   ∧ store w' = store w
                   ∧ media_calls w'
                     = (media_calls w ++ report_cleanup old_id ++ [UploadPdf file folder])%list)).
  { intros (r & w' & Hrun & -> & Hst & Hcalls)%wp_elim. exists w'.
    split_and!; [done..|]. apply get_activity_by_id_found. by rewrite Hst. }
  eapply update_activity_with_report; [done..|].
  intros w1 Hw1 Hcalls1. by rewrite Hhost.
Qed.

(** With the media host down, replacing the report of the activity 7 of
    the demo world fails after the deletion of the old report was asked
    for. *)
Lemma failed_replacement_has_requested_deletion_witness :
  ∃ w',
    admin.update_activity 7 None None None None
      (Some {| filename := Some "report.pdf"; content := "%PDF" |}) demo_admin
      offline_env demo_world
    = (Raise (Anvaya (ExternalServiceError "Cloudinary" "Failed to upload PDF report")), w')
    ∧ media_calls w'
      = [DeleteMedia (VStr "anvaya/codezero/reports/r7") "raw";
         UploadPdf {| filename := Some "report.pdf"; content := "%PDF" |}
           "anvaya/codezero/reports"].
Proof.
  destruct (failed_replacement_has_requested_deletion offline_env demo_world 7 None None None
              None {| filename := Some "report.pdf"; content := "%PDF" |} demo_admin
              demo_activity (VStr "anvaya/codezero/reports/r7") (VInt 1)
              "anvaya/codezero/reports" "connection timed out")
    as (w' & Hrun & Hcalls & _).
  - by_running.
  - by_running.
  - by_running.
  - left. exists demo_wing, (VStr "codezero"). split_and!; [by_running|by_running|reflexivity].
  - reflexivity.
  - by vm_compute.
  - reflexivity.
  - exists w'. split; [exact Hrun|exact Hcalls].
Defined.

(** What the mapping built from the request holds under each key. *)
Lemma supplied_fields_lookup (title description : option string)
    (activity_date : option date) (faculty_coordinator : option string) :
  let update_data := supplied_fields title description activity_date faculty_coordinator in
  update_data !! "title" = (λ t, VStr (strip t)) <$> title
  ∧ update_data !! "description" = (λ d, VStr (strip d)) <$> description
  ∧ update_data !! "activity_date" = VDate <$> activity_date
  ∧ update_data !! "faculty_coordinator"
    = (λ c, coordinator_value (Some c)) <$> faculty_coordinator
  ∧ update_data !! "report_url" = None
  ∧ update_data !! "report_cloudinary_id" = None.
Proof.
  unfold supplied_fields.
  destruct title, description, activity_date, faculty_coordinator;
    split_and!; by simplify_map_eq.
Qed.

(** X10.  When the media host takes the replacement report and the store the
    update, the activity returned carries the URL and the identifier of the
    new asset, both together; its title, description, date and faculty
    coordinator are those the request supplied (title, description and
    coordinator without surrounding white space, an empty coordinator as
    [None]) and, for a field the request left out, those the activity had;
    every other field is kept; the old report was asked to be deleted
    before the upload. *)
Theorem replacement_sets_both_references
    (env : Env) (w : World) (id : Z) (title description : option string)
    (activity_date : option date) (faculty_coordinator : option string)
    (file : UploadFile) (current_admin : gmap string Value)
    (a : Obj) (old_id old_url wing_id : Value) (folder : string) (asset : UploadResult) :
  where_eq "id" (VInt id) (activities (store w)) = [a] →
  a !! "report_cloudinary_id" = Some old_id →
  a !! "report_url" = Some old_url →
  a !! "wing_id" = Some wing_id →
  reports_folder (store w) wing_id folder →
  str_truthy (filename file) = true →
  admin.validate_pdf_file file = Ok tt →
  host_upload_pdf env file folder = inr asset →
  let update_data :=
    <["report_cloudinary_id" := VStr (public_id asset)]>
      (<["report_url" := VStr (url asset)]>
         (supplied_fields title description activity_date faculty_coordinator)) in
  store_rejects env (with_activity id (CRUDService.apply_update a update_data) (store w))
  = None →
  ∃ a' w',
    admin.update_activity id title description activity_date faculty_coordinator
      (Some file) current_admin env w = (Ok (Some a'), w')
    ∧ a' !! "report_url" = Some (VStr (url asset))
    ∧ a' !! "report_cloudinary_id" = Some (VStr (public_id asset))
    ∧ (∀ old, a !! "title" = Some old →
         a' !! "title" = Some (from_option (λ t, VStr (strip t)) old title))
    ∧ (∀ old, a !! "description" = Some old →
         a' !! "description" = Some (from_option (λ d, VStr (strip d)) old description))
    ∧ (∀ old, a !! "activity_date" = Some old →
         a' !! "activity_date" = Some (from_option VDate old activity_date))
    ∧ (∀ old, a !! "faculty_coordinator" = Some old →
         a' !! "faculty_coordinator"
         = Some (from_option (λ c, coordinator_value (Some c)) old faculty_coordinator))
    ∧ (∀ k, update_data !! k = None → a' !! k = a !! k)
    ∧ store w' = with_activity id a' (store w)
    ∧ media_calls w'
      = (media_calls w ++ report_cleanup old_id ++ [UploadPdf file folder])%list.
Proof.
  intros Heq Hold Hurl Hwing Hfolder Hname Hpdf Hhost update_data Hacc.
  cut (wp (admin.update_activity id title description activity_date faculty_coordinator
             (Some file) current_admin) env w
          (λ r w', r = Ok (Some (CRUDService.apply_update a update_data))
                   ∧ store w' = with_activity id (CRUDService.apply_update a update_data)
                                              (store w)
                   ∧ media_calls w'
                     = (media_calls w ++ report_cleanup old_id ++ [UploadPdf file folder])%list)).
  { intros (r & w' & Hrun & -> & Hst & Hcalls)%wp_elim.
    exists (CRUDService.apply_update a update_data), w'.
    destruct (supplied_fields_lookup title description activity_date faculty_coordinator)
      as (Htitle & Hdescription & Hdate & Hcoordinator & _).
    split_and!; [done| | | | | | | |done..].
    - rewrite apply_update_lookup, Hurl. unfold update_data.
      by rewrite lookup_insert_ne, lookup_insert_eq.
    - rewrite apply_update_lookup, Hold. unfold update_data. by rewrite lookup_insert_eq.
    - intros old Hfield. rewrite apply_update_lookup, Hfield. unfold update_data.
      rewrite !lookup_insert_ne, Htitle by done. by destruct title.
    - intros old Hfield. rewrite apply_update_lookup, Hfield. unfold update_data.
      rewrite !lookup_insert_ne, Hdescription by done. by destruct description.
    - intros old Hfield. rewrite apply_update_lookup, Hfield. unfold update_data.
      rewrite !lookup_insert_ne, Hdate by done. by destruct activity_date.
    - intros old Hfield. rewrite apply_update_lookup, Hfield. unfold update_data.
      rewrite !lookup_insert_ne, Hcoordinator by done. by destruct faculty_coordinator.
    - intros k Hk. by apply apply_update_keeps. }
  eapply update_activity_with_report; [done..|].
  intros w1 Hw1 Hcalls1. rewrite Hhost. fold update_data. wp_steps.
  eapply wp_run.
  - apply (update_activity_accepted env w1 id update_data a); rewrite Hw1; done.
  - wp_steps. by rewrite Hw1.
Qed.

(** The report of the activity 7 of the demo world is replaced. *)
Lemma replacement_sets_both_references_witness :
  ∃ a' w',
    admin.update_activity 7 (Some " Demo day ") None None None
      (Some {| filename := Some "report.pdf"; content := "%PDF" |}) demo_admin
      demo_env demo_world = (Ok (Some a'), w')
    ∧ a' !! "report_url" = Some (VStr "https://cdn.example/anvaya/codezero/reports/report.pdf")
    ∧ a' !! "report_cloudinary_id" = Some (VStr "anvaya/codezero/reports/report.pdf")
    ∧ a' !! "title" = Some (VStr "Demo day").
Proof.
  destruct (replacement_sets_both_references demo_env demo_world 7 (Some " Demo day ") None
              None None {| filename := Some "report.pdf"; content := "%PDF" |} demo_admin
              demo_activity (VStr "anvaya/codezero/reports/r7")
              (VStr "https://cdn.example/anvaya/codezero/reports/r7.pdf") (VInt 1)
              "anvaya/codezero/reports"
              (demo_asset "anvaya/codezero/reports"
                 {| filename := Some "report.pdf"; content := "%PDF" |}))
    as (a' & w' & Hrun & Hurl & Hid & Htitle & _).
  - by_running.
  - by_running.
  - by_running.
  - by_running.
  - left. exists demo_wing, (VStr "codezero"). split_and!; [by_running|by_running|reflexivity].
  - reflexivity.
  - by vm_compute.
  - reflexivity.
  - reflexivity.
  - exists a', w'. split_and!; [exact Hrun|exact Hurl|exact Hid|].
    apply (Htitle (VStr "Hack night")). by_running.
Defined.

(** ** Pages of rows *)

Lemma StronglySorted_sublist {A} (R : A → A → Prop) (l1 l2 : list A) :
  l1 `sublist_of` l2 → StronglySorted R l2 → StronglySorted R l1.
Proof.
  induction 1 as [|x l1 l2 Hsub IH|x l1 l2 Hsub IH]; intros Hsorted; [constructor|..].
  - apply StronglySorted_inv in Hsorted as [Hl2 Hx]. constructor; [by apply IH|].
    rewrite Forall_forall in Hx |- *. intros y Hy. apply Hx. by eapply elem_of_sublist.
  - apply StronglySorted_inv in Hsorted as [Hl2 _]. by apply IH.
Qed.

(** What [limit] and [offset] do to any list of rows in order. *)
Lemma page_of_rows {A} (rows : list A) (limit offset : Z) :
  0 ≤ limit → 0 ≤ offset →
  Z.of_nat (length (limit_rows limit (offset_rows offset rows))) ≤ limit
  ∧ limit_rows limit (offset_rows offset rows) `sublist_of` rows
  ∧ (∀ limit', 0 ≤ limit' →
       limit_rows (limit + limit') (offset_rows offset rows)
       = (limit_rows limit (offset_rows offset rows)
         ++ limit_rows limit' (offset_rows (offset + limit) rows))%list)
  ∧ (Z.of_nat (length (limit_rows limit (offset_rows offset rows))) < limit →
     ∀ limit', limit_rows limit' (offset_rows (offset + limit) rows) = []).
Proof.
  intros Hlimit Hoffset. unfold limit_rows, offset_rows. split_and!.
  - rewrite length_take. lia.
  - etrans; [apply sublist_take|apply sublist_drop].
  - intros limit' Hlimit'. rewrite !Z2Nat.inj_add by lia.
    by rewrite <- drop_drop, take_take_drop.
  - rewrite length_take, length_drop. intros Hshort limit'.
    rewrite Z2Nat.inj_add by lia. rewrite drop_ge; [by destruct (Z.to_nat limit')|]. lia.
Qed.

Lemma order_by_desc_sorted col rows :
  StronglySorted (λ r1 r2, order_key (r2 !! col) ≤ order_key (r1 !! col))
                 (order_by_desc col rows).
Proof. apply (sort_desc_sorted (λ r : Obj, order_key (r !! col))). Qed.

Lemma elem_of_order_by_desc col rows r : r ∈ order_by_desc col rows ↔ r ∈ rows.
Proof. apply elem_of_sort_desc. Qed.

Lemma order_by_desc_ordered col rows : ordered_desc col rows (order_by_desc col rows).
Proof.
  split; [apply (sort_desc_perm (λ r : Obj, order_key (r !! col)))|].
  apply order_by_desc_sorted.
Qed.

Lemma NoDup_fmap_elem_inj {A B} (f : A → B) (l : list A) (x y : A) :
  NoDup (f <$> l) → x ∈ l → y ∈ l → f x = f y → x = y.
Proof.
  induction l as [|a l IH]; [by intros _ ?%elem_of_nil|].
  rewrite fmap_cons, NoDup_cons. intros [Ha Hl].
  intros [->|Hx]%elem_of_cons [->|Hy]%elem_of_cons Hxy; [done| | |by apply IH].
  - exfalso. apply Ha. rewrite Hxy. by apply list_elem_of_fmap_2.
  - exfalso. apply Ha. rewrite <- Hxy. by apply list_elem_of_fmap_2.
Qed.

(** Rows whose keys differ have one listing in descending order. *)
Lemma ordered_desc_unique col rows listing1 listing2 :
  NoDup ((λ r : Obj, order_key (r !! col)) <$> rows) →
  ordered_desc col rows listing1 → ordered_desc col rows listing2 →
  listing1 = listing2.
Proof.
  intros Hkeys [Hperm1 Hsorted1] [Hperm2 Hsorted2].
  eapply StronglySorted_unique_strong; [|exact Hsorted1|exact Hsorted2|by rewrite Hperm1].
  intros r1 r2 Hr1 Hr2 Hle Hge. cbv beta in Hle, Hge.
  apply (NoDup_fmap_elem_inj (λ r : Obj, order_key (r !! col)) rows);
    [done|by rewrite <- Hperm1|by rewrite <- Hperm2|]. cbv beta. lia.
Qed.

(** X11.  [get_photos_by_wing] with a limit and an offset that are not negative
    answers, without touching the world, with at most [limit] photos, all of
    the wing, the later upload first.  When no two photos of the wing share
    their upload time, the order is the same whichever way the database
    lists rows of equal key: the page is that part of the one listing in
    descending order; the page that follows starts at [offset + limit], the
    two together are the page of [limit + limit'] at [offset], and after a
    page shorter than its limit every page is empty. *)
Theorem photo_pages_tile_the_listing
    (env : Env) (w : World) (wing_id : Value) (limit offset : Z) :
  0 ≤ limit → 0 ≤ offset →
  ∃ page,
    CRUDService.get_photos_by_wing wing_id limit offset env w = (Ok page, w)
    ∧ Z.of_nat (length page) ≤ limit
    ∧ (∀ r, r ∈ page → r ∈ photos (store w) ∧ sql_eq (r !! "wing_id") wing_id = true)
    ∧ StronglySorted (λ r1 r2, order_key (r2 !! "uploaded_at")
                               ≤ order_key (r1 !! "uploaded_at")) page
    ∧ (NoDup ((λ r : Obj, order_key (r !! "uploaded_at"))
                <$> where_eq "wing_id" wing_id (photos (store w))) →
       (∀ listing,
          ordered_desc "uploaded_at" (where_eq "wing_id" wing_id (photos (store w))) listing →
          page = limit_rows limit (offset_rows offset listing))
       ∧ (∀ limit', 0 ≤ limit' →
            ∃ next,
              CRUDService.get_photos_by_wing wing_id limit' (offset + limit) env w
              = (Ok next, w)
              ∧ CRUDService.get_photos_by_wing wing_id (limit + limit') offset env w
                = (Ok (page ++ next)%list, w)
              ∧ (Z.of_nat (length page) < limit → next = []))).
Proof.
  intros Hlimit Hoffset. eexists. split; [reflexivity|].
  set (rows := order_by_desc "uploaded_at" (where_eq "wing_id" wing_id (photos (store w)))).
  destruct (page_of_rows rows limit offset Hlimit Hoffset) as (Hlen & Hsub & Hnext & Hlast).
  split_and!.
  - done.
  - intros r Hr. eapply elem_of_sublist in Hr; [|exact Hsub].
    apply elem_of_order_by_desc, list_elem_of_filter in Hr. tauto.
  - eapply StronglySorted_sublist; [exact Hsub|apply order_by_desc_sorted].
  - intros Hkeys. split.
    + intros listing Hlisting.
      by rewrite (ordered_desc_unique _ _ listing rows Hkeys Hlisting
                    (order_by_desc_ordered _ _)).
    + intros limit' Hlimit'. eexists. split; [reflexivity|]. split.
      * unfold CRUDService.get_photos_by_wing, mbind, M_bind, get_store, mret, M_ret.
        fold rows. by rewrite Hnext.
      * intros Hshort. by apply Hlast.
Qed.

(** The one photo of the demo wing: a page of five holds it, and the page
    behind it is empty. *)
Lemma photo_pages_tile_the_listing_witness :
  ∃ page,
    CRUDService.get_photos_by_wing (VInt 1) 5 0 demo_env demo_world = (Ok page, demo_world)
    ∧ Z.of_nat (length page) ≤ 5
    ∧ CRUDService.get_photos_by_wing (VInt 1) 5 5 demo_env demo_world = (Ok [], demo_world).
Proof.
  destruct (photo_pages_tile_the_listing demo_env demo_world (VInt 1) 5 0)
    as (page & Hrun & Hlen & _ & _ & Hpages); [lia | lia |].
  exists page. split; [exact Hrun|]. split; [exact Hlen|].
  destruct Hpages as [_ Hnext]; [by_running|].
  destruct (Hnext 5) as (next & Hrun' & _ & Hempty); [lia|].
  transitivity (Ok next, demo_world); [exact Hrun'|]. rewrite Hempty; [reflexivity|].
  injection Hrun as <-. by vm_compute.
Defined.

(** ** Statistics over the store *)

Lemma filter_none {A} (P : A → Prop) `{!∀ x, Decision (P x)} (l : list A) :
  (∀ x, x ∈ l → ¬ P x) → filter P l = [].
Proof.
  induction l as [|x l IH]; intros Hno; [done|].
  rewrite filter_cons, decide_False by (apply Hno; left).
  apply IH. intros y Hy. apply Hno. by right.
Qed.

Lemma wings_with_id (ws : list Obj) (k : Value) (wing : Obj) :
  NoDup ((λ wing : Obj, wing !! "id") <$> ws) →
  wing ∈ ws → wing !! "id" = Some k →
  length (filter (λ w : Obj, w !! "id" = Some k) ws) = 1%nat.
Proof.
  induction ws as [|w ws IH]; intros Hnd Hin Hid; [by apply elem_of_nil in Hin|].
  rewrite fmap_cons in Hnd. apply NoDup_cons in Hnd as [Hw Hnd].
  rewrite filter_cons. destruct (decide (w !! "id" = Some k)) as [Hk|Hk].
  - rewrite filter_none; [done|]. intros w' Hw' Hid'. apply Hw.
    apply list_elem_of_fmap. exists w'. split; [congruence|done].
  - apply IH; [done| |done]. apply elem_of_cons in Hin as [->|Hin]; done.
Qed.

(** The joined rows of one activity. *)
Lemma joined_rows_of_activity (year : option Z) (k : Value) (a : Obj) (ws : list Obj) :
  length (filter (counts_for year k) (ws ≫= λ w, [(a, w)]))
  = if decide (in_year year a)
    then length (filter (λ w : Obj, w !! "id" = Some k) ws) else 0%nat.
Proof.
  induction ws as [|w ws IH]; [by destruct (decide _)|].
  rewrite bind_cons, filter_app, length_app, IH, !filter_cons, !filter_nil.
  destruct (decide (in_year year a)) as [Hy|Hy];
    destruct (decide (w !! "id" = Some k)) as [Hw|Hw].
  - by rewrite (decide_True (P := counts_for year k (a, w))) by by split.
  - by rewrite (decide_False (P := counts_for year k (a, w))) by by intros [_ ?].
  - by rewrite (decide_False (P := counts_for year k (a, w))) by by intros [? _].
  - by rewrite (decide_False (P := counts_for year k (a, w))) by by intros [? _].
Qed.

Lemma matching_wings (k : Value) (a : Obj) (ws : list Obj) :
  k ≠ VNone →
  filter (λ w : Obj, w !! "id" = Some k)
         (filter (λ w : Obj, sql_eq (w !! "id") (default VNone (a !! "wing_id")) = true) ws)
  = if decide (a !! "wing_id" = Some k)
    then filter (λ w : Obj, w !! "id" = Some k) ws else [].
Proof.
  intros Hk. rewrite list_filter_filter. destruct (decide (a !! "wing_id" = Some k)) as [Ha|Ha].
  - apply list_filter_iff. intros w. rewrite Ha. simpl. split; [tauto|].
    intros Hw. split; [done|]. rewrite Hw. simpl.
    by rewrite bool_decide_true, bool_decide_false.
  - apply filter_none. intros w _ [Hw Hm]. rewrite Hw in Hm. simpl in Hm.
    apply andb_true_iff in Hm as [Heq%bool_decide_eq_true _].
    destruct (a !! "wing_id") as [u|]; simpl in Heq; congruence.
Qed.

(** What the join yields for one wing: a row for each of its activities. *)
Lemma joined_rows_of_wing (s : Store) (year : option Z) (k : Value) (wing : Obj) :
  NoDup ((λ wing : Obj, wing !! "id") <$> wings s) →
  wing ∈ wings s → wing !! "id" = Some k → k ≠ VNone →
  length (filter (counts_for year k)
            (a ← activities s ;
             w ← filter (λ w : Obj, sql_eq (w !! "id") (default VNone (a !! "wing_id")) = true)
                        (wings s) ;
             [(a, w)]))
  = length (activities_of s year k).
Proof.
  intros Hnd Hin Hid Hk. unfold activities_of.
  induction (activities s) as [|a rows IH]; [done|].
  rewrite bind_cons, filter_app, length_app, IH, joined_rows_of_activity, filter_cons.
  rewrite matching_wings by done.
  destruct (decide (in_year year a)) as [Hy|Hy];
    destruct (decide (a !! "wing_id" = Some k)) as [Ha|Ha].
  - rewrite decide_True by done. by rewrite (wings_with_id _ _ wing).
  - by rewrite decide_False by tauto.
  - by rewrite decide_False by tauto.
  - by rewrite decide_False by tauto.
Qed.

Lemma elem_of_joined_rows (s : Store) (a wing : Obj) :
  (a, wing) ∈ (a ← activities s ;
               w ← filter (λ w : Obj, sql_eq (w !! "id") (default VNone (a !! "wing_id")) = true)
                          (wings s) ;
               [(a, w)])
  ↔ a ∈ activities s ∧ wing ∈ wings s
    ∧ ∃ k, k ≠ VNone ∧ a !! "wing_id" = Some k ∧ wing !! "id" = Some k.
Proof.
  rewrite list_elem_of_bind. setoid_rewrite list_elem_of_bind.
  setoid_rewrite list_elem_of_singleton. setoid_rewrite list_elem_of_filter.
  assert (∀ a wing : Obj,
            sql_eq (wing !! "id") (default VNone (a !! "wing_id")) = true
            ↔ ∃ k, k ≠ VNone ∧ a !! "wing_id" = Some k ∧ wing !! "id" = Some k) as Hmatch.
  { clear. intros a wing. unfold sql_eq.
    destruct (wing !! "id") as [u|]; [|naive_solver].
    rewrite andb_true_iff, bool_decide_eq_true, negb_true_iff, bool_decide_eq_false.
    destruct (a !! "wing_id") as [v|]; simpl; naive_solver. }
  split.
  - intros (a' & (w' & [= <- <-] & Hm & Hw) & Ha). by rewrite <- Hmatch.
  - intros (Ha & Hw & Hm). exists a. split; [|done]. exists wing. by rewrite Hmatch.
Qed.

(** X12.  The statistics, read against the store.  With the identities of the
    wings distinct, an answer of [get_activity_statistics] leaves the world
    as it was; each of its entries carries the identity, name and slug of a
    wing of the store and counts the activities of the store that refer to
    this wing and fall in the year asked for; and every wing with such an
    activity has an entry. *)
Theorem statistics_count_the_activities_of_each_wing
    (env : Env) (w w' : World) (year : option Z) (stats : Statistics) :
  NoDup ((λ wing : Obj, wing !! "id") <$> wings (store w)) →
  get_activity_statistics year env w = (Ok stats, w') →
  w' = w
  ∧ (∀ e, e ∈ statistics stats →
       (∃ wing, wing ∈ wings (store w)
                ∧ wing !! "id" = Some (wing_id e)
                ∧ wing !! "name" = Some (wing_name e)
                ∧ wing !! "slug" = Some (wing_slug e))
       ∧ activity_count e = Z.of_nat (length (activities_of (store w) year (wing_id e))))
  ∧ (∀ wing k, wing ∈ wings (store w) → wing !! "id" = Some k →
       activities_of (store w) year k ≠ [] → k ≠ VNone →
       k ∈ wing_id <$> statistics stats).
Proof.
  intros Hnd.
  unfold get_activity_statistics, CRUDService.get_all_activities_with_wings.
  unfold mbind, M_bind, get_store, mret, M_ret, lift. cbn beta iota.
  intros [= Hrun <-]. split; [done|].
  match type of Hrun with aggregate ?r _ = _ => set (rows := r) in * end.
  assert (∀ k wing, wing ∈ wings (store w) → wing !! "id" = Some k → k ≠ VNone →
            length (filter (counts_for year k) rows)
            = length (activities_of (store w) year k)) as Hcount.
  { intros k wing Hin Hid Hk. unfold rows. rewrite sort_desc_perm.
    by apply (joined_rows_of_wing _ _ _ wing). }
  assert (∀ a wing, (a, wing) ∈ rows →
            a ∈ activities (store w) ∧ wing ∈ wings (store w)
            ∧ ∃ k, k ≠ VNone ∧ a !! "wing_id" = Some k ∧ wing !! "id" = Some k) as Hrows.
  { intros a wing. unfold rows. rewrite elem_of_sort_desc. apply elem_of_joined_rows. }
  destruct (aggregate_Ok _ _ _ Hrun) as (ws & ys & Hloop & Hstats & _).
  destruct (count_rows_invariant _ _ _ _ Hloop) as (Hkeys & Hassoc & _ & Hnamed).
  split.
  - intros e He.
    destruct (tally_Some _ _ _ _ (elem_of_statistics _ _ _ _ Hrun He))
      as ([a wing] & _ & Hname & Hslug & Hn & _ & Hin & Hc & Hid).
    simpl in *. destruct (Hrows _ _ Hin) as (_ & Hwing & k & Hk & _ & Hid').
    assert (k = wing_id e) as -> by congruence.
    rewrite Forall_forall in Hnamed.
    destruct (Hnamed _ Hin Hc) as [[name Hn'] [slug Hs']]. simpl in *.
    rewrite Hn' in Hname. rewrite Hs' in Hslug. simpl in *. subst.
    split.
    + exists wing. by rewrite Hn', Hs'.
    + rewrite Hn. f_equal. by apply (Hcount _ wing).
  - intros wing k Hwing Hid Hsome Hk.
    rewrite Hstats, sort_desc_perm, <- list_fmap_compose.
    change (wing_id ∘ to_entry) with (fst : Value * WingStat → Value).
    destruct (assoc k ws) as [st|] eqn:Hst.
    + apply elem_of_assoc in Hst; [|done]. apply list_elem_of_fmap. by exists (k, st).
    + exfalso. rewrite Hassoc in Hst. unfold tally in Hst.
      destruct (filter (counts_for year k) rows) as [|r l] eqn:Hf using rev_ind.
      * apply Hsome. apply length_zero_iff_nil.
        rewrite <- (Hcount k wing) by done. by rewrite Hf.
      * by rewrite last_snoc in Hst.
Qed.

(** The demo store, with no year asked for. *)
Lemma statistics_count_the_activities_of_each_wing_witness :
  ∃ stats,
    get_activity_statistics None demo_env demo_world = (Ok stats, demo_world)
    ∧ ∀ e, e ∈ statistics stats →
        activity_count e = Z.of_nat (length (activities_of demo_store None (wing_id e))).
Proof.
  destruct (get_activity_statistics None demo_env demo_world) as [[stats|e] w'] eqn:Hrun;
    [|vm_compute in Hrun; discriminate].
  destruct (statistics_count_the_activities_of_each_wing demo_env demo_world w' None stats)
    as (-> & Hentries & _).
  - by_running.
  - exact Hrun.
  - exists stats. split; [reflexivity|]. intros e He. by destruct (Hentries e He).
Defined.

(** ** Reading through the public routes *)

Lemma get_wing_by_slug_missing env w slug :
  where_eq "slug" (VStr slug) (wings (store w)) = [] →
  CRUDService.get_wing_by_slug slug env w = (Ok None, w).
Proof.
  intros Heq. unfold CRUDService.get_wing_by_slug, mbind, M_bind, get_store.
  by rewrite Heq.
Qed.


(** X13.  A slug that no wing of the store carries: the photo listing and the
    activity listing of the wing both raise the same [NotFoundError], with
    the world untouched; it is answered with status 404 and a body that
    names the resource and the slug. *)
Theorem unknown_slug_answers_not_found
    (env : Env) (w : World) (slug : string) (limit offset : Z) :
  where_eq "slug" (VStr slug) (wings (store w)) = [] →
  ∃ e,
    get_wing_photos slug limit offset env w = (Raise (Anvaya e), w)
    ∧ get_wing_activities slug env w = (Raise (Anvaya e), w)
    ∧ response_status (Anvaya e) = 404
    ∧ to_dict e
      = <["details" := JObj {[ "resource" := "Wing"; "slug" := slug ]}]>
          {[ "detail" := JStr ("Wing not found (slug='" +:+ slug +:+ "')");
             "error_code" := JStr "NOT_FOUND" ]}.
Proof.
  intros Hnone. exists (NotFoundError "Wing" None [("slug", slug)]). split_and!.
  - unfold get_wing_photos, mbind, M_bind at 1. by rewrite get_wing_by_slug_missing.
  - unfold get_wing_activities, mbind, M_bind at 1. by rewrite get_wing_by_slug_missing.
  - done.
  - unfold to_dict.
    assert (details (NotFoundError "Wing" None [("slug", slug)])
            = {[ "resource" := "Wing"; "slug" := slug ]}) as ->.
    { simpl. rewrite <- !insert_empty. by apply insert_insert_ne. }
    rewrite bool_decide_true by apply insert_non_empty.
    simpl. rewrite !string_app_assoc. reflexivity.
Qed.

Lemma unknown_slug_answers_not_found_witness :
  ∃ e, get_wing_activities "robotics" demo_env demo_world = (Raise (Anvaya e), demo_world)
     ∧ response_status (Anvaya e) = 404.
Proof.
  destruct (unknown_slug_answers_not_found demo_env demo_world "robotics" 100 0)
    as (e & _ & Hrun & Hstatus & _); [by_running|].
  exists e. split; [exact Hrun|exact Hstatus].
Defined.

Lemma pretty_N_go_not_empty (x : N) (s : string) : s ≠ "" → pretty_N_go x s ≠ "".
Proof.
  revert s. induction (N.lt_wf_0 x) as [x _ IH]; intros s Hs.
  assert (x = 0 ∨ 0 < x)%N as [->|Hx] by lia.
  - by rewrite pretty_N_go_0.
  - rewrite pretty_N_go_step by done. apply IH; [|done]. by apply N.div_lt.
Qed.

Lemma pretty_Z_not_empty (x : Z) : pretty x ≠ "".
Proof.
  destruct x as [|p|p]; [done| |done].
  unfold pretty, pretty_Z, pretty, pretty_positive, pretty, pretty_N.
  rewrite decide_False by done. rewrite pretty_N_go_step by lia.
  by apply pretty_N_go_not_empty.
Qed.

(** X14.  An identity that no activity of the store carries: [get_activity]
    raises a [NotFoundError] with the world untouched, answered with status
    404 and a body that quotes the identity and names the resource. *)
Theorem unknown_activity_answers_not_found (env : Env) (w : World) (activity_id : Z) :
  ¬ has_id activity_id (activities (store w)) →
  ∃ e,
    get_activity activity_id env w = (Raise (Anvaya e), w)
    ∧ response_status (Anvaya e) = 404
    ∧ to_dict e
      = <["details" := JObj {[ "resource" := "Activity" ]}]>
          {[ "detail" := JStr ("Activity with identifier '" +:+ pretty activity_id
                               +:+ "' not found");
             "error_code" := JStr "NOT_FOUND" ]}.
Proof.
  intros Hnone. exists (NotFoundError "Activity" (Some (pretty activity_id)) []). split_and!.
  - unfold get_activity, mbind, M_bind at 1. rewrite get_activity_by_id_missing; [done|].
    rewrite has_id_where_eq in Hnone. by apply dec_stable in Hnone.
  - done.
  - unfold to_dict. simpl details. rewrite bool_decide_true by apply insert_non_empty.
    unfold message, str_truthy.
    destruct (String.eqb_spec (pretty activity_id) "") as [Hempty|_];
      [by apply pretty_Z_not_empty in Hempty|].
    done.
Qed.

Lemma unknown_activity_answers_not_found_witness :
  ∃ e, get_activity 8 demo_env demo_world = (Raise (Anvaya e), demo_world)
     ∧ response_status (Anvaya e) = 404.
Proof.
  destruct (unknown_activity_answers_not_found demo_env demo_world 8)
    as (e & Hrun & Hstatus & _); [by_running|].
  exists e. split; [exact Hrun|exact Hstatus].
Defined.






(** ** Photos, inserted and read back *)

Lemma inserted_photo_id (s : Store) (i : nat) (p : Obj) :
  is_null (p !! "id") = true →
  inserted_photo s i p !! "id" = Some (VInt (photo_seq s + Z.of_nat i)).
Proof.
  intros Hnull. unfold inserted_photo. rewrite Hnull. cbv zeta.
  destruct (is_null (_ !! "uploaded_at"));
    [rewrite lookup_insert_ne by done|]; by rewrite lookup_insert_eq.
Qed.

(** Rows numbered from [base] on: the one with a given number. *)
Lemma where_eq_numbered (rows : list Obj) (base : Z) (i : nat) (row : Obj) :
  (∀ j r, rows !! j = Some r → r !! "id" = Some (VInt (base + Z.of_nat j))) →
  rows !! i = Some row →
  where_eq "id" (VInt (base + Z.of_nat i)) rows = [row].
Proof.
  revert base i. induction rows as [|r rows IH]; intros base i Hids Hi; [done|].
  unfold where_eq. rewrite filter_cons. destruct i as [|i]; simpl in Hi.
  - injection Hi as ->. rewrite decide_True by (apply sql_eq_int; exact (Hids 0%nat row eq_refl)).
    f_equal. apply filter_none. intros r' Hr' Hid. apply sql_eq_int in Hid.
    apply list_elem_of_lookup in Hr' as [j Hj].
    specialize (Hids (S j) r' Hj). rewrite Hid in Hids. injection Hids. lia.
  - rewrite decide_False.
    + replace (base + Z.of_nat (S i)) with ((base + 1) + Z.of_nat i) by lia.
      apply IH; [|done]. intros j r' Hj.
      rewrite (Hids (S j) r' Hj). do 2 f_equal. lia.
    + rewrite sql_eq_int, (Hids 0%nat r eq_refl). intros [=]. lia.
Qed.

Lemma where_eq_numbered_other (rows : list Obj) (base n : Z) :
  (∀ j r, rows !! j = Some r → r !! "id" = Some (VInt (base + Z.of_nat j))) →
  n < base → where_eq "id" (VInt n) rows = [].
Proof.
  intros Hids Hn. apply filter_none. intros r Hr Hid. apply sql_eq_int in Hid.
  apply list_elem_of_lookup in Hr as [j Hj].
  specialize (Hids j r Hj). rewrite Hid in Hids. injection Hids. lia.
Qed.

(** X18.  New photos, inserted in bulk into a store whose identities lie below
    its counter and which takes the insert: each row of the answer has the
    identity that follows the counter by its place in the batch and is what
    [get_photo_by_id] then finds under that identity; a photo the store held
    is found as before; and the identities again lie below the counter. *)
Theorem created_photos_are_read_back (env : Env) (w : World) (new : list Obj) :
  photo_ids_below_seq (store w) →
  Forall (λ p : Obj, is_null (p !! "id") = true) new →
  store_rejects env (with_photos (store w) (imap (inserted_photo (store w)) new)) = None →
  ∃ rows w',
    CRUDService.create_photos_bulk new env w = (Ok rows, w')
    ∧ length rows = length new
    ∧ photo_seq (store w') = photo_seq (store w) + Z.of_nat (length new)
    ∧ (∀ i row, rows !! i = Some row →
         row !! "id" = Some (VInt (photo_seq (store w) + Z.of_nat i))
         ∧ CRUDService.get_photo_by_id (photo_seq (store w) + Z.of_nat i) env w'
           = (Ok (Some row), w'))
    ∧ (∀ id old, CRUDService.get_photo_by_id id env w = (Ok (Some old), w) →
         CRUDService.get_photo_by_id id env w' = (Ok (Some old), w'))
    ∧ photo_ids_below_seq (store w').
Proof.
  intros Hbelow Hnew Hacc. eexists _, _. split; [by apply create_photos_bulk_accepted|].
  set (s := store w) in *. set (rows := imap (inserted_photo s) new) in *.
  assert (∀ j r, rows !! j = Some r → r !! "id" = Some (VInt (photo_seq s + Z.of_nat j)))
    as Hids.
  { intros j r. unfold rows. rewrite list_lookup_imap.
    destruct (new !! j) as [p|] eqn:Hp; simpl; [|done]. intros [= <-].
    apply inserted_photo_id. rewrite Forall_forall in Hnew.
    apply Hnew. by eapply list_elem_of_lookup_2. }
  assert (∀ n, photo_seq s ≤ n → where_eq "id" (VInt n) (photos s) = []) as Hold.
  { intros n Hn. apply filter_none. intros r Hr Hid. apply sql_eq_int in Hid.
    specialize (Hbelow r n Hr Hid). lia. }
  split_and!.
  - unfold rows. by rewrite length_imap.
  - simpl. unfold rows. by rewrite length_imap.
  - intros i row Hi. split; [by apply Hids|].
    apply get_photo_by_id_found. simpl.
    unfold where_eq. rewrite filter_app. fold (where_eq "id" (VInt (photo_seq s + Z.of_nat i)) (photos s)).
    rewrite Hold by lia. by apply where_eq_numbered.
  - intros id old. unfold CRUDService.get_photo_by_id, mbind, M_bind, get_store. simpl.
    fold s. unfold where_eq at 2. rewrite filter_app.
    fold (where_eq "id" (VInt id) (photos s)) (where_eq "id" (VInt id) rows).
    destruct (where_eq "id" (VInt id) (photos s)) as [|r [|? ?]] eqn:Hfound; simpl; [done| |done].
    intros [= ->].
    assert (old ∈ where_eq "id" (VInt id) (photos s)) as Hin by (rewrite Hfound; left).
    apply elem_of_where_eq_int in Hin as [Hin Hid].
    rewrite (where_eq_numbered_other rows (photo_seq s) id); [done|done|].
    by apply (Hbelow old).
  - intros r n. simpl. rewrite elem_of_app. intros [Hr|Hr] Hid.
    + specialize (Hbelow r n Hr Hid). lia.
    + apply list_elem_of_lookup in Hr as [j Hj].
      assert (j < length rows)%nat as Hlt by by eapply lookup_lt_Some.
      rewrite (Hids j r Hj) in Hid. injection Hid as <-. lia.
Qed.

(** Two new photos into the demo store: they take the identities 4
    and 5. *)
Lemma created_photos_are_read_back_witness :
  ∃ rows w',
    CRUDService.create_photos_bulk
      [Photo 1 "https://cdn.example/a.png" "a"; Photo 1 "https://cdn.example/b.png" "b"]
      demo_env demo_world = (Ok rows, w')
    ∧ length rows = 2%nat
    ∧ photo_seq (store w') = 6.
Proof.
  destruct (created_photos_are_read_back demo_env demo_world
              [Photo 1 "https://cdn.example/a.png" "a"; Photo 1 "https://cdn.example/b.png" "b"])
    as (rows & w' & Hrun & Hlen & Hseq & _).
  - intros r n Hr Hid. apply list_elem_of_singleton in Hr as ->.
    vm_compute in Hid. injection Hid as <-. reflexivity.
  - repeat constructor.
  - reflexivity.
  - exists rows, w'. split_and!; [exact Hrun|exact Hlen|exact Hseq].
Defined.
